(** * AMS mini-app: predicate-driven packing and the per-material pipeline

    A shallow embedding of [ams::DataHandler] (wf/data_handler.hpp) and of
    [MiniApp::evaluate_inner], together with the properties of the
    specification that concern them.

    Conventions of the embedding.
    - A raw pointer [T*] is the view of the buffer that starts at the pointed
      cell: a [list T].  [&p[k]] is [drop k p].  Reading or writing past the
      end of a view is undefined behaviour and is reported as a [Fault].
    - A [std::vector<TypeValue*>] is a list of such views.  The buffers named
      by the pointers handed to one call are pairwise disjoint, as they are at
      every call site of the repository (separate allocations or separate
      tensors).
    - [size_t] values that count or index cells are [nat]; [int] values are
      [Z] with the two's-complement wrap-around written out where a
      conversion takes place.
    - Code that writes memory is a function from the memory it may write to
      an outcome and the memory afterwards, so that the memory at the moment
      an exception is raised can be inspected.
    - The device kernels and the evaluators are not part of the embedded
      files: the former are parameters and the properties of the packing
      loops are proved for host execution; the latter are arbitrary
      functions that say what a call stores. *)

From stdpp Require Import base numbers list strings sorting.
From Stdlib Require Import ZArith Lia.

Set Default Proof Using "Type".
Local Open Scope Z_scope.
Local Open Scope nat_scope.

(** ** Outcomes of a computation *)

(** C++ exceptions raised by the modelled code. *)
Inductive exn : Type :=
  | invalid_argument (what : string)
  | bad_alloc.

(** Undefined behaviour the modelled code can run into. *)
Inductive fault : Type :=
  | OutOfBounds
  | NullDereference
  | DivisionByZero
  | SignedOverflow.

Inductive res (A : Type) : Type :=
  | Ok (a : A)
  | Throw (e : exn)
  | Fault (f : fault)
  | OutOfFuel.
Arguments Ok {A} a.
Arguments Throw {A} e.
Arguments Fault {A} f.
Arguments OutOfFuel {A}.

(** A computation over a memory of type [St]. *)
Definition M (St A : Type) : Type := St -> res A * St.

Definition ret {St A} (a : A) : M St A := fun s => (Ok a, s).

Definition bind {St A B} (m : M St A) (k : A -> M St B) : M St B :=
  fun s =>
    match m s with
    | (Ok a, s') => k a s'
    | (Throw e, s') => (Throw e, s')
    | (Fault f, s') => (Fault f, s')
    | (OutOfFuel, s') => (OutOfFuel, s')
    end.

Definition throw {St A} (e : exn) : M St A := fun s => (Throw e, s).
Definition undefined {St A} (f : fault) : M St A := fun s => (Fault f, s).
Definition out_of_fuel {St A} : M St A := fun s => (OutOfFuel, s).
Definition get {St} : M St St := fun s => (Ok s, s).
Definition put {St} (s : St) : M St unit := fun _ => (Ok tt, s).

(** A pure partial read used inside a computation. *)
Definition lift {St A} (r : res A) : M St A := fun s => (r, s).

Declare Scope comp_scope.
Delimit Scope comp_scope with comp.
Notation "'let*' x ':=' m 'in' k" := (bind m (fun x => k))
  (at level 10, x pattern, m at level 100, k at level 200) : comp_scope.
Notation "m ';;' k" := (bind m (fun _ => k))
  (at level 100, k at level 200, right associativity) : comp_scope.

(** Runs [m] on a component of the memory: [proj] selects it and [upd]
    stores it back. *)
Definition zoom {St T A} (proj : St -> T) (upd : St -> T -> St) (m : M T A) : M St A :=
  fun s => let '(r, t) := m (proj s) in (r, upd s t).

(** [for (size_t i = i0; i < i0 + cnt; i++) body(i)] *)
Fixpoint for_loop {St} (cnt i : nat) (body : nat -> M St unit) : M St unit :=
  match cnt with
  | O => ret tt
  | S cnt' => (body i ;; for_loop cnt' (S i) body)%comp
  end.

Definition is_throw {A} (r : res A) : bool :=
  match r with Throw _ => true | _ => false end.

(** ** Machine integers *)

(** The LP64 data model of the platforms the code is built for: [int] has
    32 bits and [size_t] 64. *)
Module Int.
Local Open Scope Z_scope.

Definition INT_MIN : Z := - 2 ^ 31.
Definition INT_MAX : Z := 2 ^ 31 - 1.
Definition SIZE_MOD : Z := 2 ^ 64.

Definition in_int (z : Z) : bool := (INT_MIN <=? z) && (z <=? INT_MAX).

(** Conversion to [int]: reduction modulo 2^32 into the signed range. *)
Definition to_int (z : Z) : Z := (z + 2 ^ 31) mod 2 ^ 32 - 2 ^ 31.

(** Conversion to [size_t]: reduction modulo 2^64. *)
Definition to_size_t (z : Z) : Z := z mod SIZE_MOD.

Definition sizeof_int : Z := 4.
Definition sizeof_double : Z := 8.

(** Signed [int] arithmetic; overflow is undefined behaviour. *)
Definition add (a b : Z) : res Z :=
  if in_int (a + b) then Ok (a + b) else Fault SignedOverflow.
Definition sub (a b : Z) : res Z :=
  if in_int (a - b) then Ok (a - b) else Fault SignedOverflow.
(** [a / b] on [int]: truncation towards zero. *)
Definition div (a b : Z) : res Z :=
  if b =? 0 then Fault DivisionByZero
  else if in_int (Z.quot a b) then Ok (Z.quot a b) else Fault SignedOverflow.
(** [a / b] on [size_t]. *)
Definition udiv (a b : Z) : res Z :=
  if b =? 0 then Fault DivisionByZero else Ok (a / b).
End Int.

(** ** Cells and buffers *)

Section Buffers.
Context {T : Type}.

(** [p[i]] as an rvalue. *)
Definition load (p : list T) (i : nat) : res T :=
  match p !! i with
  | Some x => Ok x
  | None => Fault OutOfBounds
  end.

(** [p[i] = x] *)
Definition store (i : nat) (x : T) : M (list T) unit :=
  fun p => if decide (i < length p) then (Ok tt, <[i:=x]> p)
           else (Fault OutOfBounds, p).

(** [v[j][i]] as an rvalue, for a vector [v] of pointers. *)
Definition load2 (v : list (list T)) (j i : nat) : res T :=
  match v !! j with
  | Some p => load p i
  | None => Fault OutOfBounds
  end.

(** [v[j][i] = x] *)
Definition store2 (j i : nat) (x : T) : M (list (list T)) unit :=
  fun v =>
    match v !! j with
    | Some p =>
        if decide (i < length p) then (Ok tt, <[j:=<[i:=x]> p]> v)
        else (Fault OutOfBounds, v)
    | None => (Fault OutOfBounds, v)
    end.

(** [for (j = 0; j < dims; j++) dst[j][b] = src[j][a];] *)
Definition copy_column (src : list (list T)) (a b dims : nat)
  : M (list (list T)) unit :=
  for_loop dims 0 (fun j =>
    let* x := lift (load2 src j a) in
    store2 j b x)%comp.
End Buffers.

(** ** Local variables of a loop *)

(** A loop that updates a local variable of type [L] besides the memory runs
    over the pair of both. *)
Definition get_local {L St} : M (L * St) L := fun s => (Ok (fst s), s).
Definition set_local {L St} (l : L) : M (L * St) unit :=
  fun s => (Ok tt, (l, snd s)).
Definition on_mem {L St A} (m : M St A) : M (L * St) A :=
  zoom snd (fun s t => (fst s, t)) m.
Definition on_fst {S1 S2 A} (m : M S1 A) : M (S1 * S2) A :=
  zoom fst (fun s t => (t, snd s)) m.
Definition on_snd {S1 S2 A} (m : M S2 A) : M (S1 * S2) A :=
  zoom snd (fun s t => (fst s, t)) m.

(** Runs [m] with the local initialised to [l0]; the value of the whole is
    the final value of the local. *)
Definition with_local {L St} (l0 : L) (m : M (L * St) unit) : M St L :=
  fun s =>
    match m (l0, s) with
    | (Ok _, (l, s')) => (Ok l, s')
    | (Throw e, (_, s')) => (Throw e, s')
    | (Fault f, (_, s')) => (Fault f, s')
    | (OutOfFuel, (_, s')) => (OutOfFuel, s')
    end.

(** ** wf/data_handler.hpp *)

(** The execution mode and the device kernels ([ams::ResourceManager] and
    [ams::Device], declared in wf/resource_manager.hpp and wf/device.hpp) are
    not part of the files embedded here: they are parameters.  A kernel is
    given the buffers behind the pointers it receives and returns those it
    may have written. *)
Record Device (V : Type) : Type := {
  isDeviceExecution : bool;
  Device_pack :
    bool -> list bool -> nat -> list (list V) -> list (list V) -> nat ->
    nat * list (list V);
  Device_unpack :
    bool -> list bool -> nat -> list (list V) -> list (list V) -> nat ->
    nat * list (list V);
  Device_pack_indices :
    bool -> list bool -> nat -> list (list V) -> list (list V) -> list Z -> Z ->
    nat * (list Z * list (list V));
  Device_unpack_indices :
    bool -> nat -> list (list V) -> list (list V) -> list Z -> Z ->
    list (list V)
}.
Arguments isDeviceExecution {V}.
Arguments Device_pack {V}.
Arguments Device_unpack {V}.
Arguments Device_pack_indices {V}.
Arguments Device_unpack_indices {V}.

Module DataHandler.
Section WithTypeValue.
Context {TypeValue : Type}.
Variable dev : Device TypeValue.
(** [sizeof(TypeValue)] *)
Variable sizeof_TypeValue : Z.

Definition size_mismatch : exn :=
  invalid_argument "Packing arrays size mismatch".

(** [pack(predicate, n, sparse, dense, denseVal)]: the memory is [dense]. *)
Definition pack (predicate : list bool) (n : nat)
    (sparse : list (list TypeValue)) (denseVal : bool)
  : M (list (list TypeValue)) nat :=
  (let* dense := get in
   if negb (length sparse =? length dense) then throw size_mismatch
   else
     let dims := length sparse in
     if negb (isDeviceExecution dev) then
       with_local 0 (for_loop n 0 (fun i =>
         let* p := lift (load predicate i) in
         if Bool.eqb p denseVal then
           let* npacked := get_local in
           on_mem (copy_column sparse i npacked dims) ;;
           set_local (S npacked)
         else ret tt))
     else
       let '(npacked, dense') :=
         Device_pack dev denseVal predicate n sparse dense dims in
       put dense' ;; ret npacked)%comp.

(** [unpack(predicate, n, dense, sparse, denseVal)]: the memory is
    [sparse]. *)
Definition unpack (predicate : list bool) (n : nat)
    (dense : list (list TypeValue)) (denseVal : bool)
  : M (list (list TypeValue)) unit :=
  (let* sparse := get in
   if negb (length sparse =? length dense) then throw size_mismatch
   else
     let dims := length sparse in
     if negb (isDeviceExecution dev) then
       let* _ := with_local 0 (for_loop n 0 (fun i =>
         let* p := lift (load predicate i) in
         if Bool.eqb p denseVal then
           let* npacked := get_local in
           on_mem (copy_column dense npacked i dims) ;;
           set_local (S npacked)
         else ret tt)) in
       ret tt
     else
       let '(_, sparse') :=
         Device_unpack dev denseVal predicate n sparse dense dims in
       put sparse')%comp.

(** The overload of [pack] with the [sparse_indices] argument: the memory
    is the pair of [sparse_indices] and [dense].  [dims] is an [int] here
    and is converted back to [size_t] by the comparison [j < dims]. *)
Definition pack_indices (predicate : list bool) (n : nat)
    (sparse : list (list TypeValue)) (denseVal : bool)
  : M (list Z * list (list TypeValue)) nat :=
  (let* m := get in
   let dense := snd m in
   let sparse_indices := fst m in
   if negb (length sparse =? length dense) then throw size_mismatch
   else
     let dims := Int.to_int (Z.of_nat (length sparse)) in
     if negb (isDeviceExecution dev) then
       with_local 0 (for_loop n 0 (fun i =>
         let* p := lift (load predicate i) in
         if Bool.eqb p denseVal then
           let* npacked := get_local in
           on_mem (on_snd
             (copy_column sparse i npacked (Z.to_nat (Int.to_size_t dims)))) ;;
           on_mem (on_fst (store npacked (Int.to_int (Z.of_nat i)))) ;;
           set_local (S npacked)
         else ret tt))
     else
       let '(npacked, m') :=
         Device_pack_indices dev denseVal predicate n sparse dense
           sparse_indices dims in
       put m' ;; ret npacked)%comp.

(** The overload of [unpack] driven by [sparse_indices]: the memory is
    [sparse].  A negative index points before the buffer. *)
Definition unpack_indices (sparse_indices : list Z) (nPacked : nat)
    (dense : list (list TypeValue)) (denseVal : bool)
  : M (list (list TypeValue)) unit :=
  (let* sparse := get in
   if negb (length sparse =? length dense) then throw size_mismatch
   else
     let dims := Int.to_int (Z.of_nat (length sparse)) in
     if negb (isDeviceExecution dev) then
       for_loop nPacked 0 (fun i =>
         for_loop (Z.to_nat (Int.to_size_t dims)) 0 (fun j =>
           let* x := lift (load2 dense j i) in
           let* k := lift (load sparse_indices i) in
           if (k <? 0)%Z then undefined OutOfBounds
           else store2 j (Z.to_nat k) x))
     else
       put (Device_unpack_indices dev denseVal nPacked sparse dense
              sparse_indices dims))%comp.

(** [computePartitionSize(numIFeatures, numOFeatures, includeReIndex, pSize)].
    The default of [pSize] is the constant [partitionSize], declared
    outside the embedded files; callers pass it explicitly here.
    [sizeof] yields a [size_t], so the product and the sum with
    [sizeof(int)] are computed on [size_t]; the first is then stored in an
    [int].  With [includeReIndex] the division is on [size_t] and its
    result is converted to the [int] return type; without it the division
    is on [int]. *)
Definition computePartitionSize (numIFeatures numOFeatures : Z)
    (includeReIndex : bool) (pSize : Z) : res Z :=
  match Int.add numIFeatures numOFeatures with
  | Ok features =>
      let singleElementBytes :=
        Int.to_int
          (Int.to_size_t (sizeof_TypeValue * Int.to_size_t features)) in
      if includeReIndex then
        match Int.udiv (Int.to_size_t pSize)
                (Int.to_size_t
                   (Int.to_size_t singleElementBytes + Int.sizeof_int)) with
        | Ok q => Ok (Int.to_int q)
        | Throw e => Throw e
        | Fault f => Fault f
        | OutOfFuel => OutOfFuel
        end
      else Int.div pSize singleElementBytes
  | Throw e => Throw e
  | Fault f => Fault f
  | OutOfFuel => OutOfFuel
  end.
End WithTypeValue.
End DataHandler.

(** ** Collaborators of the mini-app *)

(** Modelled from the spec: the physics evaluator [EOS] (app/eos.hpp is not
    among the embedded files).  Section 4.D: [eval(n, energy, density,
    pressure, sound_speed_sq, bulk_modulus, temperature)] computes the
    physics outputs for [n] samples.  [EOS_Eval n energy density j r] is the
    value the call stores in cell [r < n] of its [j]-th output buffer. *)
Record EOS (V : Type) : Type := {
  EOS_Eval : nat -> list V -> list V -> nat -> nat -> V
}.
Arguments EOS_Eval {V}.

(** Modelled from the spec: the surrogate (ml/surrogate.hpp is not among the
    embedded files).  Section 4.D: [eval(n, inputs, outputs)] produces
    approximate outputs for all [n] samples.  [Surrogate_Eval n inputs j i]
    is the value the call stores in cell [i < n] of [outputs[j]]. *)
Record SurrogateModel (V : Type) : Type := {
  Surrogate_Eval : nat -> list (list V) -> nat -> nat -> V
}.
Arguments Surrogate_Eval {V}.

(** Modelled from the spec: the UQ cache (ml/hdcache.hpp is not among the
    embedded files).  Section 4.D: [evaluate(n, inputs, acceptable)] writes
    an acceptance predicate per sample.  [HDCache_evaluate n inputs i] is the
    value the call stores in cell [i < n] of [acceptable]. *)
Record HDCache (V : Type) : Type := {
  HDCache_evaluate : nat -> list (list V) -> nat -> bool
}.
Arguments HDCache_evaluate {V}.

(** What fresh memory holds.  [fresh_bool] is the content of the predicate
    buffer as the allocator hands it out; [fresh pId b] the content of the
    [b]-th scratch buffer of the partition that starts at [pId]. *)
Record Allocator (V : Type) : Type := {
  fresh_bool : nat -> bool;
  fresh : Z -> nat -> nat -> V
}.
Arguments fresh_bool {V}.
Arguments fresh {V}.

(** Modelled from the spec: [AMS::utilities::allocate] (wf/utilities.hpp is
    not among the embedded files).  Section 4.B has typed allocate and
    deallocate on the current memory space and promises nothing about the
    content of a fresh buffer, which is [content] here; section 7 makes an
    allocation failure a fatal error propagated to the caller.  The byte
    count is computed on [size_t]; a request of 2^63 bytes or more, which is
    what a negative [int] count converts to, fails. *)
Definition allocate {T} (content : nat -> T) (count sizeof_T : Z)
  : res (list T) :=
  let bytes := Int.to_size_t (Int.to_size_t count * sizeof_T) in
  if (2 ^ 63 <=? bytes)%Z then Throw bad_alloc
  else Ok (map content (seq 0 (Z.to_nat (bytes / sizeof_T)))).

(** An evaluator stores [f 0 .. f (n-1)] in the first [n] cells of [p]. *)
Definition write_n {T} (n : nat) (f : nat -> T) : M (list T) unit :=
  fun p => if decide (n <= length p)
           then (Ok tt, map f (seq 0 n) ++ drop n p)
           else (Fault OutOfBounds, p).

(** The same for every buffer [v[j]] of a vector, with [f j]. *)
Definition write_columns {T} (n : nat) (f : nat -> nat -> T)
  : M (list (list T)) unit :=
  fun v => if decide (Forall (fun p => n <= length p) v)
           then (Ok tt, imap (fun j p => map (f j) (seq 0 n) ++ drop n p) v)
           else (Fault OutOfBounds, v).

(** [v[i]] for a [std::vector] and an [int] index. *)
Definition vector_at {T} (v : list T) (i : Z) : res T :=
  if (i <? 0)%Z then Fault OutOfBounds else load v (Z.to_nat i).

(** Calls to the collaborators and the start of each partition, in program
    order. *)
Inductive event : Type :=
  | HDCache_evaluate_call (n : Z)
  | Partition (pId elements : Z)
  | Surrogate_Eval_call (n : Z)
  | EOS_Eval_call (n : nat).

(** ** MiniApp *)

Module MiniApp.
Section WithApp.
(** [TypeValue] is [double]; the code only copies such values. *)
Context {V : Type}.

(** The members of [MiniApp] that [evaluate_inner] reads: three vectors of
    nullable pointers, indexed by material. *)
Record t : Type := {
  eoses : list (option (EOS V));
  hdcaches : list (option (HDCache V));
  surrogates : list (option (SurrogateModel V))
}.

(** The memory [evaluate_inner] writes: the four output buffers
    [pPressure; pSoundSpeed2; pBulkmod; pTemperature], in this order, and
    the log of events. *)
Record mem : Type := {
  outputs : list (list V);
  trace : list event
}.

Variable dev : Device V.
(** The constant [partitionSize], declared outside the embedded files. *)
Variable partitionSize : Z.
Variable alloc : Allocator V.
Variable app : t.

Definition emit (e : event) : M mem unit :=
  fun s => (Ok tt, {| outputs := outputs s; trace := trace s ++ [e] |}).

(** A computation on [{&pPressure[pId], &pSoundSpeed2[pId], &pBulkmod[pId],
    &pTemperature[pId]}]. *)
Definition on_sparse_outputs {A} (pId : nat) (m : M (list (list V)) A)
  : M mem A :=
  zoom (fun s => map (drop pId) (outputs s))
       (fun s v => {| outputs := zip_with (fun o w => take pId o ++ w)
                                   (outputs s) v;
                      trace := trace s |})
       m.

(** Runs [m] on the scratch memory [t0] and yields its value together with
    the scratch memory afterwards. *)
Definition on_scratch {St T A} (t0 : T) (m : M T A) : M St (A * T) :=
  fun s =>
    match m t0 with
    | (Ok a, t') => (Ok (a, t'), s)
    | (Throw e, _) => (Throw e, s)
    | (Fault f, _) => (Fault f, s)
    | (OutOfFuel, _) => (OutOfFuel, s)
    end.

Section WithArguments.
Variable mat_idx : Z.
Variable num_data : Z.
Variables pDensity pEnergy : list V.

(** The first part of [evaluate_inner]: the allocation of
    [p_ml_acceptable] and STEP 1.  Its value is the predicate buffer once
    the UQ cache, if there is one, has run.  The [std::cout] line and
    [print()] are left out. *)
Definition predicate_buffer : M mem (list bool) :=
  (let* p_ml_acceptable :=
     lift (allocate (fresh_bool alloc) num_data 1) in
   let* hdcache := lift (vector_at (hdcaches app) mat_idx) in
   match hdcache with
   | Some h =>
       emit (HDCache_evaluate_call num_data) ;;
       let* r := on_scratch p_ml_acceptable
                   (write_n (Z.to_nat num_data)
                      (HDCache_evaluate h (Z.to_nat num_data)
                         [pDensity; pEnergy])) in
       ret (snd r)
   | None => ret p_ml_acceptable
   end)%comp.

(** The body of the partition loop.  The two [std::cout] lines and the
    blocks under [__ENABLE_DB__] and [__SURROGATE_DEBUG__], which are not
    defined, are left out; deallocation does nothing here. *)
Definition partition (p_ml_acceptable : list bool)
    (partitionElements pId : Z) : M mem unit :=
  (let* rest := lift (Int.sub num_data pId) in
   let elements := Z.min partitionElements rest in
   emit (Partition pId elements) ;;
   let* packed_density :=
     lift (allocate (fresh alloc pId 0) elements Int.sizeof_double) in
   let* packed_energy :=
     lift (allocate (fresh alloc pId 1) elements Int.sizeof_double) in
   let* packed_pressure :=
     lift (allocate (fresh alloc pId 2) elements Int.sizeof_double) in
   let* packed_soundspeed2 :=
     lift (allocate (fresh alloc pId 3) elements Int.sizeof_double) in
   let* packed_bulkmod :=
     lift (allocate (fresh alloc pId 4) elements Int.sizeof_double) in
   let* packed_temperature :=
     lift (allocate (fresh alloc pId 5) elements Int.sizeof_double) in
   if (pId <? 0)%Z then undefined OutOfBounds
   else
     let off := Z.to_nat pId in
     let n := Z.to_nat (Int.to_size_t elements) in
     let sparse_inputs := [drop off pDensity; drop off pEnergy] in
     let packed_inputs := [packed_density; packed_energy] in
     let packed_outputs :=
       [packed_pressure; packed_soundspeed2; packed_bulkmod;
        packed_temperature] in
     let predicate := drop off p_ml_acceptable in
     let* surrogate := lift (vector_at (surrogates app) mat_idx) in
     match surrogate with
     | Some s =>
         emit (Surrogate_Eval_call elements) ;;
         on_sparse_outputs off
           (write_columns n (Surrogate_Eval s n sparse_inputs))
     | None => ret tt
     end ;;
     let* packed :=
       on_scratch packed_inputs
         (DataHandler.pack dev predicate n sparse_inputs false) in
     let packedElements := fst packed in
     let packed_density' := default [] (snd packed !! 0) in
     let packed_energy' := default [] (snd packed !! 1) in
     let* eos := lift (vector_at (eoses app) mat_idx) in
     match eos with
     | None => undefined NullDereference
     | Some e =>
         emit (EOS_Eval_call packedElements) ;;
         let* physics :=
           on_scratch packed_outputs
             (write_columns packedElements
                (EOS_Eval e packedElements packed_energy'
                   packed_density')) in
         on_sparse_outputs off
           (DataHandler.unpack dev predicate n (snd physics) false)
     end)%comp.

(** [for (int pId = 0; pId < num_data; pId += partitionElements)],
    started at [pId]; [fuel] bounds the number of iterations. *)
Fixpoint partition_loop (fuel : nat) (p_ml_acceptable : list bool)
    (partitionElements pId : Z) : M mem unit :=
  if (pId <? num_data)%Z then
    match fuel with
    | O => out_of_fuel
    | S fuel' =>
        (partition p_ml_acceptable partitionElements pId ;;
         let* pId' := lift (Int.add pId partitionElements) in
         partition_loop fuel' p_ml_acceptable partitionElements pId')%comp
    end
  else ret tt.

Definition evaluate_inner (fuel : nat) : M mem unit :=
  (let* p_ml_acceptable := predicate_buffer in
   let* partitionElements :=
     lift (DataHandler.computePartitionSize Int.sizeof_double 2 4 true
             partitionSize) in
   partition_loop fuel p_ml_acceptable partitionElements 0)%comp.
End WithArguments.
End WithApp.
Arguments t : clear implicits.
Arguments mem : clear implicits.
End MiniApp.

(** ** What the packing loops compute *)

Section Selection.
Context {T : Type}.

(** The source indices below [n] that a pack with [denseVal] selects, in
    ascending order. *)
Definition picks (denseVal : bool) (predicate : list bool) (n : nat)
  : list nat :=
  filter (fun i => predicate !! i = Some denseVal) (seq 0 n).

(** The number of selected indices below [i]: the dense position of a
    selected index [i]. *)
Definition rank (denseVal : bool) (predicate : list bool) (i : nat) : nat :=
  length (picks denseVal predicate i).

(** [d[b] = s[a]] for one pair of buffers. *)
Definition put_cell (a b : nat) (s d : list T) : list T :=
  match s !! a with
  | Some x => <[b:=x]> d
  | None => d
  end.

(** The cells of [s] at the indices [idx], in the order of [idx]. *)
Definition gather (s : list T) (idx : list nat) : list T :=
  omap (fun k => s !! k) idx.

(** A dense buffer after packing [s] into it. *)
Definition packed (denseVal : bool) (predicate : list bool) (n : nat)
    (s d : list T) : list T :=
  gather s (picks denseVal predicate n) ++ drop (rank denseVal predicate n) d.

(** [s[idx[0]] = d[r]; s[idx[1]] = d[r+1]; ...] *)
Fixpoint scatter_from (d : list T) (r : nat) (idx : list nat) (s : list T)
  : list T :=
  match idx with
  | [] => s
  | k :: idx' => scatter_from d (S r) idx' (put_cell r k d s)
  end.

(** A sparse buffer after unpacking [d] into it. *)
Definition unpacked (denseVal : bool) (predicate : list bool) (n : nat)
    (d s : list T) : list T :=
  scatter_from d 0 (picks denseVal predicate n) s.
End Selection.

Definition is_eos_call (e : event) : bool :=
  match e with EOS_Eval_call _ => true | _ => false end.

(** The number of [EOS::Eval] calls in a log. *)
Definition eos_calls (l : list event) : nat :=
  length (List.filter is_eos_call l).

(** The source indices [0 .. n-1] as [pack] stores them in [sparse_indices]. *)
Definition source_indices (n : nat) : list Z :=
  (fun k => Int.to_int (Z.of_nat k)) <$> seq 0 n.

(** The starts of the partitions entered, in program order. *)
Definition partitions_started (l : list event) : list Z :=
  omap (fun e => match e with Partition pId _ => Some pId | _ => None end) l.

(** A computation that raises no exception, whatever the memory. *)
Definition no_throw {St A} (m : M St A) : Prop :=
  forall s, is_throw (fst (m s)) = false.

(** A platform that executes on the host; its kernels are never launched. *)
Definition host_device {V} : Device V := {|
  isDeviceExecution := false;
  Device_pack := fun _ _ _ _ dense _ => (0, dense);
  Device_unpack := fun _ _ _ sparse _ _ => (0, sparse);
  Device_pack_indices := fun _ _ _ _ dense idx _ => (0, (idx, dense));
  Device_unpack_indices := fun _ _ sparse _ _ _ => sparse
|}.

(** ** What one partition computes *)

Section PartitionSpec.
Context {V : Type}.
Variable dev : Device V.
Variable alloc : Allocator V.
Variable num_data : Z.
Variables pDensity pEnergy : list V.
(** The predicate buffer, the step of the loop and the start of the
    partition. *)
Variable p_ml_acceptable : list bool.
Variable partitionElements pId : Z.

Definition elements_of : Z := Z.min partitionElements (num_data - pId).

(** The [b]-th scratch buffer as allocated. *)
Definition scratch (b : nat) : list V :=
  map (fresh alloc pId b) (seq 0 (Z.to_nat elements_of)).

Definition sparse_inputs_of : list (list V) :=
  [drop (Z.to_nat pId) pDensity; drop (Z.to_nat pId) pEnergy].

Definition predicate_of : list bool := drop (Z.to_nat pId) p_ml_acceptable.

(** [packedElements] *)
Definition packed_count : nat :=
  rank false predicate_of (Z.to_nat elements_of).

(** [packed_inputs] once [pack] has run. *)
Definition packed_inputs_of : list (list V) :=
  snd (DataHandler.pack dev predicate_of (Z.to_nat elements_of)
         sparse_inputs_of false [scratch 0; scratch 1]).

(** What the surrogate stores for sample [i] of the partition in its
    [j]-th output. *)
Definition surrogate_output (s : SurrogateModel V) (j i : nat) : V :=
  Surrogate_Eval s (Z.to_nat elements_of) sparse_inputs_of j i.

(** What the physics evaluator stores in cell [r] of its [j]-th packed
    output. *)
Definition physics_output (e : EOS V) (j r : nat) : V :=
  EOS_Eval e packed_count
    (default [] (packed_inputs_of !! 1)) (default [] (packed_inputs_of !! 0))
    j r.

(** Cell [q] of the [j]-th output buffer after the partition, given the
    buffer [o] before it. *)
Definition output_cell (s : option (SurrogateModel V)) (e : EOS V)
    (j : nat) (o : list V) (q : nat) : option V :=
  let off := Z.to_nat pId in
  if decide (off <= q < off + Z.to_nat elements_of) then
    if decide (p_ml_acceptable !! q = Some false) then
      Some (physics_output e j (rank false predicate_of (q - off)))
    else
      match s with
      | Some s => Some (surrogate_output s j (q - off))
      | None => o !! q
      end
  else o !! q.

(** The events of the partition. *)
Definition partition_events (s : option (SurrogateModel V)) : list event :=
  Partition pId elements_of
    :: match s with
       | Some _ => [Surrogate_Eval_call elements_of]
       | None => []
       end
    ++ [EOS_Eval_call packed_count].
End PartitionSpec.

(** The output buffers are the four of the signature, each with room for
    [num_data] samples. *)
Definition outputs_ok {V} (num_data : Z) (m : MiniApp.mem V) : Prop :=
  length (MiniApp.outputs m) = 4 /\
  Forall (fun o => Z.to_nat num_data <= length o) (MiniApp.outputs m).

(** ** A small instance *)

Module Demo.
Local Open Scope Z_scope.

(** A surrogate that answers [7] everywhere. *)
Definition surrogate : SurrogateModel Z :=
  {| Surrogate_Eval := fun _ _ _ _ => 7 |}.

(** A physics evaluator whose outputs show the inputs it was given. *)
Definition eos : EOS Z :=
  {| EOS_Eval := fun _ energy density _ r =>
       1000 * default 0 (energy !! r) + default 0 (density !! r) |}.

(** A UQ cache that accepts the samples of even index. *)
Definition uq_even : HDCache Z :=
  {| HDCache_evaluate := fun _ _ i => Nat.even i |}.

(** A UQ cache that accepts every sample. *)
Definition uq_all : HDCache Z :=
  {| HDCache_evaluate := fun _ _ _ => true |}.

(** An allocator whose fresh memory holds non-zero bytes in the predicate
    buffer. *)
Definition allocator : Allocator Z :=
  {| fresh_bool := fun _ => true; fresh := fun _ _ _ => 0 |}.

Definition app : MiniApp.t Z :=
  {| MiniApp.eoses := [Some eos];
     MiniApp.hdcaches := [Some uq_even];
     MiniApp.surrogates := [Some surrogate] |}.

Definition app_accept_all : MiniApp.t Z :=
  {| MiniApp.eoses := [Some eos];
     MiniApp.hdcaches := [Some uq_all];
     MiniApp.surrogates := [Some surrogate] |}.

Definition app_no_uq : MiniApp.t Z :=
  {| MiniApp.eoses := [Some eos];
     MiniApp.hdcaches := [None];
     MiniApp.surrogates := [Some surrogate] |}.

Definition app_no_eos : MiniApp.t Z :=
  {| MiniApp.eoses := [None];
     MiniApp.hdcaches := [Some uq_all];
     MiniApp.surrogates := [Some surrogate] |}.

Definition app_physics_only : MiniApp.t Z :=
  {| MiniApp.eoses := [Some eos];
     MiniApp.hdcaches := [None];
     MiniApp.surrogates := [None] |}.

Definition density : list Z := [1; 2; 3; 4].
Definition energy : list Z := [10; 20; 30; 40].
Definition P : list bool := [true; false; true; false].

Definition mem0 : MiniApp.mem Z :=
  {| MiniApp.outputs :=
       [[0; 0; 0; 0]; [0; 0; 0; 0]; [0; 0; 0; 0]; [0; 0; 0; 0]];
     MiniApp.trace := [] |}.
End Demo.

(** ** Casting and linearizing (wf/data_handler.hpp) *)

(** Runs [m] on the memory [s] and yields the memory afterwards. *)
Definition run_on {St} (m : M St unit) (s : St) : res St :=
  match m s with
  | (Ok _, s') => Ok s'
  | (Throw e, _) => Throw e
  | (Fault f, _) => Fault f
  | (OutOfFuel, _) => OutOfFuel
  end.

(** [std::transform(src, src + n, dest, f)]: the memory is [dest]. *)
Definition transform {A B} (n : nat) (src : list A) (f : A -> B)
  : M (list B) unit :=
  for_loop n 0 (fun i =>
    let* x := lift (load src i) in
    store i (f x))%comp.

(** Modelled from the spec: [ams::ResourceManager::allocate<T>(n)]
    (wf/resource_manager.hpp is not among the embedded files).  Section 4.B:
    typed allocation on the current memory space, with no promise about the
    content of the fresh buffer, which is [content] here. *)
Definition allocate_typed {T} (content : nat -> T) (n : nat) : list T :=
  map content (seq 0 n).

(** [cast_to_typevalue(n, data)] when the data type is [TypeValue]: the
    pointer itself is returned. *)
Definition cast_to_typevalue_same {TypeValue} (n : nat) (data : list TypeValue)
  : list TypeValue := data.

(** [cast_to_typevalue(n, data)] when the data type [T] is not [TypeValue];
    [cast] is [static_cast<TypeValue>]. *)
Definition cast_to_typevalue {T TypeValue} (content : nat -> TypeValue)
    (cast : T -> TypeValue) (n : nat) (data : list T) : res (list TypeValue) :=
  let fdata := allocate_typed content n in
  run_on (transform n data cast) fdata.

(** [cast_from_typevalue(n, dest, src)] when the data type is [TypeValue]:
    the memory is [dest]. *)
Definition cast_from_typevalue_same {TypeValue} (n : nat) (src : list TypeValue)
  : M (list TypeValue) unit :=
  transform n src (fun v => v).

(** [cast_from_typevalue(n, dest, src)] when the data type [T] is not
    [TypeValue]; [cast] is [static_cast<T>]. *)
Definition cast_from_typevalue {T TypeValue} (cast : TypeValue -> T) (n : nat)
    (src : list TypeValue) : M (list T) unit :=
  transform n src cast.

(** [linearize_features(ndata, features)].  [is_on_device] is
    [ams::ResourceManager::is_on_device] and [Device_linearize] the kernel
    [ams::Device::linearize], both outside the embedded files; [cast] is
    [static_cast<TypeValue>]. *)
Definition linearize_features {T TypeValue} (content : nat -> TypeValue)
    (cast : T -> TypeValue) (is_on_device : list T -> bool)
    (Device_linearize :
       list TypeValue -> list (list T) -> nat -> nat -> list TypeValue)
    (ndata : nat) (features : list (list T)) : res (list TypeValue) :=
  let nfeatures := length features in
  let nvalues := ndata * nfeatures in
  let data := allocate_typed content nvalues in
  match load features 0 with
  | Ok features_0 =>
      let features_on_device := is_on_device features_0 in
      if negb features_on_device then
        run_on
          (for_loop nfeatures 0 (fun d =>
             for_loop ndata 0 (fun i =>
               let* x := lift (load2 features d i) in
               store (i * nfeatures + d) (cast x)))%comp)
          data
      else Ok (Device_linearize data features nfeatures ndata)
  | Throw e => Throw e
  | Fault f => Fault f
  | OutOfFuel => OutOfFuel
  end.

(** ** What the whole pipeline computes *)

(** A surrogate whose output for a sample depends on the inputs of that
    sample only: [g density energy j]. *)
Definition pointwise_surrogate {V} (s : SurrogateModel V)
    (g : V -> V -> nat -> V) : Prop :=
  forall n density energy j i x y,
    i < n -> density !! i = Some x -> energy !! i = Some y ->
    Surrogate_Eval s n [density; energy] j i = g x y j.

(** A physics evaluator whose output for a sample depends on the inputs of
    that sample only: [f energy density j]. *)
Definition pointwise_eos {V} (e : EOS V) (f : V -> V -> nat -> V) : Prop :=
  forall n energy density j r x y,
    r < n -> energy !! r = Some x -> density !! r = Some y ->
    EOS_Eval e n energy density j r = f x y j.

(** The predicate buffer after STEP 1. *)
Definition predicate_after_uq {V} (alloc : Allocator V)
    (h : option (HDCache V)) (num_data : Z) (pDensity pEnergy : list V)
  : list bool :=
  match h with
  | Some hd =>
      map (HDCache_evaluate hd (Z.to_nat num_data) [pDensity; pEnergy])
        (seq 0 (Z.to_nat num_data))
  | None => map (fresh_bool alloc) (seq 0 (Z.to_nat num_data))
  end.

(** The events of STEP 1. *)
Definition uq_events {V} (h : option (HDCache V)) (num_data : Z)
  : list event :=
  match h with
  | Some _ => [HDCache_evaluate_call num_data]
  | None => []
  end.

(** Cell [q] of the [j]-th output buffer once every partition has run, given
    the buffer [o] before the call: [g], if any, is the surrogate and [f] the
    physics evaluator, both pointwise. *)
Definition pipeline_cell {V} (P : list bool) (pDensity pEnergy : list V)
    (g : option (V -> V -> nat -> V)) (f : V -> V -> nat -> V)
    (j : nat) (o : list V) (q : nat) : option V :=
  match P !! q, pDensity !! q, pEnergy !! q with
  | Some true, Some x, Some y =>
      match g with
      | Some g => Some (g x y j)
      | None => o !! q
      end
  | Some false, Some x, Some y => Some (f y x j)
  | _, _, _ => o !! q
  end.

(** The partitions entered, each with its start and its number of samples. *)
Definition partitions_of (l : list event) : list (Z * Z) :=
  omap (fun e => match e with
                 | Partition pId elements => Some (pId, elements)
                 | _ => None
                 end) l.

(** Consecutive partitions of at most [step] samples that cover [a, b). *)
Fixpoint tiles (step a b : Z) (ps : list (Z * Z)) : Prop :=
  match ps with
  | [] => a = b
  | (pId, elements) :: rest =>
      pId = a /\ (0 < elements)%Z /\ elements = Z.min step (b - a) /\
      tiles step (a + elements) b rest
  end.

Definition is_surrogate_call (e : event) : bool :=
  match e with Surrogate_Eval_call _ => true | _ => false end.

Definition is_hdcache_call (e : event) : bool :=
  match e with HDCache_evaluate_call _ => true | _ => false end.

(** The number of events of a log that satisfy [p]. *)
Definition count_events (p : event -> bool) (l : list event) : nat :=
  length (List.filter p l).

(** The number of samples handed to [EOS::Eval] over a log. *)
Definition eos_samples (l : list event) : nat :=
  foldr (fun e acc => match e with
                      | EOS_Eval_call n => n + acc
                      | _ => acc
                      end) 0 l.

(** The number of samples handed to the surrogate over a log. *)
Definition surrogate_samples (l : list event) : Z :=
  foldr (fun e acc => match e with
                      | Surrogate_Eval_call n => (n + acc)%Z
                      | _ => acc
                      end) 0%Z l.

(** The events of the partition loop started at [pId], for at most [cnt]
    partitions. *)
Fixpoint loop_events {V} (num_data : Z) (P : list bool) (step : Z)
    (s : option (SurrogateModel V)) (cnt : nat) (pId : Z) : list event :=
  match cnt with
  | O => []
  | S cnt' =>
      if (pId <? num_data)%Z then
        partition_events num_data P step pId s
          ++ loop_events num_data P step s cnt' (pId + step)
      else []
  end.

(** The start of the partition that holds sample [q] when the loop starts
    at [pId]. *)
Definition partition_start (step pId q : Z) : Z :=
  (pId + step * ((q - pId) / step))%Z.

(** The surrogate of a material, if any, is pointwise with [g]. *)
Definition pointwise_surrogate_opt {V} (s : option (SurrogateModel V))
    (g : option (V -> V -> nat -> V)) : Prop :=
  match s, g with
  | Some s, Some g => pointwise_surrogate s g
  | None, None => True
  | _, _ => False
  end.

(** ** MiniApp::evaluate_orig, the packed branch *)

(** The part of [evaluate_orig] that works on the dense buffers of one
    material: from "Let's start working with pointers" to the end of the
    partition loop.  What comes before it belongs to the tensor library and
    to [pack_ij], outside the embedded files, so the dense inputs [pDensity]
    and [pEnergy] and the predicate buffer [pMl_acceptable] are given; the
    code sets the latter to [false] everywhere ([dense_ml_acceptable =
    false]).  [unpack_ij], called at the end of every partition, copies the
    dense outputs to the sparse tensors, as the loop under [#else] that it
    replaces does, and is left out: the memory here is that of the dense
    output buffers.  The [std::cout] line and the blocks under
    [__ENABLE_DB__] and [__SURROGATE_DEBUG__] are left out as well, and
    [dataAllocator.allocate] is [allocate]. *)
Module EvaluateOrig.
Section WithApp.
Context {V : Type}.
Variable dev : Device V.
(** The constant [partitionSize], declared outside the embedded files. *)
Variable partitionSize : Z.
Variable alloc : Allocator V.
(** What a fresh [reIndex] buffer holds in the partition that starts at
    [pId]. *)
Variable fresh_index : Z -> nat -> Z.
Variable app : MiniApp.t V.
Variable mat_idx : Z.
(** [num_elems_for_mat * num_qpts] *)
Variable num_data : Z.
Variables pDensity pEnergy : list V.

(** STEP 1.  Its value is the predicate buffer afterwards. *)
Definition predicate_buffer (pMl_acceptable : list bool)
  : M (MiniApp.mem V) (list bool) :=
  (let* hdcache := lift (vector_at (MiniApp.hdcaches app) mat_idx) in
   match hdcache with
   | Some h =>
       MiniApp.emit (HDCache_evaluate_call num_data) ;;
       let* r := MiniApp.on_scratch pMl_acceptable
                   (write_n (Z.to_nat num_data)
                      (HDCache_evaluate h (Z.to_nat num_data)
                         [pDensity; pEnergy])) in
       ret (snd r)
   | None => ret pMl_acceptable
   end)%comp.

(** The body of the partition loop. *)
Definition partition (pMl_acceptable : list bool)
    (partitionElements pId : Z) : M (MiniApp.mem V) unit :=
  (let* rest := lift (Int.sub num_data pId) in
   let elements := Z.min partitionElements rest in
   MiniApp.emit (Partition pId elements) ;;
   let* reIndex :=
     lift (allocate (fresh_index pId) elements Int.sizeof_int) in
   let* packed_density :=
     lift (allocate (fresh alloc pId 0) elements Int.sizeof_double) in
   let* packed_energy :=
     lift (allocate (fresh alloc pId 1) elements Int.sizeof_double) in
   let* packed_pressure :=
     lift (allocate (fresh alloc pId 2) elements Int.sizeof_double) in
   let* packed_soundspeed2 :=
     lift (allocate (fresh alloc pId 3) elements Int.sizeof_double) in
   let* packed_bulkmod :=
     lift (allocate (fresh alloc pId 4) elements Int.sizeof_double) in
   let* packed_temperature :=
     lift (allocate (fresh alloc pId 5) elements Int.sizeof_double) in
   if (pId <? 0)%Z then undefined OutOfBounds
   else
     let off := Z.to_nat pId in
     let n := Z.to_nat (Int.to_size_t elements) in
     let sparse_inputs := [drop off pDensity; drop off pEnergy] in
     let packed_inputs := [packed_density; packed_energy] in
     let packed_outputs :=
       [packed_pressure; packed_soundspeed2; packed_bulkmod;
        packed_temperature] in
     let predicate := drop off pMl_acceptable in
     let* surrogate := lift (vector_at (MiniApp.surrogates app) mat_idx) in
     match surrogate with
     | Some s =>
         MiniApp.emit (Surrogate_Eval_call elements) ;;
         MiniApp.on_sparse_outputs off
           (write_columns n (Surrogate_Eval s n sparse_inputs))
     | None => ret tt
     end ;;
     let* packed :=
       MiniApp.on_scratch (reIndex, packed_inputs)
         (DataHandler.pack_indices dev predicate n sparse_inputs false) in
     let packedElements := fst packed in
     let reIndex' := fst (snd packed) in
     let packed_density' := default [] (snd (snd packed) !! 0) in
     let packed_energy' := default [] (snd (snd packed) !! 1) in
     let* eos := lift (vector_at (MiniApp.eoses app) mat_idx) in
     match eos with
     | None => undefined NullDereference
     | Some e =>
         MiniApp.emit (EOS_Eval_call packedElements) ;;
         let* physics :=
           MiniApp.on_scratch packed_outputs
             (write_columns packedElements
                (EOS_Eval e packedElements packed_energy'
                   packed_density')) in
         MiniApp.on_sparse_outputs off
           (DataHandler.unpack_indices dev reIndex' packedElements
              (snd physics) false)
     end)%comp.

(** [for (int pId = 0; pId < num_elems_for_mat * num_qpts;
    pId += partitionElements)], started at [pId]; [fuel] bounds the number
    of iterations. *)
Fixpoint partition_loop (fuel : nat) (pMl_acceptable : list bool)
    (partitionElements pId : Z) : M (MiniApp.mem V) unit :=
  if (pId <? num_data)%Z then
    match fuel with
    | O => out_of_fuel
    | S fuel' =>
        (partition pMl_acceptable partitionElements pId ;;
         let* pId' := lift (Int.add pId partitionElements) in
         partition_loop fuel' pMl_acceptable partitionElements pId')%comp
    end
  else ret tt.

Definition evaluate_orig_packed (pMl_acceptable : list bool) (fuel : nat)
  : M (MiniApp.mem V) unit :=
  (let* pMl_acceptable' := predicate_buffer pMl_acceptable in
   let* partitionElements :=
     lift (DataHandler.computePartitionSize Int.sizeof_double 2 4 true
             partitionSize) in
   partition_loop fuel pMl_acceptable' partitionElements 0)%comp.
End WithApp.
End EvaluateOrig.

(** * Properties *)

(** ** Loops *)

Lemma bind_ok {St A B} (m : M St A) (k : A -> M St B) s a s' :
  m s = (Ok a, s') -> bind m k s = k a s'.
Proof. intros H. unfold bind. by rewrite H. Qed.

(** Invariant rule: if every iteration succeeds and carries [I] from [i] to
    [S i], the loop succeeds and ends in a memory that satisfies [I]. *)
Lemma for_loop_inv {St} (I : nat -> St -> Prop) cnt i0
    (body : nat -> M St unit) s0 :
  I i0 s0 ->
  (forall i s, i0 <= i < i0 + cnt -> I i s ->
     exists s', body i s = (Ok tt, s') /\ I (S i) s') ->
  exists s', for_loop cnt i0 body s0 = (Ok tt, s') /\ I (i0 + cnt) s'.
Proof.
  revert i0 s0. induction cnt as [|cnt IH]; intros i0 s0 H0 Hstep.
  - exists s0. rewrite Nat.add_0_r. done.
  - destruct (Hstep i0 s0) as (s1 & Hb & H1); [lia | done |].
    destruct (IH (S i0) s1) as (s2 & Hl & H2); [done | |].
    { intros i s Hi. apply Hstep. lia. }
    exists s2. split.
    + cbn [for_loop]. by rewrite (bind_ok _ _ _ _ _ Hb).
    + by replace (i0 + S cnt) with (S i0 + cnt) by lia.
Qed.

(** Two loops whose bodies agree on the range agree. *)
Lemma for_loop_ext {St} cnt i0 (body1 body2 : nat -> M St unit) s :
  (forall i s, i0 <= i < i0 + cnt -> body1 i s = body2 i s) ->
  for_loop cnt i0 body1 s = for_loop cnt i0 body2 s.
Proof.
  revert i0 s. induction cnt as [|cnt IH]; intros i0 s Hext; [done |].
  cbn [for_loop]. unfold bind. rewrite Hext by lia.
  destruct (body2 i0 s) as [[[]| | |] s']; try done.
  apply IH. intros i s'' Hi. apply Hext. lia.
Qed.

(** ** Integer conversions *)

Lemma to_int_id z :
  (Int.INT_MIN <= z <= Int.INT_MAX)%Z -> Int.to_int z = z.
Proof.
  unfold Int.INT_MIN, Int.INT_MAX, Int.to_int. intros Hz.
  rewrite Z.mod_small; lia.
Qed.

Lemma to_size_t_id z : (0 <= z < 2 ^ 64)%Z -> Int.to_size_t z = z.
Proof. unfold Int.to_size_t, Int.SIZE_MOD. intros Hz. by apply Z.mod_small. Qed.

(** A count that fits [int] survives [int dims = v.size()] and the
    conversion back in [j < dims]. *)
Lemma dims_id m :
  (Z.of_nat m <= Int.INT_MAX)%Z ->
  Z.to_nat (Int.to_size_t (Int.to_int (Z.of_nat m))) = m.
Proof.
  unfold Int.INT_MAX. intros Hm.
  rewrite to_int_id by (unfold Int.INT_MIN, Int.INT_MAX; lia).
  rewrite to_size_t_id by lia. lia.
Qed.

Lemma length_source_indices n : length (source_indices n) = n.
Proof. unfold source_indices. by rewrite length_fmap, length_seq. Qed.

Lemma source_indices_lookup n i :
  i < n -> source_indices n !! i = Some (Int.to_int (Z.of_nat i)).
Proof.
  intros Hi. unfold source_indices.
  by rewrite list_lookup_fmap, lookup_seq_lt by done.
Qed.

Lemma store_source_index n i np (idx : list Z) :
  i < n -> np < length idx ->
  store np (Int.to_int (Z.of_nat i)) idx =
    (Ok tt, put_cell i np (source_indices n) idx).
Proof.
  intros Hi Hnp. unfold store, put_cell.
  by rewrite source_indices_lookup, decide_True by done.
Qed.

(** ** Selected indices *)

Section SelectionFacts.
Context {T : Type}.
Implicit Types (P : list bool) (dv : bool) (s d : list T).

Lemma picks_S dv P n :
  picks dv P (S n) =
  picks dv P n ++ (if decide (P !! n = Some dv) then [n] else []).
Proof.
  unfold picks. by rewrite seq_S, filter_app.
Qed.

Lemma rank_S dv P n :
  rank dv P (S n) =
  rank dv P n + (if decide (P !! n = Some dv) then 1 else 0).
Proof.
  unfold rank. rewrite picks_S, length_app. by destruct (decide _).
Qed.

Lemma rank_mono dv P i n : i <= n -> rank dv P i <= rank dv P n.
Proof.
  induction 1 as [|n _ IH]; [done |]. rewrite rank_S. lia.
Qed.

Lemma rank_le dv P n : rank dv P n <= n.
Proof.
  induction n as [|n IH]; [done |]. rewrite rank_S. destruct (decide _); lia.
Qed.

Lemma elem_of_picks dv P n k :
  k ∈ picks dv P n <-> k < n /\ P !! k = Some dv.
Proof.
  unfold picks. rewrite list_elem_of_filter, elem_of_seq. intuition lia.
Qed.

(** The selected indices are listed in ascending order. *)
Lemma picks_sorted dv P n : StronglySorted lt (picks dv P n).
Proof.
  induction n as [|n IH]; [constructor |].
  rewrite picks_S. destruct (decide _).
  - apply StronglySorted_app_2; [| done | repeat constructor].
    intros k1 k2 Hk1 Hk2. apply elem_of_picks in Hk1 as [? _].
    apply list_elem_of_singleton in Hk2 as ->. done.
  - by rewrite app_nil_r.
Qed.

Lemma picks_lookup_rank dv P n k :
  k < n -> P !! k = Some dv -> picks dv P n !! rank dv P k = Some k.
Proof.
  intros Hk HP. induction n as [|n IH]; [lia |].
  rewrite picks_S. destruct (decide (k = n)) as [->|].
  - rewrite decide_True by done. by rewrite list_lookup_middle.
  - apply lookup_app_l_Some, IH. lia.
Qed.

Lemma gather_lookup s idx r :
  Forall (fun k => k < length s) idx ->
  gather s idx !! r = idx !! r ≫= (s !!.).
Proof.
  intros Hall. revert r. induction Hall as [|k idx Hk _ IH]; intros r.
  - done.
  - apply lookup_lt_is_Some in Hk as [x Hx].
    unfold gather in *. cbn. rewrite Hx. cbn.
    destruct r as [|r]; cbn; [done | apply IH].
Qed.

Lemma length_gather s idx :
  Forall (fun k => k < length s) idx -> length (gather s idx) = length idx.
Proof.
  induction 1 as [|k idx Hk _ IH]; [done |].
  apply lookup_lt_is_Some in Hk as [x Hx].
  unfold gather in *. cbn. rewrite Hx. cbn. by rewrite IH.
Qed.

Lemma picks_bounded dv P n s :
  n <= length s -> Forall (fun k => k < length s) (picks dv P n).
Proof.
  intros Hn. apply Forall_forall. intros k Hk%elem_of_picks. lia.
Qed.

Lemma length_gather_picks dv P n s :
  n <= length s -> length (gather s (picks dv P n)) = rank dv P n.
Proof. intros. by rewrite length_gather by by apply picks_bounded. Qed.

Lemma length_packed dv P n s d :
  n <= length s -> rank dv P n <= length d ->
  length (packed dv P n s d) = length d.
Proof.
  intros. unfold packed.
  rewrite length_app, length_gather_picks, length_drop by done. lia.
Qed.

(** One step of the pack loop at a selected index. *)
Lemma packed_step dv P i s d :
  P !! i = Some dv -> i < length s -> rank dv P i < length d ->
  put_cell i (rank dv P i) s (packed dv P i s d) = packed dv P (S i) s d.
Proof.
  intros HP Hs Hd.
  apply lookup_lt_is_Some in Hs as Hx. destruct Hx as [x Hx].
  apply lookup_lt_is_Some in Hd as Hy. destruct Hy as [y Hy].
  unfold put_cell, packed. rewrite Hx, rank_S, picks_S.
  rewrite !decide_True by done.
  unfold gather at 2. rewrite omap_app. fold (gather s (picks dv P i)).
  cbn. rewrite Hx. cbn.
  rewrite insert_app_r_alt by (rewrite length_gather_picks; lia).
  rewrite length_gather_picks, Nat.sub_diag by lia.
  rewrite (drop_S _ _ _ Hy). cbn.
  rewrite <- app_assoc. cbn. do 3 f_equal. lia.
Qed.

Lemma packed_skip dv P i s d :
  P !! i ≠ Some dv -> packed dv P (S i) s d = packed dv P i s d.
Proof.
  intros HP. unfold packed.
  by rewrite rank_S, picks_S, !decide_False, app_nil_r, Nat.add_0_r by done.
Qed.

Lemma length_put_cell a b s d : length (put_cell a b s d) = length d.
Proof. unfold put_cell. destruct (s !! a); [apply length_insert | done]. Qed.

Lemma length_scatter_from d r idx s :
  length (scatter_from d r idx s) = length s.
Proof.
  revert r s. induction idx as [|k idx IH]; intros r s; [done |].
  cbn. by rewrite IH, length_put_cell.
Qed.

Lemma scatter_from_app d r idx1 idx2 s :
  scatter_from d r (idx1 ++ idx2) s =
  scatter_from d (r + length idx1) idx2 (scatter_from d r idx1 s).
Proof.
  revert r s. induction idx1 as [|k idx1 IH]; intros r s; cbn.
  - by rewrite Nat.add_0_r.
  - rewrite IH. f_equal. lia.
Qed.

Lemma length_unpacked dv P n d s : length (unpacked dv P n d s) = length s.
Proof. apply length_scatter_from. Qed.

(** One step of the unpack loop at a selected index. *)
Lemma unpacked_step dv P i d s :
  P !! i = Some dv ->
  put_cell (rank dv P i) i d (unpacked dv P i d s) = unpacked dv P (S i) d s.
Proof.
  intros HP. unfold unpacked.
  by rewrite picks_S, decide_True, scatter_from_app by done.
Qed.

Lemma unpacked_skip dv P i d s :
  P !! i ≠ Some dv -> unpacked dv P (S i) d s = unpacked dv P i d s.
Proof.
  intros HP. unfold unpacked.
  by rewrite picks_S, decide_False, app_nil_r by done.
Qed.

Lemma rank_lt dv P k n :
  k < n -> P !! k = Some dv -> rank dv P k < rank dv P n.
Proof.
  intros Hk HP. pose proof (rank_mono dv P (S k) n ltac:(lia)) as Hr.
  rewrite rank_S, decide_True in Hr by done. lia.
Qed.

(** Cell [k] of an unpacked buffer comes from the dense buffer when [k] is
    selected and is the old cell otherwise. *)
Lemma unpacked_lookup dv P n d s k :
  n <= length s -> rank dv P n <= length d ->
  unpacked dv P n d s !! k =
    if decide (k < n /\ P !! k = Some dv) then d !! rank dv P k else s !! k.
Proof.
  intros Hs. induction n as [|n IH]; intros Hd.
  - rewrite decide_False by lia. done.
  - pose proof (rank_mono dv P n (S n) ltac:(lia)).
    destruct (decide (P !! n = Some dv)) as [HP|HP].
    + rewrite <- unpacked_step by done.
      pose proof (rank_lt dv P n (S n) ltac:(lia) HP) as Hr.
      destruct (lookup_lt_is_Some_2 d (rank dv P n)) as [x Hx]; [lia |].
      unfold put_cell. rewrite Hx.
      destruct (decide (k = n)) as [->|Hne].
      * rewrite list_lookup_insert_eq by (rewrite length_unpacked; lia).
        by rewrite decide_True by (split; [lia | done]).
      * rewrite list_lookup_insert_ne, IH by lia.
        apply decide_ext. intuition lia.
    + rewrite unpacked_skip, IH by (done || lia).
      apply decide_ext. split; [intuition lia |].
      intros [Hk Hsel]. split; [| done].
      destruct (decide (k = n)) as [->|]; [done | lia].
Qed.

(** The dense position [rank k] holds the cell of the selected index [k]. *)
Lemma packed_lookup_rank dv P n s d k :
  n <= length s -> k < n -> P !! k = Some dv ->
  packed dv P n s d !! rank dv P k = s !! k.
Proof.
  intros Hs Hk HP. unfold packed.
  rewrite lookup_app_l
    by (rewrite length_gather_picks by done; by apply rank_lt).
  rewrite gather_lookup by by apply picks_bounded.
  by rewrite (picks_lookup_rank dv P n k).
Qed.

Lemma packed_lookup_picks dv P n s d r k :
  n <= length s -> picks dv P n !! r = Some k ->
  packed dv P n s d !! r = s !! k.
Proof.
  intros Hs Hr. unfold packed.
  rewrite lookup_app_l.
  - rewrite gather_lookup by by apply picks_bounded. by rewrite Hr.
  - rewrite length_gather_picks by done. by apply lookup_lt_Some in Hr.
Qed.

(** The cells from [rank n] on are not written. *)
Lemma packed_lookup_ge dv P n s d r :
  n <= length s -> rank dv P n <= r ->
  packed dv P n s d !! r = d !! r.
Proof.
  intros Hs Hr. unfold packed.
  rewrite lookup_app_r by (rewrite length_gather_picks by done; lia).
  rewrite length_gather_picks, lookup_drop by done. f_equal. lia.
Qed.
End SelectionFacts.

(** ** Vectors of buffers *)

Lemma zip_with_id_r {A B} (f : A -> B -> B) (l : list A) (k : list B) :
  length l = length k ->
  (forall j x y, l !! j = Some x -> k !! j = Some y -> f x y = y) ->
  zip_with f l k = k.
Proof.
  intros Hlen Hf. apply list_eq. intros j. rewrite lookup_zip_with.
  destruct (l !! j) as [x|] eqn:Hx, (k !! j) as [y|] eqn:Hy; cbn; try done.
  - f_equal. eauto.
  - apply lookup_ge_None in Hx. apply lookup_lt_Some in Hy. lia.
Qed.

Lemma zip_with_zip_with_r {A B} (g f h : A -> B -> B) (l : list A) (k : list B) :
  (forall j x y, l !! j = Some x -> k !! j = Some y -> g x (f x y) = h x y) ->
  zip_with g l (zip_with f l k) = zip_with h l k.
Proof.
  intros Hf. apply list_eq. intros j. rewrite !lookup_zip_with.
  destruct (l !! j) as [x|] eqn:Hx, (k !! j) as [y|] eqn:Hy; cbn; try done.
  f_equal. eauto.
Qed.

Lemma zip_with_ext_lookup {A B C} (f h : A -> B -> C) (l : list A) (k : list B) :
  (forall j x y, l !! j = Some x -> k !! j = Some y -> f x y = h x y) ->
  zip_with f l k = zip_with h l k.
Proof.
  intros Hf. apply list_eq. intros j. rewrite !lookup_zip_with.
  destruct (l !! j) as [x|] eqn:Hx, (k !! j) as [y|] eqn:Hy; cbn; try done.
  f_equal. eauto.
Qed.

Lemma Forall_zip_with_r {A B} (Q : B -> Prop) (f : A -> B -> B)
    (l : list A) (k : list B) :
  (forall j x y, l !! j = Some x -> k !! j = Some y -> Q (f x y)) ->
  Forall Q (zip_with f l k).
Proof.
  intros Hf. apply Forall_lookup. intros j z Hz.
  apply lookup_zip_with_Some in Hz as (x & y & -> & Hx & Hy). eauto.
Qed.

(** The inner loop copies one cell in every pair of buffers. *)
Lemma copy_column_spec {T} (src dst : list (list T)) a b :
  length src = length dst ->
  Forall (fun s => a < length s) src ->
  Forall (fun d => b < length d) dst ->
  copy_column src a b (length src) dst =
    (Ok tt, zip_with (put_cell a b) src dst).
Proof.
  intros Hlen Hsrc Hdst. unfold copy_column.
  edestruct (for_loop_inv
    (fun j cur => cur = zip_with (put_cell a b) (take j src) (take j dst)
                        ++ drop j dst)) as (cur & -> & Hcur).
  - done.
  - intros j cur Hj ->.
    destruct (lookup_lt_is_Some_2 src j) as [s Hs]; [lia |].
    destruct (lookup_lt_is_Some_2 dst j) as [d Hd]; [lia |].
    pose proof (Forall_lookup_1 _ _ _ _ Hsrc Hs) as Ha.
    pose proof (Forall_lookup_1 _ _ _ _ Hdst Hd) as Hb.
    apply lookup_lt_is_Some in Ha as [x Hx].
    assert (Hz : length (zip_with (put_cell a b) (take j src) (take j dst)) = j).
    { rewrite length_zip_with, !length_take. lia. }
    eexists. split.
    + unfold bind, lift, load2, load, store2. rewrite Hs, Hx.
      rewrite lookup_app_r, Hz, Nat.sub_diag, lookup_drop, Nat.add_0_r, Hd by lia.
      by rewrite decide_True by done.
    + rewrite (take_S_r _ _ _ Hs), (take_S_r _ _ _ Hd).
      rewrite zip_with_app by (rewrite !length_take; lia).
      rewrite insert_app_r_alt, Hz, Nat.sub_diag by lia.
      rewrite (drop_S _ _ _ Hd). cbn. unfold put_cell at 3. rewrite Hx.
      by rewrite <- app_assoc.
  - cbn in Hcur. rewrite Hcur.
    rewrite firstn_all, Hlen, firstn_all, drop_all, app_nil_r. done.
Qed.

(** ** The host loops of [pack] and [unpack] *)

Section HostLoops.
Context {V : Type}.
Variable dev : Device V.
Hypothesis Hhost : isDeviceExecution dev = false.
Implicit Types (P : list bool) (dv : bool) (sparse dense : list (list V)).

Lemma pack_host P n sparse dense dv :
  length sparse = length dense ->
  n <= length P ->
  Forall (fun s => n <= length s) sparse ->
  Forall (fun d => rank dv P n <= length d) dense ->
  DataHandler.pack dev P n sparse dv dense =
    (Ok (rank dv P n), zip_with (packed dv P n) sparse dense).
Proof using Hhost.
  intros Hlen HP Hs Hd. unfold DataHandler.pack.
  unfold bind at 1, get.
  rewrite (proj2 (Nat.eqb_eq _ _) Hlen), Hhost. cbn [negb].
  unfold with_local.
  edestruct (for_loop_inv
    (fun i (st : nat * list (list V)) =>
       st = (rank dv P i, zip_with (packed dv P i) sparse dense)))
    as (st & -> & Hst).
  - f_equal. symmetry. apply zip_with_id_r; [done |].
    intros j x y _ _. unfold packed. cbn. by rewrite drop_0.
  - intros i st Hi ->.
    destruct (lookup_lt_is_Some_2 P i) as [p Hp]; [lia |].
    unfold bind at 1, lift, load. rewrite Hp.
    destruct (Bool.eqb p dv) eqn:Hpd.
    + apply Bool.eqb_prop in Hpd as ->.
      pose proof (rank_mono dv P (S i) n ltac:(lia)) as Hr.
      rewrite rank_S, decide_True in Hr by done.
      unfold bind, get_local, on_mem, zoom, set_local. cbn [fst snd].
      rewrite copy_column_spec.
      * eexists. split; [reflexivity |]. cbn [fst snd].
        rewrite rank_S, decide_True, Nat.add_1_r by done. f_equal.
        apply zip_with_zip_with_r. intros j x y Hx Hy.
        pose proof (Forall_lookup_1 _ _ _ _ Hs Hx).
        pose proof (Forall_lookup_1 _ _ _ _ Hd Hy).
        apply packed_step; cbn in *; [done | lia | lia].
      * rewrite length_zip_with. lia.
      * eapply Forall_impl; [exact Hs |]. cbn. lia.
      * apply Forall_zip_with_r. intros j x y Hx Hy.
        pose proof (Forall_lookup_1 _ _ _ _ Hs Hx).
        pose proof (Forall_lookup_1 _ _ _ _ Hd Hy).
        rewrite length_packed; cbn in *; lia.
    + eexists. split; [reflexivity |].
      apply Bool.eqb_false_iff in Hpd.
      rewrite rank_S, decide_False, Nat.add_0_r by congruence. f_equal.
      apply zip_with_ext_lookup. intros j x y _ _.
      symmetry. apply packed_skip. congruence.
  - by rewrite Hst.
Qed.

Lemma unpack_host P n dense sparse dv :
  length sparse = length dense ->
  n <= length P ->
  Forall (fun s => n <= length s) sparse ->
  Forall (fun d => rank dv P n <= length d) dense ->
  DataHandler.unpack dev P n dense dv sparse =
    (Ok tt, zip_with (unpacked dv P n) dense sparse).
Proof using Hhost.
  intros Hlen HP Hs Hd. unfold DataHandler.unpack.
  unfold bind at 1, get.
  rewrite (proj2 (Nat.eqb_eq _ _) Hlen), Hhost. cbn [negb].
  unfold bind at 1, with_local.
  edestruct (for_loop_inv
    (fun i (st : nat * list (list V)) =>
       st = (rank dv P i, zip_with (unpacked dv P i) dense sparse)))
    as (st & -> & Hst).
  - f_equal. symmetry. by apply zip_with_id_r.
  - intros i st Hi ->.
    destruct (lookup_lt_is_Some_2 P i) as [p Hp]; [lia |].
    unfold bind at 1, lift, load. rewrite Hp.
    destruct (Bool.eqb p dv) eqn:Hpd.
    + apply Bool.eqb_prop in Hpd as ->.
      pose proof (rank_lt dv P i n ltac:(lia) Hp) as Hr.
      unfold bind, get_local, on_mem, zoom, set_local. cbn [fst snd].
      rewrite Hlen, copy_column_spec.
      * eexists. split; [reflexivity |]. cbn [fst snd].
        rewrite rank_S, decide_True, Nat.add_1_r by done. f_equal.
        apply zip_with_zip_with_r. intros j x y Hx Hy.
        by apply unpacked_step.
      * rewrite length_zip_with. lia.
      * eapply Forall_impl; [exact Hd |]. cbn. lia.
      * apply Forall_zip_with_r. intros j x y Hx Hy.
        pose proof (Forall_lookup_1 _ _ _ _ Hs Hy).
        rewrite length_unpacked. cbn in *. lia.
    + eexists. split; [reflexivity |].
      apply Bool.eqb_false_iff in Hpd.
      rewrite rank_S, decide_False, Nat.add_0_r by congruence. f_equal.
      apply zip_with_ext_lookup. intros j x y _ _.
      symmetry. apply unpacked_skip. congruence.
  - by rewrite Hst.
Qed.

Lemma pack_indices_host P n sparse dense (idx : list Z) dv :
  length sparse = length dense ->
  (Z.of_nat (length sparse) <= Int.INT_MAX)%Z ->
  n <= length P ->
  Forall (fun s => n <= length s) sparse ->
  Forall (fun d => rank dv P n <= length d) dense ->
  rank dv P n <= length idx ->
  DataHandler.pack_indices dev P n sparse dv (idx, dense) =
    (Ok (rank dv P n),
     (packed dv P n (source_indices n) idx,
      zip_with (packed dv P n) sparse dense)).
Proof using Hhost.
  intros Hlen Hdims HP Hs Hd Hidx. unfold DataHandler.pack_indices.
  unfold bind at 1, get. cbn [fst snd].
  rewrite (proj2 (Nat.eqb_eq _ _) Hlen), Hhost, dims_id by done.
  cbn [negb]. unfold with_local.
  edestruct (for_loop_inv
    (fun i (st : nat * (list Z * list (list V))) =>
       st = (rank dv P i,
             (packed dv P i (source_indices n) idx,
              zip_with (packed dv P i) sparse dense))))
    as (st & -> & Hst).
  - do 2 f_equal. symmetry. apply zip_with_id_r; [done |].
    intros j x y _ _. unfold packed. cbn. by rewrite drop_0.
  - intros i st Hi ->.
    destruct (lookup_lt_is_Some_2 P i) as [p Hp]; [lia |].
    unfold bind at 1, lift, load. rewrite Hp.
    destruct (Bool.eqb p dv) eqn:Hpd.
    + apply Bool.eqb_prop in Hpd as ->.
      pose proof (rank_lt dv P i n ltac:(lia) Hp) as Hr.
      unfold bind, get_local, on_mem, on_snd, on_fst, zoom, set_local.
      cbn [fst snd].
      rewrite copy_column_spec.
      * cbn [fst snd].
        rewrite (store_source_index n);
          [| lia
           | rewrite length_packed; rewrite ?length_source_indices; lia].
        eexists. split; [reflexivity |]. cbn [fst snd].
        rewrite rank_S, decide_True, Nat.add_1_r by done. do 2 f_equal.
        -- apply packed_step; rewrite ?length_source_indices; [done | lia | lia].
        -- apply zip_with_zip_with_r. intros j x y Hx Hy.
           pose proof (Forall_lookup_1 _ _ _ _ Hs Hx).
           pose proof (Forall_lookup_1 _ _ _ _ Hd Hy).
           apply packed_step; cbn in *; [done | lia | lia].
      * rewrite length_zip_with. lia.
      * eapply Forall_impl; [exact Hs |]. cbn. lia.
      * apply Forall_zip_with_r. intros j x y Hx Hy.
        pose proof (Forall_lookup_1 _ _ _ _ Hs Hx).
        pose proof (Forall_lookup_1 _ _ _ _ Hd Hy).
        rewrite length_packed; cbn in *; lia.
    + eexists. split; [reflexivity |].
      apply Bool.eqb_false_iff in Hpd.
      rewrite rank_S, decide_False, Nat.add_0_r by congruence.
      do 2 f_equal.
      * symmetry. apply packed_skip. congruence.
      * apply zip_with_ext_lookup. intros j x y _ _.
        symmetry. apply packed_skip. congruence.
  - by rewrite Hst.
Qed.

Lemma unpack_indices_host (sidx : list Z) nPacked dense sparse dv :
  length sparse = length dense ->
  (Z.of_nat (length sparse) <= Int.INT_MAX)%Z ->
  nPacked <= length sidx ->
  Forall (fun d => nPacked <= length d) dense ->
  Forall (fun k => (0 <= k)%Z /\
                   Forall (fun s => Z.to_nat k < length s) sparse)
         (take nPacked sidx) ->
  DataHandler.unpack_indices dev sidx nPacked dense dv sparse =
    (Ok tt,
     zip_with (fun d s =>
                 scatter_from d 0 (Z.to_nat <$> take nPacked sidx) s)
       dense sparse).
Proof using Hhost.
  intros Hlen Hdims Hn Hd Hk. unfold DataHandler.unpack_indices.
  unfold bind at 1, get.
  rewrite (proj2 (Nat.eqb_eq _ _) Hlen), Hhost, dims_id by done.
  cbn [negb].
  edestruct (for_loop_inv
    (fun i (cur : list (list V)) =>
       cur = zip_with (fun d s =>
               scatter_from d 0 (Z.to_nat <$> take i sidx) s) dense sparse))
    as (st & -> & Hst).
  - symmetry. by apply zip_with_id_r.
  - intros i cur Hi ->.
    destruct (lookup_lt_is_Some_2 sidx i) as [k Hki]; [lia |].
    assert (Hin : take nPacked sidx !! i = Some k)
      by (rewrite lookup_take_lt by lia; done).
    destruct (Forall_lookup_1 _ _ _ _ Hk Hin) as [Hk0 Hks].
    rewrite (for_loop_ext _ _ _
      (fun j => bind (lift (load2 dense j i))
                  (fun x => store2 j (Z.to_nat k) x))).
    2:{ intros j s _. unfold bind, lift.
        destruct (load2 dense j i); try done.
        unfold load. rewrite Hki.
        by rewrite (proj2 (Z.ltb_ge _ _) Hk0). }
    rewrite Hlen. fold (copy_column dense i (Z.to_nat k) (length dense)).
    rewrite copy_column_spec.
    + eexists. split; [reflexivity |].
      apply zip_with_zip_with_r. intros j x y _ _.
      rewrite (take_S_r _ _ _ Hki), fmap_app, scatter_from_app.
      rewrite length_fmap, length_take. cbn.
      f_equal. lia.
    + rewrite length_zip_with. lia.
    + eapply Forall_impl; [exact Hd |]. cbn. lia.
    + apply Forall_zip_with_r. intros j x y Hx Hy.
      pose proof (Forall_lookup_1 _ _ _ _ Hks Hy).
      by rewrite length_scatter_from.
  - by rewrite Hst.
Qed.
End HostLoops.

(** In either execution mode [pack] returns when its buffers are large
    enough. *)
Lemma pack_returns {V} (dev : Device V) (P : list bool) n
    (sparse dense : list (list V)) dv :
  length sparse = length dense ->
  n <= length P ->
  Forall (fun s => n <= length s) sparse ->
  Forall (fun d => rank dv P n <= length d) dense ->
  exists k dense', DataHandler.pack dev P n sparse dv dense = (Ok k, dense').
Proof.
  intros Hlen HP Hs Hd. destruct (isDeviceExecution dev) eqn:Hmode.
  - unfold DataHandler.pack, bind at 1, get.
    rewrite (proj2 (Nat.eqb_eq _ _) Hlen), Hmode. cbn [negb].
    destruct (Device_pack _ _ _ _ _ _ _) as [k dense']. by exists k, dense'.
  - eexists _, _. by apply pack_host.
Qed.

Section SelectionFacts2.
Context {T : Type}.
Implicit Types (P : list bool) (dv : bool) (s d : list T).

Lemma take_packed dv P n s d :
  n <= length s ->
  take (rank dv P n) (packed dv P n s d) = gather s (picks dv P n).
Proof.
  intros Hs. unfold packed.
  by rewrite take_app_length' by by rewrite length_gather_picks.
Qed.

(** The number of selected indices is the number of cells of the
    predicate, among the first [n], that hold [denseVal]. *)
Lemma rank_count dv P n :
  n <= length P ->
  rank dv P n = length (filter (fun b => b = dv) (take n P)).
Proof.
  induction n as [|n IH]; intros Hn; [done |].
  destruct (lookup_lt_is_Some_2 P n) as [p Hp]; [lia |].
  rewrite rank_S, (take_S_r _ _ _ Hp), filter_app, length_app, IH by lia.
  f_equal. rewrite filter_cons, filter_nil, Hp.
  destruct (decide (p = dv)) as [->|Hne].
  - by rewrite decide_True.
  - rewrite decide_False; [done | congruence].
Qed.
End SelectionFacts2.

Lemma gather_source_indices n (idx : list nat) :
  Forall (fun k => k < n) idx ->
  gather (source_indices n) idx = (fun k => Int.to_int (Z.of_nat k)) <$> idx.
Proof.
  induction 1 as [|k idx Hk _ IH]; [done |].
  unfold gather in *. cbn. rewrite source_indices_lookup by done. cbn.
  by rewrite IH.
Qed.

Lemma picks_below dv P n : Forall (fun k => k < n) (picks dv P n).
Proof. apply Forall_forall. intros k Hk%elem_of_picks. lia. Qed.

(** The index table that [pack] leaves behind, read back as [size_t]. *)
Lemma take_packed_source_indices dv P n (idx : list Z) :
  (Z.of_nat n <= Int.INT_MAX + 1)%Z ->
  take (rank dv P n) (packed dv P n (source_indices n) idx) =
    Z.of_nat <$> picks dv P n.
Proof.
  intros Hn. rewrite take_packed by by rewrite length_source_indices.
  rewrite gather_source_indices by apply picks_below.
  apply Forall_fmap_ext. eapply Forall_impl; [apply picks_below |].
  intros k Hk. cbn in *. apply to_int_id.
  unfold Int.INT_MIN, Int.INT_MAX in *. lia.
Qed.

Section NoThrow.
Context {St : Type}.

Lemma no_throw_ret {A} (a : A) : no_throw (St:=St) (ret a).
Proof. done. Qed.

Lemma no_throw_lift {A} (r : res A) :
  is_throw r = false -> no_throw (St:=St) (lift r).
Proof. intros Hr s. exact Hr. Qed.

Lemma no_throw_bind {A B} (m : M St A) (k : A -> M St B) :
  no_throw m -> (forall a, no_throw (k a)) -> no_throw (bind m k).
Proof.
  intros Hm Hk s. unfold bind. specialize (Hm s).
  destruct (m s) as [[a| | |] s']; try done. apply Hk.
Qed.

Lemma no_throw_for_loop cnt i (body : nat -> M St unit) :
  (forall j, no_throw (body j)) -> no_throw (for_loop cnt i body).
Proof.
  intros Hb. revert i. induction cnt as [|cnt IH]; intros i; [done |].
  cbn [for_loop]. apply no_throw_bind; [apply Hb | intros _; apply IH].
Qed.

Lemma no_throw_zoom {T A} (proj : St -> T) (upd : St -> T -> St)
    (m : M T A) :
  no_throw m -> no_throw (zoom proj upd m).
Proof.
  intros Hm s. unfold zoom. specialize (Hm (proj s)).
  by destruct (m (proj s)).
Qed.

Lemma no_throw_with_local {L} (l0 : L) (m : M (L * St) unit) :
  no_throw m -> no_throw (with_local l0 m).
Proof.
  intros Hm s. unfold with_local. specialize (Hm (l0, s)).
  by destruct (m (l0, s)) as [[[]| | |] []].
Qed.
End NoThrow.

Lemma is_throw_load {T} (p : list T) i : is_throw (load p i) = false.
Proof. unfold load. by destruct (p !! i). Qed.

Lemma is_throw_load2 {T} (v : list (list T)) j i :
  is_throw (load2 v j i) = false.
Proof. unfold load2. destruct (v !! j); [apply is_throw_load | done]. Qed.

Lemma no_throw_store {T} i (x : T) : no_throw (store i x).
Proof. intros p. unfold store. by destruct (decide _). Qed.

Lemma no_throw_store2 {T} j i (x : T) : no_throw (store2 j i x).
Proof.
  intros v. unfold store2. destruct (v !! j); [| done]. by destruct (decide _).
Qed.

Lemma no_throw_copy_column {T} (src : list (list T)) a b dims :
  no_throw (copy_column src a b dims).
Proof.
  apply no_throw_for_loop. intros j. apply no_throw_bind.
  - apply no_throw_lift, is_throw_load2.
  - intros x. apply no_throw_store2.
Qed.

Section ShapeCheck.
Context {V : Type}.
Variable dev : Device V.
Implicit Types (P : list bool) (dv : bool) (sparse dense : list (list V)).

Lemma pack_no_throw P n sparse dense dv :
  length sparse = length dense ->
  is_throw (fst (DataHandler.pack dev P n sparse dv dense)) = false.
Proof.
  intros Hlen. unfold DataHandler.pack, bind at 1, get.
  rewrite (proj2 (Nat.eqb_eq _ _) Hlen). cbn [negb].
  destruct (isDeviceExecution dev); cbn [negb].
  - by destruct (Device_pack _ _ _ _ _ _ _).
  - apply no_throw_with_local, no_throw_for_loop. intros i.
    apply no_throw_bind; [apply no_throw_lift, is_throw_load |].
    intros p. destruct (Bool.eqb p dv); [| done].
    apply no_throw_bind; [done |]. intros np.
    apply no_throw_bind; [| done].
    apply no_throw_zoom, no_throw_copy_column.
Qed.

Lemma unpack_no_throw P n sparse dense dv :
  length sparse = length dense ->
  is_throw (fst (DataHandler.unpack dev P n dense dv sparse)) = false.
Proof.
  intros Hlen. unfold DataHandler.unpack, bind at 1, get.
  rewrite (proj2 (Nat.eqb_eq _ _) Hlen). cbn [negb].
  destruct (isDeviceExecution dev); cbn [negb].
  - by destruct (Device_unpack _ _ _ _ _ _ _).
  - apply no_throw_bind; [| done].
    apply no_throw_with_local, no_throw_for_loop. intros i.
    apply no_throw_bind; [apply no_throw_lift, is_throw_load |].
    intros p. destruct (Bool.eqb p dv); [| done].
    apply no_throw_bind; [done |]. intros np.
    apply no_throw_bind; [| done].
    apply no_throw_zoom, no_throw_copy_column.
Qed.

Lemma pack_indices_no_throw P n sparse dense (idx : list Z) dv :
  length sparse = length dense ->
  is_throw (fst (DataHandler.pack_indices dev P n sparse dv (idx, dense)))
    = false.
Proof.
  intros Hlen. unfold DataHandler.pack_indices, bind at 1, get.
  cbn [fst snd]. rewrite (proj2 (Nat.eqb_eq _ _) Hlen). cbn [negb].
  destruct (isDeviceExecution dev); cbn [negb].
  - by destruct (Device_pack_indices _ _ _ _ _ _ _ _).
  - apply no_throw_with_local, no_throw_for_loop. intros i.
    apply no_throw_bind; [apply no_throw_lift, is_throw_load |].
    intros p. destruct (Bool.eqb p dv); [| done].
    apply no_throw_bind; [done |]. intros np.
    apply no_throw_bind.
    { apply no_throw_zoom, no_throw_zoom, no_throw_copy_column. }
    intros _. apply no_throw_bind; [| done].
    apply no_throw_zoom, no_throw_zoom, no_throw_store.
Qed.

Lemma unpack_indices_no_throw (idx : list Z) nPacked sparse dense dv :
  length sparse = length dense ->
  is_throw (fst (DataHandler.unpack_indices dev idx nPacked dense dv sparse))
    = false.
Proof.
  intros Hlen. unfold DataHandler.unpack_indices, bind at 1, get.
  rewrite (proj2 (Nat.eqb_eq _ _) Hlen). cbn [negb].
  destruct (isDeviceExecution dev); cbn [negb]; [done |].
  apply no_throw_for_loop. intros i. apply no_throw_for_loop. intros j.
  apply no_throw_bind; [apply no_throw_lift, is_throw_load2 |].
  intros x. apply no_throw_bind; [apply no_throw_lift, is_throw_load |].
  intros k. destruct (k <? 0)%Z; [done | apply no_throw_store2].
Qed.
End ShapeCheck.

Section DataHandlerProperties.
Context {V : Type}.
Variable dev : Device V.
Implicit Types (P : list bool) (dv : bool) (X Y D : list (list V)).

(** C4. Pack/unpack round trip.  On the host, for every predicate [P],
    every length [n], every [denseVal] and all vectors [X] (sparse source),
    [Y] (dense) and [X'] (sparse destination) with the same number of
    buffers, each large enough for the [n] samples, [pack] followed by
    [unpack] with the same predicate and [denseVal] succeeds and leaves in
    the destination [X''[j][i] = X[j][i]] at every [i < n] with
    [P[i] = denseVal] and the old cell [X'[j][i]] everywhere else. *)
Theorem pack_unpack_round_trip P n X Y X' dv :
  isDeviceExecution dev = false ->
  length X = length Y ->
  length X' = length Y ->
  n <= length P ->
  Forall (fun x => n <= length x) X ->
  Forall (fun x' => n <= length x') X' ->
  Forall (fun y => rank dv P n <= length y) Y ->
  exists Y' X'',
    DataHandler.pack dev P n X dv Y = (Ok (rank dv P n), Y') /\
    DataHandler.unpack dev P n Y' dv X' = (Ok tt, X'') /\
    length X'' = length X' /\
    forall j x x' x'',
      X !! j = Some x -> X' !! j = Some x' -> X'' !! j = Some x'' ->
      length x'' = length x' /\
      forall i,
        x'' !! i =
          if decide (i < n /\ P !! i = Some dv) then x !! i else x' !! i.
Proof.
  intros Hhost HXY HX'Y HP HX HX' HY.
  assert (HY' : Forall (fun y => rank dv P n <= length y)
                  (zip_with (packed dv P n) X Y)).
  { apply Forall_zip_with_r. intros j x y Hx Hy.
    pose proof (Forall_lookup_1 _ _ _ _ HX Hx).
    pose proof (Forall_lookup_1 _ _ _ _ HY Hy).
    rewrite length_packed; cbn in *; lia. }
  do 2 eexists. split; [by apply pack_host |].
  split; [apply unpack_host; try done; rewrite length_zip_with; lia |].
  split; [rewrite !length_zip_with; lia |].
  intros j x x' x'' Hx Hx' Hx''.
  apply lookup_zip_with_Some in Hx'' as (y' & x0 & -> & Hy' & Hx0).
  apply lookup_zip_with_Some in Hy' as (x1 & y & -> & Hx1 & Hy).
  simplify_eq.
  pose proof (Forall_lookup_1 _ _ _ _ HX Hx) as Hnx.
  pose proof (Forall_lookup_1 _ _ _ _ HX' Hx') as Hnx'.
  pose proof (Forall_lookup_1 _ _ _ _ HY Hy) as Hny. cbn in *.
  split; [apply length_unpacked |]. intros i.
  rewrite unpacked_lookup by (rewrite ?length_packed; lia).
  destruct (decide _) as [[Hi HPi]|]; [| done].
  by apply packed_lookup_rank.
Qed.

(** C6. On the host, [pack] returns the number of indices [i < n] with
    [P[i] = denseVal] (with the default [denseVal = false], the number of
    [false] cells among the first [n]), and cell [r] of every dense buffer
    holds the source cell of the [r]-th such index in ascending order. *)
Theorem pack_count_and_order P n X Y dv :
  isDeviceExecution dev = false ->
  length X = length Y ->
  n <= length P ->
  Forall (fun x => n <= length x) X ->
  Forall (fun y => rank dv P n <= length y) Y ->
  exists Y',
    DataHandler.pack dev P n X dv Y =
      (Ok (length (filter (fun i => P !! i = Some dv) (seq 0 n))), Y') /\
    length (filter (fun i => P !! i = Some dv) (seq 0 n)) =
      length (filter (fun b => b = dv) (take n P)) /\
    StronglySorted lt (picks dv P n) /\
    length Y' = length Y /\
    forall j x y y',
      X !! j = Some x -> Y !! j = Some y -> Y' !! j = Some y' ->
      length y' = length y /\
      (forall r i, picks dv P n !! r = Some i -> y' !! r = x !! i) /\
      (forall r, rank dv P n <= r -> y' !! r = y !! r).
Proof.
  intros Hhost HXY HP HX HY.
  eexists. split; [by apply pack_host |].
  split; [by apply rank_count |].
  split; [apply picks_sorted |].
  split; [rewrite length_zip_with; lia |].
  intros j x y y' Hx Hy Hy'.
  apply lookup_zip_with_Some in Hy' as (x1 & y1 & -> & Hx1 & Hy1).
  simplify_eq.
  pose proof (Forall_lookup_1 _ _ _ _ HX Hx) as Hnx.
  pose proof (Forall_lookup_1 _ _ _ _ HY Hy) as Hny. cbn in *.
  split; [by apply length_packed |].
  split.
  - intros r i Hr. by apply packed_lookup_picks.
  - intros r Hr. by apply packed_lookup_ge.
Qed.

(** C5, within the range of [int].  On the host, for every predicate, every
    length [n <= 2^31], so that each recorded index fits the [int] table,
    and at most [INT_MAX] buffers, all large enough, the [pack] that records
    [sparse_indices] returns the same count and the same dense buffers as
    the [pack] that does not, and the [unpack] driven by the recorded
    indices leaves the sparse destination exactly as the [unpack] driven by
    the predicate does, whatever the dense buffers [D] hold at that
    moment. *)
Theorem index_variant_equivalence P n X Y X' D (idx : list Z) dv :
  isDeviceExecution dev = false ->
  length X = length Y ->
  length X' = length Y ->
  length D = length Y ->
  (Z.of_nat (length X) <= Int.INT_MAX)%Z ->
  (Z.of_nat n <= Int.INT_MAX + 1)%Z ->
  n <= length P ->
  Forall (fun x => n <= length x) X ->
  Forall (fun x' => n <= length x') X' ->
  Forall (fun y => rank dv P n <= length y) Y ->
  Forall (fun d => rank dv P n <= length d) D ->
  rank dv P n <= length idx ->
  exists Y' idx' X'',
    DataHandler.pack dev P n X dv Y = (Ok (rank dv P n), Y') /\
    DataHandler.pack_indices dev P n X dv (idx, Y) =
      (Ok (rank dv P n), (idx', Y')) /\
    DataHandler.unpack dev P n D dv X' = (Ok tt, X'') /\
    DataHandler.unpack_indices dev idx' (rank dv P n) D dv X' =
      (Ok tt, X'').
Proof.
  intros Hhost HXY HX'Y HDY Hdims Hn HP HX HX' HY HD Hidx.
  do 3 eexists. split; [by apply pack_host |].
  split; [by apply pack_indices_host |].
  split; [apply unpack_host; try done; lia |].
  rewrite unpack_indices_host; try done; try lia.
  - rewrite take_packed_source_indices by done.
    rewrite <- list_fmap_compose.
    rewrite (list_fmap_ext _ id) by (intros; cbn; apply Nat2Z.id).
    by rewrite list_fmap_id.
  - rewrite length_packed; rewrite ?length_source_indices; lia.
  - rewrite take_packed_source_indices by done.
    apply Forall_fmap, Forall_forall. intros k Hk%elem_of_picks. cbn.
    split; [lia |]. rewrite Nat2Z.id.
    eapply Forall_impl; [exact HX' |]. cbn. lia.
Qed.

(** C7. Shape mismatch.  In either execution mode, a call of [pack] or
    [unpack], of either variant, whose sparse and dense vectors differ in
    length raises [std::invalid_argument] and leaves every buffer as it
    was; when the lengths agree no call raises an exception. *)
Theorem shape_mismatch_is_fatal P n (idx : list Z) nPacked sparse dense dv :
  (length sparse <> length dense ->
     DataHandler.pack dev P n sparse dv dense =
       (Throw DataHandler.size_mismatch, dense) /\
     DataHandler.unpack dev P n dense dv sparse =
       (Throw DataHandler.size_mismatch, sparse) /\
     DataHandler.pack_indices dev P n sparse dv (idx, dense) =
       (Throw DataHandler.size_mismatch, (idx, dense)) /\
     DataHandler.unpack_indices dev idx nPacked dense dv sparse =
       (Throw DataHandler.size_mismatch, sparse)) /\
  (length sparse = length dense ->
     is_throw (fst (DataHandler.pack dev P n sparse dv dense)) = false /\
     is_throw (fst (DataHandler.unpack dev P n dense dv sparse)) = false /\
     is_throw (fst (DataHandler.pack_indices dev P n sparse dv (idx, dense)))
       = false /\
     is_throw
       (fst (DataHandler.unpack_indices dev idx nPacked dense dv sparse))
       = false).
Proof.
  split.
  - intros Hne. apply Nat.eqb_neq in Hne.
    unfold DataHandler.pack, DataHandler.unpack, DataHandler.pack_indices,
      DataHandler.unpack_indices, bind, get. cbn [fst snd].
    by rewrite Hne.
  - intros Heq. split_and!.
    + by apply pack_no_throw.
    + by apply unpack_no_throw.
    + by apply pack_indices_no_throw.
    + by apply unpack_indices_no_throw.
Qed.
End DataHandlerProperties.

Section PartitionSizing.
Local Open Scope Z_scope.

(** C8, within the range of [int].  For feature counts [n_in, n_out >= 0]
    and either setting of [includeReIndex], with
    [bytes_per_sample = sizeof(V) * (n_in + n_out)], plus [sizeof(int)] when
    [includeReIndex] is set, positive and representable as an [int], and a
    budget [partitionSize] that is a non-negative [int],
    [computePartitionSize] returns [floor (partitionSize / bytes_per_sample)]. *)
Theorem computePartitionSize_formula
    (sizeof_V partitionSize n_in n_out : Z) (includeReIndex : bool) :
  let bytes_per_sample :=
    sizeof_V * (n_in + n_out) + (if includeReIndex then Int.sizeof_int else 0) in
  0 < sizeof_V ->
  0 <= n_in -> 0 <= n_out ->
  0 <= partitionSize <= Int.INT_MAX ->
  0 < bytes_per_sample <= Int.INT_MAX ->
  DataHandler.computePartitionSize sizeof_V n_in n_out includeReIndex
    partitionSize = Ok (partitionSize / bytes_per_sample).
Proof.
  intros bytes Hsz Hin Hout Hbudget Hbytes. subst bytes.
  unfold Int.INT_MAX, Int.sizeof_int in *.
  assert (Hsum : n_in + n_out <= sizeof_V * (n_in + n_out)) by nia.
  assert (Hprod : 0 <= sizeof_V * (n_in + n_out) <= 2 ^ 31 - 1)
    by (destruct includeReIndex; nia).
  unfold DataHandler.computePartitionSize, Int.add, Int.in_int,
    Int.INT_MIN, Int.INT_MAX.
  rewrite (proj2 (andb_true_iff _ _)) by (split; lia).
  rewrite (to_size_t_id (n_in + n_out)) by lia.
  rewrite (to_size_t_id (sizeof_V * _)) by lia.
  rewrite to_int_id by (unfold Int.INT_MIN, Int.INT_MAX; lia).
  destruct includeReIndex.
  - unfold Int.udiv, Int.sizeof_int.
    rewrite (to_size_t_id (sizeof_V * _)) by lia.
    rewrite (to_size_t_id (_ + 4)) by lia.
    rewrite (to_size_t_id partitionSize) by lia.
    rewrite (proj2 (Z.eqb_neq _ _)) by lia.
    f_equal. apply to_int_id. unfold Int.INT_MIN, Int.INT_MAX.
    assert (0 <= partitionSize / (sizeof_V * (n_in + n_out) + 4) <= partitionSize).
    { split; [apply Z.div_pos; lia | apply Z.div_le_upper_bound; nia]. }
    lia.
  - unfold Int.div, Int.in_int, Int.INT_MIN, Int.INT_MAX.
    rewrite Z.add_0_r in *.
    rewrite (proj2 (Z.eqb_neq _ _)) by lia.
    rewrite Z.quot_div_nonneg by lia.
    assert (0 <= partitionSize / (sizeof_V * (n_in + n_out)) <= partitionSize).
    { split; [apply Z.div_pos; lia | apply Z.div_le_upper_bound; nia]. }
    rewrite (proj2 (andb_true_iff _ _)) by (split; lia).
    done.
Qed.

Lemma computePartitionSize_formula_witness :
  DataHandler.computePartitionSize 8 2 4 true (2 ^ 24) = Ok (2 ^ 24 / 52) /\
  DataHandler.computePartitionSize 8 2 4 false (2 ^ 24) = Ok (2 ^ 24 / 48).
Proof.
  split.
  - apply (computePartitionSize_formula 8 (2 ^ 24) 2 4 true);
      unfold Int.INT_MAX, Int.sizeof_int; lia.
  - apply (computePartitionSize_formula 8 (2 ^ 24) 2 4 false);
      unfold Int.INT_MAX, Int.sizeof_int; lia.
Defined.
End PartitionSizing.

(** ** Allocation and evaluator writes *)

Lemma allocate_ok {T} (content : nat -> T) (count sizeof_T : Z) :
  (0 <= count <= Int.INT_MAX)%Z -> (0 < sizeof_T <= 8)%Z ->
  allocate content count sizeof_T =
    Ok (map content (seq 0 (Z.to_nat count))).
Proof.
  unfold Int.INT_MAX. intros Hc Hs. unfold allocate.
  rewrite (to_size_t_id count) by lia.
  rewrite to_size_t_id by nia.
  rewrite (proj2 (Z.leb_gt _ _)) by nia.
  by rewrite Z.div_mul by lia.
Qed.

Lemma length_allocated {T} (content : nat -> T) n :
  length (map content (seq 0 n)) = n.
Proof. by rewrite length_map, length_seq. Qed.

Lemma write_columns_ok {T} n (f : nat -> nat -> T) (v : list (list T)) :
  Forall (fun p => n <= length p) v ->
  write_columns n f v =
    (Ok tt, imap (fun j p => map (f j) (seq 0 n) ++ drop n p) v).
Proof. intros Hv. unfold write_columns. by rewrite decide_True. Qed.

Lemma written_lookup {T} n (g : nat -> T) (p : list T) i :
  n <= length p ->
  (map g (seq 0 n) ++ drop n p) !! i =
    if decide (i < n) then Some (g i) else p !! i.
Proof.
  intros Hn. destruct (decide (i < n)) as [Hi|Hi].
  - rewrite lookup_app_l by by rewrite length_map, length_seq.
    change (map g (seq 0 n)) with (g <$> seq 0 n).
    by rewrite list_lookup_fmap, lookup_seq_lt.
  - rewrite lookup_app_r by (rewrite length_map, length_seq; lia).
    rewrite length_map, length_seq, lookup_drop. f_equal. lia.
Qed.

Lemma length_written {T} n (g : nat -> T) (p : list T) :
  n <= length p -> length (map g (seq 0 n) ++ drop n p) = length p.
Proof.
  intros Hn. rewrite length_app, length_map, length_seq, length_drop. lia.
Qed.

(** Writing through the view [&o[off]] and reading the whole buffer. *)
Lemma view_lookup {T} off (o w : list T) q :
  off <= length o ->
  (take off o ++ w) !! q =
    if decide (q < off) then o !! q else w !! (q - off).
Proof.
  intros Hoff. destruct (decide (q < off)).
  - rewrite lookup_app_l by (rewrite length_take; lia).
    by rewrite lookup_take_lt.
  - rewrite lookup_app_r by (rewrite length_take; lia).
    rewrite length_take. f_equal. lia.
Qed.

Lemma view_drop {T} off (o w : list T) :
  off <= length o -> drop off (take off o ++ w) = w.
Proof.
  intros Hoff. rewrite drop_app_length'; [done |].
  rewrite length_take. lia.
Qed.

(** The surrogate step of a partition: every cell of the partition's
    range is written in every output buffer. *)
Lemma surrogate_step {V} off n (f : nat -> nat -> V)
    (outs : list (list V)) t :
  Forall (fun o => off + n <= length o) outs ->
  exists outs1,
    MiniApp.on_sparse_outputs off (write_columns n f)
      {| MiniApp.outputs := outs; MiniApp.trace := t |} =
      (Ok tt, {| MiniApp.outputs := outs1; MiniApp.trace := t |}) /\
    length outs1 = length outs /\
    forall j o, outs !! j = Some o ->
      exists o1, outs1 !! j = Some o1 /\ length o1 = length o /\
        forall q, o1 !! q =
          if decide (off <= q < off + n) then Some (f j (q - off))
          else o !! q.
Proof.
  intros Houts. unfold MiniApp.on_sparse_outputs, zoom. cbn.
  rewrite write_columns_ok.
  2:{ apply Forall_fmap. eapply Forall_impl; [exact Houts |].
      intros o Ho. cbn in *. rewrite length_drop. lia. }
  eexists. split; [reflexivity |].
  split; [by rewrite length_zip_with, length_imap, length_fmap, Nat.min_id |].
  intros j o Ho. pose proof (Forall_lookup_1 _ _ _ _ Houts Ho) as Hlo.
  cbn in Hlo. eexists. split.
  { rewrite lookup_zip_with, Ho. cbn.
    rewrite list_lookup_imap, list_lookup_fmap, Ho. cbn. reflexivity. }
  split.
  { rewrite length_app, length_take, length_written, length_drop
      by (rewrite length_drop; lia). lia. }
  intros q. rewrite view_lookup by lia.
  destruct (decide (q < off)).
  - by rewrite decide_False by lia.
  - rewrite written_lookup by (rewrite length_drop; lia).
    destruct (decide (q - off < n)).
    + by rewrite decide_True by lia.
    + rewrite decide_False, lookup_drop by lia. f_equal. lia.
Qed.

Section PartitionFacts.
Context {V : Type}.
Variable dev : Device V.
Variable partitionSize : Z.
Variable alloc : Allocator V.
Variable app : MiniApp.t V.
Variable mat_idx num_data : Z.
Variables pDensity pEnergy : list V.
Variable P : list bool.

Hypothesis Hhost : isDeviceExecution dev = false.
Hypothesis Hnum : (num_data <= Int.INT_MAX)%Z.
Hypothesis HD : Z.to_nat num_data <= length pDensity.
Hypothesis HE : Z.to_nat num_data <= length pEnergy.
Hypothesis HP : Z.to_nat num_data <= length P.
Hypothesis Hmat : (0 <= mat_idx)%Z.

(** The scratch inputs after [pack], in closed form. *)
Lemma packed_inputs_of_eq step pId :
  (0 <= pId < num_data)%Z -> (0 <= step)%Z ->
  packed_inputs_of dev alloc num_data pDensity pEnergy P step pId =
    [packed false (predicate_of P pId)
       (Z.to_nat (elements_of num_data step pId))
       (drop (Z.to_nat pId) pDensity) (scratch alloc num_data step pId 0);
     packed false (predicate_of P pId)
       (Z.to_nat (elements_of num_data step pId))
       (drop (Z.to_nat pId) pEnergy) (scratch alloc num_data step pId 1)].
Proof using Hhost HP HE HD.
  intros Hpid Hstep. unfold packed_inputs_of, sparse_inputs_of, elements_of.
  rewrite (pack_host dev Hhost); [done | done | ..].
  - unfold predicate_of. rewrite length_drop. lia.
  - repeat constructor; rewrite length_drop; lia.
  - repeat constructor; unfold scratch, elements_of;
      rewrite length_allocated; apply rank_le.
Qed.

Lemma partition_spec step pId m s e :
  (0 <= pId < num_data)%Z ->
  (0 <= step <= Int.INT_MAX)%Z ->
  MiniApp.surrogates app !! Z.to_nat mat_idx = Some s ->
  MiniApp.eoses app !! Z.to_nat mat_idx = Some (Some e) ->
  outputs_ok num_data m ->
  exists m',
    MiniApp.partition dev alloc app mat_idx num_data pDensity pEnergy
      P step pId m = (Ok tt, m') /\
    MiniApp.trace m' =
      MiniApp.trace m ++ partition_events num_data P step pId s /\
    length (MiniApp.outputs m') = 4 /\
    forall j o, MiniApp.outputs m !! j = Some o ->
      exists o', MiniApp.outputs m' !! j = Some o' /\
        length o' = length o /\
        forall q, o' !! q =
          output_cell dev alloc num_data pDensity pEnergy P step pId s e j o q.
Proof using Hnum Hmat Hhost HP HE HD.
  intros Hpid Hstep Hs He [Hout4 Hout].
  unfold MiniApp.partition.
  set (elements := Z.min step (num_data - pId)).
  assert (Hel : (0 <= elements <= Int.INT_MAX)%Z) by (unfold Int.INT_MAX in *; lia).
  assert (Heln : Z.to_nat pId + Z.to_nat elements <= Z.to_nat num_data) by lia.
  unfold bind at 1, lift, Int.sub, Int.in_int, Int.INT_MIN.
  rewrite (proj2 (andb_true_iff _ _))
    by (unfold Int.INT_MAX in *; split; lia).
  fold elements.
  unfold bind at 1, MiniApp.emit.
  do 6 (unfold bind at 1; rewrite allocate_ok
          by (done || (unfold Int.sizeof_double; lia))).
  rewrite (proj2 (Z.ltb_ge _ _)) by lia.
  rewrite to_size_t_id by (unfold Int.INT_MAX in *; lia).
  unfold vector_at. rewrite (proj2 (Z.ltb_ge _ _)) by lia.
  unfold load. rewrite Hs, He.
  set (off := Z.to_nat pId). set (n := Z.to_nat elements).
  set (m1 := {| MiniApp.outputs := MiniApp.outputs m;
                MiniApp.trace := MiniApp.trace m ++ [Partition pId elements] |}).
  assert (Houtn : Forall (fun o => off + n <= length o) (MiniApp.outputs m)).
  { eapply Forall_impl; [exact Hout |]. intros o Ho. cbn in *. lia. }
  (* the surrogate *)
  assert (exists outs1,
    (match s with
     | Some s0 =>
         bind (MiniApp.emit (Surrogate_Eval_call elements))
           (fun _ => MiniApp.on_sparse_outputs off
              (write_columns n
                 (Surrogate_Eval s0 n [drop off pDensity; drop off pEnergy])))
     | None => ret tt
     end) m1 =
    (Ok tt, {| MiniApp.outputs := outs1;
               MiniApp.trace := MiniApp.trace m1 ++
                 match s with
                 | Some _ => [Surrogate_Eval_call elements]
                 | None => []
                 end |}) /\
    length outs1 = 4 /\
    forall j o, MiniApp.outputs m !! j = Some o ->
      exists o1, outs1 !! j = Some o1 /\ length o1 = length o /\
        forall q, o1 !! q =
          match s with
          | Some s0 =>
              if decide (off <= q < off + n)
              then Some (Surrogate_Eval s0 n
                           [drop off pDensity; drop off pEnergy] j (q - off))
              else o !! q
          | None => o !! q
          end) as (outs1 & Hsur & Hlen1 & Hcell1).
  { destruct s as [s0|].
    - unfold bind at 1, MiniApp.emit. cbn [MiniApp.outputs MiniApp.trace m1].
      destruct (surrogate_step off n
        (Surrogate_Eval s0 n [drop off pDensity; drop off pEnergy])
        (MiniApp.outputs m)
        ((MiniApp.trace m ++ [Partition pId elements]) ++
           [Surrogate_Eval_call elements]) Houtn)
        as (outs1 & Hrun & Hl & Hc).
      exists outs1. split; [exact Hrun |]. split; [lia | exact Hc].
    - exists (MiniApp.outputs m). split.
      + unfold ret, m1. cbn. by rewrite app_nil_r.
      + split; [done |]. intros j o Ho. exists o. done. }
  unfold bind at 1. cbv beta iota.
  rewrite (bind_ok _ _ _ _ _ Hsur).
  (* pack *)
  assert (Hrank : rank false (drop off P) n <= n) by apply rank_le.
  unfold bind at 1, MiniApp.on_scratch.
  rewrite (pack_host dev Hhost).
  2:{ done. }
  2:{ rewrite length_drop. lia. }
  2:{ repeat constructor; rewrite length_drop; lia. }
  2:{ repeat constructor; by rewrite length_allocated. }
  cbn [fst snd zip_with].
  unfold bind at 1. cbv beta iota.
  unfold bind at 1.
  rewrite write_columns_ok
    by (repeat constructor; by rewrite length_allocated).
  cbn [snd].
  unfold MiniApp.on_sparse_outputs, zoom.
  cbn [MiniApp.outputs MiniApp.trace].
  set (k := rank false (drop off P) n).
  set (pe := default [] (_ !! 1)). set (pd := default [] (_ !! 0)).
  set (scr := [map (fresh alloc pId 2) (seq 0 n);
               map (fresh alloc pId 3) (seq 0 n);
               map (fresh alloc pId 4) (seq 0 n);
               map (fresh alloc pId 5) (seq 0 n)]).
  set (physics := imap _ scr).
  assert (Houts1 : Forall (fun o1 => off + n <= length o1) outs1).
  { apply Forall_lookup. intros j o1 Ho1.
    destruct (lookup_lt_is_Some_2 (MiniApp.outputs m) j) as [o Ho].
    { apply lookup_lt_Some in Ho1. lia. }
    destruct (Hcell1 j o Ho) as (o1' & Ho1' & Hl & _). simplify_eq.
    pose proof (Forall_lookup_1 _ _ _ _ Houtn Ho). cbn in *. lia. }
  assert (Hphys : forall j ph, physics !! j = Some ph ->
            length ph = n /\
            forall r, r < k -> ph !! r = Some (EOS_Eval e k pe pd j r)).
  { intros j ph Hph. unfold physics in Hph.
    rewrite list_lookup_imap in Hph.
    destruct (scr !! j) as [p|] eqn:Hp; [| done]. cbn in Hph.
    assert (Hlp : length p = n).
    { assert (Hall : Forall (fun p => length p = n) scr)
        by (repeat constructor; apply length_allocated).
      apply (Forall_lookup_1 _ _ _ _ Hall Hp). }
    simplify_eq. split.
    - rewrite length_written; lia.
    - intros r Hr. rewrite written_lookup by lia. by rewrite decide_True. }
  unfold bind at 1. cbv beta iota. cbn [snd MiniApp.outputs MiniApp.trace].
  rewrite (unpack_host dev Hhost).
  2:{ unfold physics. by rewrite length_map, length_imap. }
  2:{ rewrite length_drop. lia. }
  2:{ apply Forall_fmap. eapply Forall_impl; [exact Houts1 |].
      intros o1 Ho1. cbn in *. rewrite length_drop. lia. }
  2:{ apply Forall_lookup. intros j ph Hph.
      destruct (Hphys j ph Hph) as [-> _]. done. }
  eexists. split; [reflexivity |]. cbn [MiniApp.outputs MiniApp.trace].
  split.
  { unfold partition_events, m1. cbn [MiniApp.trace].
    rewrite <- !app_assoc. done. }
  split.
  { unfold physics, scr. rewrite !length_zip_with, length_imap, length_map.
    cbn [length]. lia. }
  intros j o Ho.
  destruct (Hcell1 j o Ho) as (o1 & Ho1 & Hl1 & Hc1).
  destruct (lookup_lt_is_Some_2 physics j) as [ph Hph].
  { unfold physics. rewrite length_imap. cbn.
    apply lookup_lt_Some in Ho. lia. }
  destruct (Hphys j ph Hph) as [Hlph Hcph].
  pose proof (Forall_lookup_1 _ _ _ _ Houts1 Ho1) as Hlo1. cbn in Hlo1.
  eexists. split.
  { apply lookup_zip_with_Some. eexists _, _.
    split; [reflexivity |]. split; [exact Ho1 |].
    apply lookup_zip_with_Some. eexists _, _.
    split; [reflexivity |]. split; [exact Hph |].
    change (map (drop off) outs1) with (drop off <$> outs1).
    by rewrite list_lookup_fmap, Ho1. }
  split.
  { rewrite length_app, length_take, length_unpacked, length_drop. lia. }
  intros q. rewrite view_lookup by lia.
  unfold output_cell. fold off. unfold elements_of. fold elements. fold n.
  destruct (decide (q < off)) as [Hq|Hq].
  { rewrite decide_False by lia. rewrite Hc1.
    destruct s; [by rewrite decide_False by lia | done]. }
  rewrite unpacked_lookup by (rewrite ?length_drop; lia).
  rewrite lookup_drop. replace (off + (q - off)) with q by lia.
  destruct (decide (off <= q < off + n)) as [Hin|Hin].
  - destruct (decide (P !! q = Some false)) as [Hsel|Hsel].
    + rewrite decide_True by (split; [lia | done]).
      rewrite Hcph by (apply rank_lt; [lia |];
                       rewrite lookup_drop;
                       by replace (off + (q - off)) with q by lia).
      unfold physics_output, packed_count.
      rewrite packed_inputs_of_eq by lia. done.
    + rewrite decide_False by tauto.
      rewrite lookup_drop. replace (off + (q - off)) with q by lia.
      rewrite Hc1. destruct s; [by rewrite decide_True | done].
  - rewrite decide_False by lia.
    rewrite lookup_drop. replace (off + (q - off)) with q by lia.
    rewrite Hc1. destruct s; [by rewrite decide_False | done].
Qed.
End PartitionFacts.

Lemma partitions_started_app l1 l2 :
  partitions_started (l1 ++ l2) = partitions_started l1 ++ partitions_started l2.
Proof. apply omap_app. Qed.

Lemma eos_calls_app l1 l2 : eos_calls (l1 ++ l2) = eos_calls l1 + eos_calls l2.
Proof. unfold eos_calls. by rewrite List.filter_app, length_app. Qed.

Lemma computePartitionSize_2_4 (partitionSize : Z) :
  DataHandler.computePartitionSize Int.sizeof_double 2 4 true partitionSize =
    Ok (Int.to_int (Int.to_size_t partitionSize / 52)).
Proof. reflexivity. Qed.

Lemma to_int_range z : (Int.INT_MIN <= Int.to_int z <= Int.INT_MAX)%Z.
Proof.
  unfold Int.to_int, Int.INT_MIN, Int.INT_MAX.
  pose proof (Z.mod_pos_bound (z + 2 ^ 31) (2 ^ 32) ltac:(lia)). lia.
Qed.

Lemma allocate_negative {T} (content : nat -> T) (count : Z) :
  (Int.INT_MIN <= count < 0)%Z ->
  allocate content count Int.sizeof_double = Throw bad_alloc.
Proof.
  unfold Int.INT_MIN, Int.sizeof_double. intros Hc. unfold allocate.
  unfold Int.to_size_t, Int.SIZE_MOD.
  replace (count mod 2 ^ 64)%Z with (count + 1 * 2 ^ 64)%Z.
  2:{ symmetry. rewrite <- (Z.mod_add count 1) by lia.
      apply Z.mod_small. lia. }
  replace (((count + 1 * 2 ^ 64) * 8) mod 2 ^ 64)%Z
    with (2 ^ 64 + 8 * count)%Z.
  2:{ symmetry.
      replace ((count + 1 * 2 ^ 64) * 8)%Z
        with (2 ^ 64 + 8 * count + 7 * 2 ^ 64)%Z by lia.
      rewrite Z.mod_add by lia. apply Z.mod_small. lia. }
  by rewrite (proj2 (Z.leb_le _ _)) by lia.
Qed.

Section PipelineFacts.
Context {V : Type}.
Variable dev : Device V.
Variable partitionSize : Z.
Variable alloc : Allocator V.
Variable app : MiniApp.t V.
Variable mat_idx num_data : Z.
Variables pDensity pEnergy : list V.

Hypothesis Hhost : isDeviceExecution dev = false.
Hypothesis Hnum : (num_data <= Int.INT_MAX)%Z.
Hypothesis HD : Z.to_nat num_data <= length pDensity.
Hypothesis HE : Z.to_nat num_data <= length pEnergy.
Hypothesis Hmat : (0 <= mat_idx)%Z.

Abbreviation partition := (MiniApp.partition dev alloc app mat_idx num_data
                         pDensity pEnergy).
Abbreviation partition_loop := (MiniApp.partition_loop dev alloc app mat_idx
                              num_data pDensity pEnergy).

Lemma partition_outputs_ok P step pId m m' s e :
  Z.to_nat num_data <= length P ->
  (0 <= pId < num_data)%Z ->
  (0 <= step <= Int.INT_MAX)%Z ->
  MiniApp.surrogates app !! Z.to_nat mat_idx = Some s ->
  MiniApp.eoses app !! Z.to_nat mat_idx = Some (Some e) ->
  outputs_ok num_data m ->
  partition P step pId m = (Ok tt, m') ->
  outputs_ok num_data m'.
Proof using Hnum Hmat Hhost HE HD.
  intros HP Hpid Hstep Hs He Hok Hrun.
  destruct (partition_spec dev alloc app mat_idx num_data pDensity pEnergy P
              Hhost Hnum HD HE HP Hmat step pId m s e Hpid Hstep Hs He Hok)
    as (m'' & Hrun' & _ & Hlen & Hcells).
  rewrite Hrun in Hrun'. simplify_eq. destruct Hok as [Hout4 Hout].
  split; [done |]. apply Forall_lookup. intros j o' Ho'.
  destruct (lookup_lt_is_Some_2 (MiniApp.outputs m) j) as [o Ho].
  { apply lookup_lt_Some in Ho'. lia. }
  destruct (Hcells j o Ho) as (o'' & Ho'' & Hl & _). simplify_eq.
  pose proof (Forall_lookup_1 _ _ _ _ Hout Ho). cbn in *. lia.
Qed.

(** A negative step makes the first allocation of the partition fail. *)
Lemma partition_bad_alloc P step pId m :
  (0 <= pId < num_data)%Z ->
  (Int.INT_MIN <= step < 0)%Z ->
  exists m', partition P step pId m = (Throw bad_alloc, m').
Proof using Hnum.
  clear Hhost HD HE Hmat. intros Hpid Hstep. unfold MiniApp.partition.
  unfold bind at 1, lift, Int.sub, Int.in_int, Int.INT_MIN.
  rewrite (proj2 (andb_true_iff _ _))
    by (unfold Int.INT_MAX in *; split; lia).
  unfold bind at 1, MiniApp.emit. unfold bind at 1.
  rewrite Z.min_l by lia.
  rewrite allocate_negative by done. eauto.
Qed.

(** Without a physics evaluator the partition runs into the null
    dereference, whatever the predicate holds. *)
Lemma partition_null_eos P step pId m s :
  Z.to_nat num_data <= length P ->
  (0 <= pId < num_data)%Z ->
  (0 <= step <= Int.INT_MAX)%Z ->
  MiniApp.surrogates app !! Z.to_nat mat_idx = Some s ->
  MiniApp.eoses app !! Z.to_nat mat_idx = Some None ->
  outputs_ok num_data m ->
  exists m',
    partition P step pId m = (Fault NullDereference, m') /\
    eos_calls (MiniApp.trace m') = eos_calls (MiniApp.trace m).
Proof using Hnum HD HE Hmat.
  clear Hhost. intros HP Hpid Hstep Hs He [Hout4 Hout].
  unfold MiniApp.partition.
  set (elements := Z.min step (num_data - pId)).
  assert (Hel : (0 <= elements <= Int.INT_MAX)%Z)
    by (unfold Int.INT_MAX in *; lia).
  unfold bind at 1, lift, Int.sub, Int.in_int, Int.INT_MIN.
  rewrite (proj2 (andb_true_iff _ _))
    by (unfold Int.INT_MAX in *; split; lia).
  fold elements.
  unfold bind at 1, MiniApp.emit.
  do 6 (unfold bind at 1; rewrite allocate_ok
          by (done || (unfold Int.sizeof_double; lia))).
  rewrite (proj2 (Z.ltb_ge _ _)) by lia.
  rewrite to_size_t_id by (unfold Int.INT_MAX in *; lia).
  unfold vector_at. rewrite (proj2 (Z.ltb_ge _ _)) by lia.
  unfold load. rewrite Hs, He.
  set (off := Z.to_nat pId). set (n := Z.to_nat elements).
  set (m1 := {| MiniApp.outputs := MiniApp.outputs m;
                MiniApp.trace := MiniApp.trace m ++ [Partition pId elements] |}).
  assert (Houtn : Forall (fun o => off + n <= length o) (MiniApp.outputs m)).
  { eapply Forall_impl; [exact Hout |]. intros o Ho. cbn in *. lia. }
  assert (exists outs1 t1,
    (match s with
     | Some s0 =>
         bind (MiniApp.emit (Surrogate_Eval_call elements))
           (fun _ => MiniApp.on_sparse_outputs off
              (write_columns n
                 (Surrogate_Eval s0 n [drop off pDensity; drop off pEnergy])))
     | None => ret tt
     end) m1 =
    (Ok tt, {| MiniApp.outputs := outs1; MiniApp.trace := t1 |}) /\
    eos_calls t1 = eos_calls (MiniApp.trace m))
    as (outs1 & t1 & Hsur & Ht1).
  { destruct s as [s0|].
    - unfold bind at 1, MiniApp.emit. cbn [MiniApp.outputs MiniApp.trace m1].
      destruct (surrogate_step off n
        (Surrogate_Eval s0 n [drop off pDensity; drop off pEnergy])
        (MiniApp.outputs m)
        ((MiniApp.trace m ++ [Partition pId elements]) ++
           [Surrogate_Eval_call elements]) Houtn)
        as (outs1 & Hrun & _).
      eexists _, _. split; [exact Hrun |].
      rewrite !eos_calls_app. cbn. lia.
    - eexists _, _. split; [reflexivity |].
      cbn. rewrite eos_calls_app. cbn. lia. }
  unfold bind at 1. cbv beta iota.
  rewrite (bind_ok _ _ _ _ _ Hsur).
  destruct (pack_returns dev (drop off P) n
              [drop off pDensity; drop off pEnergy]
              [map (fresh alloc pId 0) (seq 0 n);
               map (fresh alloc pId 1) (seq 0 n)] false)
    as (k & packed_inputs & Hpack).
  { done. }
  { rewrite length_drop. lia. }
  { repeat constructor; rewrite length_drop; lia. }
  { repeat constructor; rewrite length_allocated; apply rank_le. }
  unfold bind at 1, MiniApp.on_scratch. rewrite Hpack.
  unfold bind at 1. cbv beta iota.
  eexists. split; [reflexivity | done].
Qed.

(** With a positive step and enough fuel the loop runs to completion. *)
Lemma partition_loop_terminates P step s e fuel : forall pId m,
  Z.to_nat num_data <= length P ->
  (1 <= step <= Int.INT_MAX)%Z ->
  (num_data + step <= Int.INT_MAX + 1)%Z ->
  MiniApp.surrogates app !! Z.to_nat mat_idx = Some s ->
  MiniApp.eoses app !! Z.to_nat mat_idx = Some (Some e) ->
  outputs_ok num_data m ->
  (0 <= pId)%Z ->
  Z.to_nat (num_data - pId) <= fuel ->
  exists m', partition_loop fuel P step pId m = (Ok tt, m') /\ outputs_ok num_data m'.
Proof using Hhost Hnum HD HE Hmat.
  induction fuel as [|fuel IH]; intros pId m HP Hstep Hover Hs He Hok Hpid Hfuel.
  - exists m. split; [| done]. cbn [MiniApp.partition_loop].
    by rewrite (proj2 (Z.ltb_ge _ _)) by lia.
  - cbn [MiniApp.partition_loop].
    destruct (Z.ltb_spec pId num_data) as [Hlt|Hge]; [| by exists m].
    destruct (partition_spec dev alloc app mat_idx num_data pDensity pEnergy
                P Hhost Hnum HD HE HP Hmat step pId m s e) as (m1 & Hrun & _);
      [lia | lia | done | done | done |].
    rewrite (bind_ok _ _ _ _ _ Hrun).
    unfold bind at 1, lift, Int.add, Int.in_int, Int.INT_MIN.
    rewrite (proj2 (andb_true_iff _ _))
      by (unfold Int.INT_MAX in *; split; lia).
    apply IH; try done; try lia.
    eapply partition_outputs_ok; [exact HP | | | exact Hs | exact He | exact Hok | exact Hrun]; lia.
Qed.

(** A partition of no element leaves the outputs as they are. *)
Lemma partition_step_zero P m s e :
  Z.to_nat num_data <= length P ->
  (0 < num_data)%Z ->
  MiniApp.surrogates app !! Z.to_nat mat_idx = Some s ->
  MiniApp.eoses app !! Z.to_nat mat_idx = Some (Some e) ->
  outputs_ok num_data m ->
  exists m',
    partition P 0 0 m = (Ok tt, m') /\
    MiniApp.outputs m' = MiniApp.outputs m /\
    partitions_started (MiniApp.trace m') =
      partitions_started (MiniApp.trace m) ++ [0%Z].
Proof using Hhost Hnum HD HE Hmat.
  intros HP Hpos Hs He Hok.
  destruct (partition_spec dev alloc app mat_idx num_data pDensity pEnergy
              P Hhost Hnum HD HE HP Hmat 0 0 m s e)
    as (m1 & Hrun & Htr & Hlen & Hcells);
    [lia | unfold Int.INT_MAX; lia | done | done | done |].
  exists m1. split; [done |]. destruct Hok as [Hout4 Hout]. split.
  - apply list_eq. intros j.
    destruct (MiniApp.outputs m !! j) as [o|] eqn:Ho.
    + destruct (Hcells j o Ho) as (o' & -> & _ & Hq). f_equal.
      apply list_eq. intros q. rewrite Hq. unfold output_cell, elements_of.
      rewrite Z.min_l by lia. by rewrite decide_False by lia.
    + apply lookup_ge_None in Ho. apply lookup_ge_None. lia.
  - rewrite Htr, partitions_started_app. f_equal.
    unfold partition_events. by destruct s.
Qed.

(** With a step of zero the loop starts the partition at [0] again and
    again: whatever the fuel, it has not returned. *)
Lemma partition_loop_stuck P s e fuel : forall m,
  Z.to_nat num_data <= length P ->
  (0 < num_data)%Z ->
  MiniApp.surrogates app !! Z.to_nat mat_idx = Some s ->
  MiniApp.eoses app !! Z.to_nat mat_idx = Some (Some e) ->
  outputs_ok num_data m ->
  exists m',
    partition_loop fuel P 0 0 m = (OutOfFuel, m') /\
    MiniApp.outputs m' = MiniApp.outputs m /\
    partitions_started (MiniApp.trace m') =
      partitions_started (MiniApp.trace m) ++ replicate fuel 0%Z.
Proof using Hhost Hnum HD HE Hmat.
  induction fuel as [|fuel IH]; intros m HP Hpos Hs He Hok.
  - exists m. cbn [MiniApp.partition_loop].
    rewrite (proj2 (Z.ltb_lt _ _)) by lia.
    split; [done |]. split; [done |]. cbn. by rewrite app_nil_r.
  - cbn [MiniApp.partition_loop]. rewrite (proj2 (Z.ltb_lt _ _)) by lia.
    destruct (partition_step_zero P m s e HP Hpos Hs He Hok)
      as (m1 & Hrun & Hout1 & Htr1).
    rewrite (bind_ok _ _ _ _ _ Hrun).
    unfold bind at 1, lift. cbn [Int.add Z.add Int.in_int]. cbv beta iota.
    destruct (IH m1) as (m' & Hloop & Hout' & Htr'); try done.
    { destruct Hok as [? ?]. split; by rewrite Hout1. }
    exists m'. split; [exact Hloop |]. split; [congruence |].
    rewrite Htr', Htr1, <- app_assoc. done.
Qed.

(** Steps 0 and 1 succeed and leave the predicate buffer filled by the UQ
    cache, or as allocated when there is none. *)
Lemma predicate_buffer_ok h m :
  (0 <= num_data)%Z ->
  MiniApp.hdcaches app !! Z.to_nat mat_idx = Some h ->
  exists t,
    MiniApp.predicate_buffer alloc app mat_idx num_data pDensity pEnergy m =
      (Ok (match h with
           | Some hd =>
               map (HDCache_evaluate hd (Z.to_nat num_data)
                      [pDensity; pEnergy])
                 (seq 0 (Z.to_nat num_data))
           | None => map (fresh_bool alloc) (seq 0 (Z.to_nat num_data))
           end),
       {| MiniApp.outputs := MiniApp.outputs m; MiniApp.trace := t |}) /\
    eos_calls t = eos_calls (MiniApp.trace m) /\
    partitions_started t = partitions_started (MiniApp.trace m).
Proof using Hnum Hmat.
  clear Hhost HD HE. intros Hpos Hh. unfold MiniApp.predicate_buffer.
  unfold bind at 1, lift.
  rewrite allocate_ok by lia.
  unfold bind at 1, vector_at.
  rewrite (proj2 (Z.ltb_ge _ _)) by lia.
  unfold load. rewrite Hh. destruct h as [hd|].
  - unfold bind at 1, MiniApp.emit. unfold bind at 1, MiniApp.on_scratch.
    unfold write_n. rewrite decide_True by by rewrite length_allocated.
    cbn [snd]. unfold ret.
    rewrite drop_ge, app_nil_r by by rewrite length_allocated.
    eexists. split; [reflexivity |].
    rewrite eos_calls_app, partitions_started_app. cbn.
    rewrite app_nil_r. split; [lia | done].
  - unfold ret. exists (MiniApp.trace m). by destruct m.
Qed.
End PipelineFacts.

Section PipelineProperties.
Context {V : Type}.
Variable dev : Device V.
Variable partitionSize : Z.
Variable alloc : Allocator V.
Variable app : MiniApp.t V.
Variable mat_idx num_data : Z.
Variables pDensity pEnergy : list V.

Hypothesis Hhost : isDeviceExecution dev = false.
Hypothesis Hnum : (num_data <= Int.INT_MAX)%Z.
Hypothesis HD : Z.to_nat num_data <= length pDensity.
Hypothesis HE : Z.to_nat num_data <= length pEnergy.
Hypothesis Hmat : (0 <= mat_idx)%Z.

Abbreviation evaluate_inner :=
  (MiniApp.evaluate_inner dev partitionSize alloc app mat_idx num_data
     pDensity pEnergy).
Abbreviation partition_loop :=
  (MiniApp.partition_loop dev alloc app mat_idx num_data pDensity pEnergy).

(** [evaluate_inner] is its partition loop, run on the predicate buffer of
    steps 0 and 1 with the step [computePartitionSize(2, 4)]. *)
Lemma evaluate_inner_loop h m fuel :
  (0 <= num_data)%Z ->
  MiniApp.hdcaches app !! Z.to_nat mat_idx = Some h ->
  outputs_ok num_data m ->
  exists P m0,
    length P = Z.to_nat num_data /\
    outputs_ok num_data m0 /\
    MiniApp.outputs m0 = MiniApp.outputs m /\
    eos_calls (MiniApp.trace m0) = eos_calls (MiniApp.trace m) /\
    partitions_started (MiniApp.trace m0) =
      partitions_started (MiniApp.trace m) /\
    evaluate_inner fuel m =
      partition_loop fuel P
        (Int.to_int (Int.to_size_t partitionSize / 52)) 0 m0.
Proof using Hnum Hmat.
  intros Hpos Hh Hok.
  destruct (predicate_buffer_ok alloc app mat_idx num_data pDensity pEnergy
              Hnum Hmat h m Hpos Hh) as (t & Hrun & Heos & Hps).
  exists (match h with
          | Some hd =>
              map (HDCache_evaluate hd (Z.to_nat num_data)
                     [pDensity; pEnergy])
                (seq 0 (Z.to_nat num_data))
          | None => map (fresh_bool alloc) (seq 0 (Z.to_nat num_data))
          end),
    {| MiniApp.outputs := MiniApp.outputs m; MiniApp.trace := t |}.
  split_and!; [| exact Hok | done | exact Heos | exact Hps |].
  - destruct h; apply length_allocated.
  - unfold MiniApp.evaluate_inner. rewrite (bind_ok _ _ _ _ _ Hrun).
    unfold bind at 1, lift. by rewrite computePartitionSize_2_4.
Qed.
End PipelineProperties.

(** C1. Dispatch.  In a partition of [evaluate_inner] run on the host for a
    material with both a surrogate and a physics evaluator, the surrogate is
    called before the physics evaluator, and afterwards, in every output
    buffer, the cell of a sample [i] of the partition holds what the
    surrogate stored for [i] if [P[i]] is true and what the physics
    evaluator stored at the packed position of [i] if [P[i]] is false; the
    packed position of such an [i] holds the inputs of sample [i]; cells
    outside the partition are as before. *)
Theorem dispatch_by_predicate {V} (dev : Device V) (alloc : Allocator V)
    (app : MiniApp.t V) (mat_idx num_data : Z) (pDensity pEnergy : list V)
    (P : list bool) (step pId : Z) (m : MiniApp.mem V)
    (s : SurrogateModel V) (e : EOS V) :
  isDeviceExecution dev = false ->
  (num_data <= Int.INT_MAX)%Z ->
  Z.to_nat num_data <= length pDensity ->
  Z.to_nat num_data <= length pEnergy ->
  Z.to_nat num_data <= length P ->
  (0 <= mat_idx)%Z ->
  (0 <= pId < num_data)%Z ->
  (0 <= step <= Int.INT_MAX)%Z ->
  MiniApp.surrogates app !! Z.to_nat mat_idx = Some (Some s) ->
  MiniApp.eoses app !! Z.to_nat mat_idx = Some (Some e) ->
  outputs_ok num_data m ->
  let off := Z.to_nat pId in
  let n := Z.to_nat (elements_of num_data step pId) in
  let r := rank false (predicate_of P pId) in
  exists m' packed_density packed_energy,
    MiniApp.partition dev alloc app mat_idx num_data pDensity pEnergy P step
      pId m = (Ok tt, m') /\
    MiniApp.trace m' =
      MiniApp.trace m ++
        [Partition pId (elements_of num_data step pId);
         Surrogate_Eval_call (elements_of num_data step pId);
         EOS_Eval_call (packed_count num_data P step pId)] /\
    packed_inputs_of dev alloc num_data pDensity pEnergy P step pId =
      [packed_density; packed_energy] /\
    (forall i, i < n -> P !! (off + i) = Some false ->
       packed_density !! r i = pDensity !! (off + i) /\
       packed_energy !! r i = pEnergy !! (off + i)) /\
    forall j o, MiniApp.outputs m !! j = Some o ->
      exists o', MiniApp.outputs m' !! j = Some o' /\
        length o' = length o /\
        (forall i, i < n -> P !! (off + i) = Some true ->
           o' !! (off + i) =
             Some (surrogate_output num_data pDensity pEnergy step pId s j i)) /\
        (forall i, i < n -> P !! (off + i) = Some false ->
           o' !! (off + i) =
             Some (physics_output dev alloc num_data pDensity pEnergy P step
                     pId e j (r i))) /\
        (forall q, ~ (off <= q < off + n) -> o' !! q = o !! q).
Proof.
  intros Hhost Hnum HD HE HP Hmat Hpid Hstep Hs He Hok off n r.
  destruct (partition_spec dev alloc app mat_idx num_data pDensity pEnergy P
              Hhost Hnum HD HE HP Hmat step pId m (Some s) e Hpid Hstep Hs He
              Hok) as (m' & Hrun & Htr & _ & Hcells).
  assert (Hn : off + n <= Z.to_nat num_data)
    by (unfold off, n, elements_of; lia).
  eexists m', _, _. split; [exact Hrun |]. split; [exact Htr |].
  split; [apply packed_inputs_of_eq; try done; lia |].
  split.
  { intros i Hi HPi. unfold r, predicate_of. fold off.
    split; (rewrite packed_lookup_rank;
            [by rewrite lookup_drop
            | rewrite length_drop; fold n; lia
            | done
            | by rewrite lookup_drop]). }
  intros j o Ho. destruct (Hcells j o Ho) as (o' & Ho' & Hlen & Hq).
  exists o'. split; [done |]. split; [done |].
  split_and!.
  - intros i Hi HPi. rewrite Hq. unfold output_cell. fold off n.
    rewrite decide_True by lia.
    rewrite decide_False by congruence.
    do 2 f_equal. lia.
  - intros i Hi HPi. rewrite Hq. unfold output_cell. fold off n.
    rewrite decide_True by lia.
    rewrite decide_True by done. unfold r. do 3 f_equal. lia.
  - intros q Hq'. rewrite Hq. unfold output_cell. fold off n.
    by rewrite decide_False by done.
Qed.

(** C3, as the code has it.  In every partition of [evaluate_inner] run on
    the host, with or without a surrogate, [EOS::Eval] is called exactly once
    and receives the number [k] of packed samples, the number of [false]
    cells of the predicate in the partition, whether or not [k] is
    positive. *)
Theorem eos_called_once_per_partition {V} (dev : Device V)
    (alloc : Allocator V) (app : MiniApp.t V) (mat_idx num_data : Z)
    (pDensity pEnergy : list V) (P : list bool) (step pId : Z)
    (m : MiniApp.mem V) (s : option (SurrogateModel V)) (e : EOS V) :
  isDeviceExecution dev = false ->
  (num_data <= Int.INT_MAX)%Z ->
  Z.to_nat num_data <= length pDensity ->
  Z.to_nat num_data <= length pEnergy ->
  Z.to_nat num_data <= length P ->
  (0 <= mat_idx)%Z ->
  (0 <= pId < num_data)%Z ->
  (0 <= step <= Int.INT_MAX)%Z ->
  MiniApp.surrogates app !! Z.to_nat mat_idx = Some s ->
  MiniApp.eoses app !! Z.to_nat mat_idx = Some (Some e) ->
  outputs_ok num_data m ->
  let k := length (filter (fun b => b = false)
                     (take (Z.to_nat (elements_of num_data step pId))
                        (predicate_of P pId))) in
  exists m' events,
    MiniApp.partition dev alloc app mat_idx num_data pDensity pEnergy P step
      pId m = (Ok tt, m') /\
    MiniApp.trace m' = MiniApp.trace m ++ events /\
    eos_calls events = 1 /\
    EOS_Eval_call k ∈ events.
Proof.
  intros Hhost Hnum HD HE HP Hmat Hpid Hstep Hs He Hok k.
  destruct (partition_spec dev alloc app mat_idx num_data pDensity pEnergy P
              Hhost Hnum HD HE HP Hmat step pId m s e Hpid Hstep Hs He
              Hok) as (m' & Hrun & Htr & _).
  exists m', (partition_events num_data P step pId s).
  split; [exact Hrun |]. split; [exact Htr |].
  assert (Hk : packed_count num_data P step pId = k).
  { unfold packed_count, k. apply rank_count.
    unfold predicate_of, elements_of. rewrite length_drop. lia. }
  unfold partition_events. rewrite Hk. split.
  - by destruct s.
  - destruct s; cbn; repeat constructor.
Qed.

(** C9. Termination of the partition loop.  For a well-formed call of
    [evaluate_inner] on the host with [num_data > 0] and a physics
    evaluator, let [step] be [computePartitionSize(2, 4)].  If some amount
    of fuel lets the call return, then [step >= 1]; conversely, with
    [step >= 1] (and [num_data + step] within [int], so that the last
    increment does not overflow) enough fuel lets it return.  If the budget
    is smaller than the 52 bytes of one sample, [step] is [0] and, whatever
    the fuel, the call has not returned and every partition it has entered
    starts at [pId = 0]. *)
Theorem partition_loop_termination {V} (dev : Device V) (partitionSize : Z)
    (alloc : Allocator V) (app : MiniApp.t V) (mat_idx num_data : Z)
    (pDensity pEnergy : list V) (m : MiniApp.mem V)
    (h : option (HDCache V)) (s : option (SurrogateModel V)) (e : EOS V) :
  isDeviceExecution dev = false ->
  (0 < num_data <= Int.INT_MAX)%Z ->
  Z.to_nat num_data <= length pDensity ->
  Z.to_nat num_data <= length pEnergy ->
  (0 <= mat_idx)%Z ->
  MiniApp.hdcaches app !! Z.to_nat mat_idx = Some h ->
  MiniApp.surrogates app !! Z.to_nat mat_idx = Some s ->
  MiniApp.eoses app !! Z.to_nat mat_idx = Some (Some e) ->
  outputs_ok num_data m ->
  exists step,
    DataHandler.computePartitionSize Int.sizeof_double 2 4 true partitionSize
      = Ok step /\
    ((exists fuel m',
        MiniApp.evaluate_inner dev partitionSize alloc app mat_idx num_data
          pDensity pEnergy fuel m = (Ok tt, m')) ->
     (1 <= step)%Z) /\
    ((1 <= step)%Z -> (num_data + step <= Int.INT_MAX + 1)%Z ->
     exists fuel m',
       MiniApp.evaluate_inner dev partitionSize alloc app mat_idx num_data
         pDensity pEnergy fuel m = (Ok tt, m')) /\
    ((0 <= partitionSize < 52)%Z ->
     step = 0%Z /\
     forall fuel, exists m',
       MiniApp.evaluate_inner dev partitionSize alloc app mat_idx num_data
         pDensity pEnergy fuel m = (OutOfFuel, m') /\
       MiniApp.outputs m' = MiniApp.outputs m /\
       partitions_started (MiniApp.trace m') =
         partitions_started (MiniApp.trace m) ++ replicate fuel 0%Z).
Proof.
  intros Hhost [Hpos Hnum] HD HE Hmat Hh Hs He Hok.
  set (step := Int.to_int (Int.to_size_t partitionSize / 52)).
  exists step. split; [apply computePartitionSize_2_4 |].
  pose proof (to_int_range (Int.to_size_t partitionSize / 52)) as Hrange.
  fold step in Hrange.
  assert (Hloop : forall fuel, exists P m0,
    length P = Z.to_nat num_data /\ outputs_ok num_data m0 /\
    MiniApp.outputs m0 = MiniApp.outputs m /\
    partitions_started (MiniApp.trace m0) =
      partitions_started (MiniApp.trace m) /\
    MiniApp.evaluate_inner dev partitionSize alloc app mat_idx num_data
      pDensity pEnergy fuel m =
    MiniApp.partition_loop dev alloc app mat_idx num_data pDensity pEnergy
      fuel P step 0 m0).
  { intros fuel.
    destruct (evaluate_inner_loop dev partitionSize alloc app mat_idx num_data
                pDensity pEnergy Hnum Hmat h m fuel ltac:(lia) Hh Hok)
      as (P & m0 & ? & ? & ? & _ & ? & ?).
    by exists P, m0. }
  assert (Hstuck : step = 0%Z -> forall fuel, exists m',
    MiniApp.evaluate_inner dev partitionSize alloc app mat_idx num_data
      pDensity pEnergy fuel m = (OutOfFuel, m') /\
    MiniApp.outputs m' = MiniApp.outputs m /\
    partitions_started (MiniApp.trace m') =
      partitions_started (MiniApp.trace m) ++ replicate fuel 0%Z).
  { intros Hz fuel.
    destruct (Hloop fuel) as (P & m0 & HP & Hok0 & Hout0 & Hps0 & ->).
    rewrite Hz.
    destruct (partition_loop_stuck dev alloc app mat_idx num_data pDensity
                pEnergy Hhost Hnum HD HE Hmat P s e fuel m0)
      as (m' & Hrun & Hout' & Hps'); try done; try lia.
    exists m'. split; [exact Hrun |]. split; congruence. }
  split_and!.
  - intros (fuel & m' & Hrun).
    destruct (Z.lt_trichotomy step 0) as [Hneg|[Hz|Hgt]]; [| | lia].
    + destruct (Hloop fuel) as (P & m0 & HP & Hok0 & _ & _ & Heq).
      rewrite Heq in Hrun. destruct fuel as [|fuel].
      * cbn [MiniApp.partition_loop] in Hrun.
        rewrite (proj2 (Z.ltb_lt _ _)) in Hrun by lia. done.
      * cbn [MiniApp.partition_loop] in Hrun.
        rewrite (proj2 (Z.ltb_lt _ _)) in Hrun by lia.
        destruct (partition_bad_alloc dev alloc app mat_idx num_data pDensity
                    pEnergy Hnum P step 0 m0) as (m1 & Hbad); [lia | lia |].
        unfold bind at 1 in Hrun. rewrite Hbad in Hrun. done.
    + destruct (Hstuck Hz fuel) as (m1 & Hrun1 & _). congruence.
  - intros Hstep Hover.
    exists (Z.to_nat num_data).
    destruct (Hloop (Z.to_nat num_data)) as (P & m0 & HP & Hok0 & _ & _ & ->).
    destruct (partition_loop_terminates dev alloc app mat_idx num_data
                pDensity pEnergy Hhost Hnum HD HE Hmat P step s e
                (Z.to_nat num_data) 0 m0) as (m' & Hrun & _);
      try done; try lia.
    by exists m'.
  - intros Hbudget.
    assert (Hz : step = 0%Z).
    { unfold step. rewrite to_size_t_id by lia.
      by rewrite Z.div_small by lia. }
    split; [done | by apply Hstuck].
Qed.

(** C10. The physics evaluator is a precondition.  For a well-formed call of
    [evaluate_inner] with at least one sample and a budget that is a
    non-negative [int]: if [eoses[mat_idx]] is null, the call runs into the
    null dereference in its first partition without any [EOS::Eval] call, in
    either execution mode and whatever the UQ cache, the surrogate and the
    predicate, so also when no sample was packed; whereas with a physics
    evaluator, a null UQ cache and a null surrogate the call, on the host,
    returns. *)
Theorem physics_evaluator_required {V} (dev : Device V) (partitionSize : Z)
    (alloc : Allocator V) (app : MiniApp.t V) (mat_idx num_data : Z)
    (pDensity pEnergy : list V) (m : MiniApp.mem V)
    (h : option (HDCache V)) (s : option (SurrogateModel V)) :
  (0 < num_data <= Int.INT_MAX)%Z ->
  Z.to_nat num_data <= length pDensity ->
  Z.to_nat num_data <= length pEnergy ->
  (0 <= mat_idx)%Z ->
  (0 <= partitionSize <= Int.INT_MAX)%Z ->
  MiniApp.hdcaches app !! Z.to_nat mat_idx = Some h ->
  MiniApp.surrogates app !! Z.to_nat mat_idx = Some s ->
  outputs_ok num_data m ->
  (MiniApp.eoses app !! Z.to_nat mat_idx = Some None ->
   forall fuel, exists m',
     MiniApp.evaluate_inner dev partitionSize alloc app mat_idx num_data
       pDensity pEnergy (S fuel) m = (Fault NullDereference, m') /\
     eos_calls (MiniApp.trace m') = eos_calls (MiniApp.trace m)) /\
  (forall e,
     MiniApp.eoses app !! Z.to_nat mat_idx = Some (Some e) ->
     isDeviceExecution dev = false ->
     h = None -> s = None ->
     (52 <= partitionSize)%Z ->
     (num_data + partitionSize / 52 <= Int.INT_MAX + 1)%Z ->
     exists fuel m',
       MiniApp.evaluate_inner dev partitionSize alloc app mat_idx num_data
         pDensity pEnergy fuel m = (Ok tt, m')).
Proof.
  intros [Hpos Hnum] HD HE Hmat Hbudget Hh Hs Hok.
  assert (Hstep : Int.to_int (Int.to_size_t partitionSize / 52) =
                  (partitionSize / 52)%Z).
  { unfold Int.INT_MAX in *. rewrite to_size_t_id by lia.
    apply to_int_id. unfold Int.INT_MIN, Int.INT_MAX.
    assert (0 <= partitionSize / 52 <= partitionSize)%Z.
    { split; [apply Z.div_pos; lia | apply Z.div_le_upper_bound; lia]. }
    lia. }
  assert (Hstep_range : (0 <= partitionSize / 52 <= Int.INT_MAX)%Z).
  { assert (0 <= partitionSize / 52 <= partitionSize)%Z.
    { split; [apply Z.div_pos; lia | apply Z.div_le_upper_bound; lia]. }
    lia. }
  split.
  - intros He fuel.
    destruct (evaluate_inner_loop dev partitionSize alloc app mat_idx num_data
                pDensity pEnergy Hnum Hmat h m (S fuel) ltac:(lia) Hh Hok)
      as (P & m0 & HP & Hok0 & _ & Heos0 & _ & ->).
    rewrite Hstep. cbn [MiniApp.partition_loop].
    rewrite (proj2 (Z.ltb_lt _ _)) by lia.
    destruct (partition_null_eos dev alloc app mat_idx num_data pDensity
                pEnergy Hnum HD HE Hmat P (partitionSize / 52) 0 m0 s)
      as (m' & Hrun & Heos'); try done; try lia.
    exists m'. unfold bind at 1. rewrite Hrun. split; [done | congruence].
  - intros e He Hhost -> -> Hbig Hover.
    assert (1 <= partitionSize / 52)%Z
      by (apply Z.div_le_lower_bound; lia).
    exists (Z.to_nat num_data).
    destruct (evaluate_inner_loop dev partitionSize alloc app mat_idx num_data
                pDensity pEnergy Hnum Hmat None m (Z.to_nat num_data)
                ltac:(lia) Hh Hok)
      as (P & m0 & HP & Hok0 & _ & _ & _ & ->).
    rewrite Hstep.
    destruct (partition_loop_terminates dev alloc app mat_idx num_data
                pDensity pEnergy Hhost Hnum HD HE Hmat P (partitionSize / 52)
                None e (Z.to_nat num_data) 0 m0) as (m' & Hrun & _);
      try done; try lia.
    by exists m'.
Qed.

Lemma outputs_ok_demo : outputs_ok 4 Demo.mem0.
Proof. split; [reflexivity |]. repeat constructor. Qed.

Lemma dispatch_by_predicate_witness :
  exists m',
    MiniApp.partition host_device Demo.allocator Demo.app 0 4 Demo.density
      Demo.energy Demo.P 3 0 Demo.mem0 = (Ok tt, m') /\
    MiniApp.outputs m' !! 0 = Some [7; 20002; 7; 0]%Z.
Proof.
  destruct (dispatch_by_predicate host_device Demo.allocator Demo.app 0 4
              Demo.density Demo.energy Demo.P 3 0 Demo.mem0 Demo.surrogate
              Demo.eos)
    as (m' & pd & pe & Hrun & _);
    [reflexivity | unfold Int.INT_MAX; lia | cbn; lia | cbn; lia | cbn; lia
    | lia | lia | unfold Int.INT_MAX; lia | reflexivity | reflexivity
    | apply outputs_ok_demo |].
  exists m'. split; [exact Hrun |].
  vm_compute in Hrun. by simplify_eq.
Defined.

(** C2 on the code.  With no UQ cache and an allocator whose fresh memory
    holds non-zero bytes, the predicate buffer of [evaluate_inner] is all
    true: no sample is packed, the physics evaluator receives no sample and
    every output is the surrogate's. *)
Theorem predicate_buffer_not_initialised :
  MiniApp.predicate_buffer Demo.allocator Demo.app_no_uq 0 4 Demo.density
    Demo.energy Demo.mem0 = (Ok [true; true; true; true], Demo.mem0) /\
  MiniApp.evaluate_inner host_device (2 ^ 24) Demo.allocator Demo.app_no_uq
    0 4 Demo.density Demo.energy 1 Demo.mem0 =
    (Ok tt,
     {| MiniApp.outputs :=
          [[7; 7; 7; 7]; [7; 7; 7; 7]; [7; 7; 7; 7]; [7; 7; 7; 7]]%Z;
        MiniApp.trace :=
          [Partition 0 4; Surrogate_Eval_call 4; EOS_Eval_call 0] |}).
Proof. split; vm_compute; reflexivity. Qed.

(** C3 as stated fails: in a partition whose samples are all accepted, no
    sample is packed and [EOS::Eval] is called all the same. *)
Lemma eos_called_with_no_packed_sample :
  let r := MiniApp.partition host_device Demo.allocator Demo.app_accept_all
             0 4 Demo.density Demo.energy [true; true; true; true] 4 0
             Demo.mem0 in
  fst r = Ok tt /\
  packed_count 4 [true; true; true; true] 4 0 = 0 /\
  eos_calls (MiniApp.trace (snd r)) = 1 /\
  ~ (0 < eos_calls (MiniApp.trace (snd r)) <->
     0 < packed_count 4 [true; true; true; true] 4 0).
Proof.
  vm_compute. split_and!; try reflexivity. intros [H _].
  specialize (H (le_n 1)). inversion H.
Qed.

Lemma eos_called_once_per_partition_witness :
  exists m' events,
    MiniApp.partition host_device Demo.allocator Demo.app_accept_all 0 4
      Demo.density Demo.energy [true; true; true; true] 4 0 Demo.mem0
      = (Ok tt, m') /\
    MiniApp.trace m' = MiniApp.trace Demo.mem0 ++ events /\
    eos_calls events = 1 /\
    EOS_Eval_call 0 ∈ events.
Proof.
  apply (eos_called_once_per_partition host_device Demo.allocator
           Demo.app_accept_all 0 4 Demo.density Demo.energy
           [true; true; true; true] 4 0 Demo.mem0 (Some Demo.surrogate)
           Demo.eos);
    [reflexivity | unfold Int.INT_MAX; lia | cbn; lia | cbn; lia | cbn; lia
    | lia | lia | unfold Int.INT_MAX; lia | reflexivity | reflexivity
    | apply outputs_ok_demo].
Defined.

Lemma pack_unpack_round_trip_witness :
  exists Y' X'',
    DataHandler.pack host_device Demo.P 4 [Demo.density; Demo.energy] false
      [[0; 0]; [0; 0]]%Z = (Ok 2, Y') /\
    DataHandler.unpack host_device Demo.P 4 Y' false
      [[5; 6; 7; 8]; [50; 60; 70; 80]]%Z = (Ok tt, X'') /\
    X'' = [[5; 2; 7; 4]; [50; 20; 70; 40]]%Z.
Proof.
  destruct (pack_unpack_round_trip host_device Demo.P 4
              [Demo.density; Demo.energy] [[0; 0]; [0; 0]]%Z
              [[5; 6; 7; 8]; [50; 60; 70; 80]]%Z false)
    as (Y' & X'' & Hpack & Hunpack & _);
    [reflexivity | reflexivity | reflexivity | cbn; lia
    | repeat constructor | repeat constructor | repeat constructor |].
  exists Y', X''. split; [exact Hpack |]. split; [exact Hunpack |].
  vm_compute in Hpack. simplify_eq. vm_compute in Hunpack. by simplify_eq.
Defined.

Lemma index_variant_equivalence_witness :
  exists Y' idx' X'',
    DataHandler.pack host_device Demo.P 4 [Demo.density; Demo.energy] false
      [[0; 0]; [0; 0]]%Z = (Ok 2, Y') /\
    DataHandler.pack_indices host_device Demo.P 4 [Demo.density; Demo.energy]
      false ([9; 9]%Z, [[0; 0]; [0; 0]]%Z) = (Ok 2, (idx', Y')) /\
    DataHandler.unpack host_device Demo.P 4 [[11; 12]; [21; 22]]%Z false
      [[5; 6; 7; 8]; [50; 60; 70; 80]]%Z = (Ok tt, X'') /\
    DataHandler.unpack_indices host_device idx' 2 [[11; 12]; [21; 22]]%Z false
      [[5; 6; 7; 8]; [50; 60; 70; 80]]%Z = (Ok tt, X'').
Proof.
  destruct (index_variant_equivalence host_device Demo.P 4
              [Demo.density; Demo.energy] [[0; 0]; [0; 0]]%Z
              [[5; 6; 7; 8]; [50; 60; 70; 80]]%Z [[11; 12]; [21; 22]]%Z
              [9; 9]%Z false)
    as (Y' & idx' & X'' & Hpack & Hpacki & Hunpack & Hunpacki);
    [reflexivity | reflexivity | reflexivity | reflexivity
    | unfold Int.INT_MAX; cbn; lia | unfold Int.INT_MAX; lia | cbn; lia
    | repeat constructor | repeat constructor | repeat constructor
    | repeat constructor | vm_compute; lia |].
  exists Y', idx', X''. split_and!; assumption.
Defined.

Lemma pack_count_and_order_witness :
  exists Y',
    DataHandler.pack host_device Demo.P 4 [Demo.density; Demo.energy] false
      [[0; 0; 0]; [0; 0; 0]]%Z = (Ok 2, Y') /\
    Y' = [[2; 4; 0]; [20; 40; 0]]%Z.
Proof.
  destruct (pack_count_and_order host_device Demo.P 4
              [Demo.density; Demo.energy] [[0; 0; 0]; [0; 0; 0]]%Z false)
    as (Y' & Hpack & _);
    [reflexivity | reflexivity | cbn; lia | repeat constructor
    | repeat constructor; cbn; lia |].
  exists Y'. split; [exact Hpack |]. vm_compute in Hpack. by simplify_eq.
Defined.

Lemma shape_mismatch_is_fatal_witness :
  DataHandler.pack host_device Demo.P 4 [Demo.density; Demo.energy] false
    [[0; 0]]%Z = (Throw DataHandler.size_mismatch, [[0; 0]]%Z) /\
  is_throw (fst (DataHandler.pack host_device Demo.P 4
                   [Demo.density; Demo.energy] false [[0; 0]; [0]]%Z))
    = false.
Proof.
  split.
  - apply (proj1 (shape_mismatch_is_fatal host_device Demo.P 4 [] 0
                    [Demo.density; Demo.energy] [[0; 0]]%Z false)).
    cbn. lia.
  - apply (proj2 (shape_mismatch_is_fatal host_device Demo.P 4 [] 0
                    [Demo.density; Demo.energy] [[0; 0]; [0]]%Z false)).
    reflexivity.
Defined.

Lemma partition_loop_termination_witness :
  exists step,
    DataHandler.computePartitionSize Int.sizeof_double 2 4 true (2 ^ 24)
      = Ok step /\
    exists fuel m',
      MiniApp.evaluate_inner host_device (2 ^ 24) Demo.allocator Demo.app 0 4
        Demo.density Demo.energy fuel Demo.mem0 = (Ok tt, m').
Proof.
  destruct (partition_loop_termination host_device (2 ^ 24) Demo.allocator
              Demo.app 0 4 Demo.density Demo.energy Demo.mem0
              (Some Demo.uq_even) (Some Demo.surrogate) Demo.eos)
    as (step & Hstep & _ & Hterm & _);
    [reflexivity | unfold Int.INT_MAX; lia | cbn; lia | cbn; lia | lia
    | reflexivity | reflexivity | reflexivity | apply outputs_ok_demo |].
  exists step. split; [exact Hstep |].
  vm_compute in Hstep. simplify_eq.
  apply Hterm; [lia | unfold Int.INT_MAX; lia].
Defined.

Lemma physics_evaluator_required_witness :
  (exists m',
     MiniApp.evaluate_inner host_device (2 ^ 24) Demo.allocator
       Demo.app_no_eos 0 4 Demo.density Demo.energy 1 Demo.mem0
       = (Fault NullDereference, m')) /\
  (exists fuel m',
     MiniApp.evaluate_inner host_device (2 ^ 24) Demo.allocator
       Demo.app_physics_only 0 4 Demo.density Demo.energy fuel Demo.mem0
       = (Ok tt, m')).
Proof.
  split.
  - destruct (proj1 (physics_evaluator_required host_device (2 ^ 24)
                       Demo.allocator Demo.app_no_eos 0 4 Demo.density
                       Demo.energy Demo.mem0 (Some Demo.uq_all)
                       (Some Demo.surrogate)
                       ltac:(unfold Int.INT_MAX; lia)
                       ltac:(cbn; lia) ltac:(cbn; lia) ltac:(lia)
                       ltac:(unfold Int.INT_MAX; lia) eq_refl eq_refl
                       outputs_ok_demo) eq_refl 0) as (m' & Hrun & _).
    by exists m'.
  - apply (proj2 (physics_evaluator_required host_device (2 ^ 24)
                    Demo.allocator Demo.app_physics_only 0 4 Demo.density
                    Demo.energy Demo.mem0 None None
                    ltac:(unfold Int.INT_MAX; lia)
                    ltac:(cbn; lia) ltac:(cbn; lia) ltac:(lia)
                    ltac:(unfold Int.INT_MAX; lia) eq_refl eq_refl
                    outputs_ok_demo) Demo.eos eq_refl eq_refl eq_refl eq_refl);
      [lia | unfold Int.INT_MAX; vm_compute; discriminate].
Defined.

(** ** More on the selected indices *)

Lemma rank_complement (P : list bool) n :
  n <= length P -> rank false P n + rank true P n = n.
Proof.
  induction n as [|n IH]; intros Hn; [done |].
  destruct (lookup_lt_is_Some_2 P n) as [p Hp]; [lia |].
  rewrite !rank_S, Hp. specialize (IH ltac:(lia)).
  destruct p.
  - rewrite decide_False, decide_True by done. lia.
  - rewrite decide_True, decide_False by done. lia.
Qed.

(** The dense position of a selected index is its rank. *)
Lemma picks_lookup_inv dv (P : list bool) n r i :
  picks dv P n !! r = Some i -> rank dv P i = r.
Proof.
  induction n as [|n IH]; [done |].
  rewrite picks_S. intros [Hl|[Hlen Hr]]%lookup_app_Some; [by apply IH |].
  destruct (decide _); [| done].
  apply list_lookup_singleton_Some in Hr as [Hr <-].
  fold (rank dv P n) in *. lia.
Qed.

Lemma picks_all dv (P : list bool) n :
  (forall i, i < n -> P !! i = Some dv) -> picks dv P n = seq 0 n.
Proof.
  intros Hall. induction n as [|n IH]; [done |].
  rewrite picks_S, seq_S, IH, decide_True by (intros; apply Hall; lia). done.
Qed.

Lemma picks_none dv (P : list bool) n :
  (forall i, i < n -> P !! i <> Some dv) -> picks dv P n = [].
Proof.
  intros Hnone. induction n as [|n IH]; [done |].
  rewrite picks_S, IH, decide_False by (intros; apply Hnone; lia). done.
Qed.

Lemma gather_seq {T} (s : list T) a n :
  a + n <= length s -> gather s (seq a n) = take n (drop a s).
Proof.
  revert a. induction n as [|n IH]; intros a Hn; [by rewrite take_0 |].
  destruct (lookup_lt_is_Some_2 s a) as [x Hx]; [lia |].
  unfold gather in *. cbn. rewrite Hx. cbn. rewrite IH by lia.
  rewrite (drop_S _ _ _ Hx). done.
Qed.

Lemma packed_all {T} dv (P : list bool) n (s d : list T) :
  n <= length s ->
  (forall i, i < n -> P !! i = Some dv) ->
  packed dv P n s d = take n s ++ drop n d.
Proof.
  intros Hs Hall. unfold packed, rank.
  rewrite picks_all, gather_seq, length_seq, drop_0 by done. done.
Qed.

Lemma packed_none {T} dv (P : list bool) n (s d : list T) :
  (forall i, i < n -> P !! i <> Some dv) -> packed dv P n s d = d.
Proof.
  intros Hnone. unfold packed, rank. by rewrite picks_none.
Qed.

Lemma unpacked_none {T} dv (P : list bool) n (d s : list T) :
  (forall i, i < n -> P !! i <> Some dv) -> unpacked dv P n d s = s.
Proof.
  intros Hnone. unfold unpacked. by rewrite picks_none.
Qed.

(** What [scatter_from] leaves in a cell: the dense cell of the last
    position of the index list that names it, or the old cell when none
    does. *)
Lemma scatter_from_lookup_notin {T} (d : list T) r idx s q :
  q ∉ idx -> scatter_from d r idx s !! q = s !! q.
Proof.
  revert r s. induction idx as [|k idx IH]; intros r s Hq; [done |].
  apply not_elem_of_cons in Hq as [Hne Hq]. cbn. rewrite IH by done.
  unfold put_cell. destruct (d !! r); [| done].
  by rewrite list_lookup_insert_ne.
Qed.

Lemma scatter_from_lookup_last {T} (d : list T) r idx s i q :
  r + length idx <= length d ->
  q < length s ->
  idx !! i = Some q ->
  (forall i', i < i' -> idx !! i' <> Some q) ->
  scatter_from d r idx s !! q = d !! (r + i).
Proof.
  revert r s i. induction idx as [|k idx IH]; intros r s i Hd Hq Hi Hlast;
    [done |].
  cbn in Hd. destruct i as [|i]; cbn in Hi.
  - simplify_eq. cbn. rewrite scatter_from_lookup_notin.
    + destruct (lookup_lt_is_Some_2 d r) as [x Hx]; [lia |].
      unfold put_cell. rewrite Hx, Nat.add_0_r.
      by rewrite list_lookup_insert_eq.
    + intros [i' Hi']%list_elem_of_lookup.
      by apply (Hlast (S i')); [lia |].
  - cbn. rewrite (IH (S r) _ i); [f_equal; lia | lia | | done |].
    + by rewrite length_put_cell.
    + intros i' Hi'. apply (Hlast (S i')). lia.
Qed.

(** Selection in a view [&P[a]]. *)
Lemma rank_drop dv (P : list bool) a n :
  rank dv P a + rank dv (drop a P) n = rank dv P (a + n).
Proof.
  induction n as [|n IH].
  { replace (a + 0) with a by lia. change (rank dv (drop a P) 0) with 0. lia. }
  rewrite Nat.add_succ_r, !rank_S, lookup_drop, <- IH.
  destruct (decide _); lia.
Qed.

(** ** Further properties of [pack] and [unpack] *)

Section PackingProperties.
Context {V : Type}.
Variable dev : Device V.
Implicit Types (P : list bool) (dv : bool) (X Y D : list (list V)).

(** X1. On the host, the samples that a [pack] with [denseVal = false] selects
    and those that a [pack] with [denseVal = true] selects are all the [n]
    samples: the two counts add up to [n]. *)
Theorem pack_counts_complementary P n X Y0 Y1 :
  isDeviceExecution dev = false ->
  length X = length Y0 ->
  length X = length Y1 ->
  n <= length P ->
  Forall (fun x => n <= length x) X ->
  Forall (fun y => n <= length y) Y0 ->
  Forall (fun y => n <= length y) Y1 ->
  exists k0 k1 Y0' Y1',
    DataHandler.pack dev P n X false Y0 = (Ok k0, Y0') /\
    DataHandler.pack dev P n X true Y1 = (Ok k1, Y1') /\
    k0 + k1 = n.
Proof.
  intros Hhost H0 H1 HP HX HY0 HY1.
  exists (rank false P n), (rank true P n). eexists _, _.
  split_and!.
  - apply pack_host; try done.
    eapply Forall_impl; [exact HY0 |]. intros y Hy. cbn in *.
    pose proof (rank_le false P n). lia.
  - apply pack_host; try done.
    eapply Forall_impl; [exact HY1 |]. intros y Hy. cbn in *.
    pose proof (rank_le true P n). lia.
  - by apply rank_complement.
Qed.


(** X3. On the host, unpacking dense buffers [D] into sparse buffers and packing
    these again with the same predicate gives back [D]: the first cells of
    the packed buffers, as many as there are selected samples, are those of
    [D], and the cells after them are not written. *)
Theorem unpack_pack_round_trip P n D X Y dv :
  isDeviceExecution dev = false ->
  length X = length D ->
  length X = length Y ->
  n <= length P ->
  Forall (fun x => n <= length x) X ->
  Forall (fun d => rank dv P n <= length d) D ->
  Forall (fun y => rank dv P n <= length y) Y ->
  exists X' Y',
    DataHandler.unpack dev P n D dv X = (Ok tt, X') /\
    DataHandler.pack dev P n X' dv Y = (Ok (rank dv P n), Y') /\
    length Y' = length Y /\
    forall j d y y',
      D !! j = Some d -> Y !! j = Some y -> Y' !! j = Some y' ->
      length y' = length y /\
      forall r, y' !! r = if decide (r < rank dv P n) then d !! r else y !! r.
Proof.
  intros Hhost HXD HXY HP HX HD HY.
  assert (HX' : Forall (fun x => n <= length x)
                  (zip_with (unpacked dv P n) D X)).
  { apply Forall_zip_with_r. intros j d x Hd Hx.
    pose proof (Forall_lookup_1 _ _ _ _ HX Hx). cbn in *.
    by rewrite length_unpacked. }
  eexists _, _. split; [by apply unpack_host |].
  split; [apply pack_host; try done; rewrite length_zip_with; lia |].
  split; [rewrite !length_zip_with; lia |].
  intros j d y y' Hd Hy Hy'.
  apply lookup_zip_with_Some in Hy' as (x' & y0 & -> & Hx' & Hy0).
  apply lookup_zip_with_Some in Hx' as (d0 & x & -> & Hd0 & Hx).
  simplify_eq.
  pose proof (Forall_lookup_1 _ _ _ _ HX Hx) as Hnx.
  pose proof (Forall_lookup_1 _ _ _ _ HD Hd) as Hnd.
  pose proof (Forall_lookup_1 _ _ _ _ HY Hy) as Hny. cbn in *.
  split; [apply length_packed; rewrite ?length_unpacked; lia |].
  intros r. destruct (decide (r < rank dv P n)) as [Hr|Hr].
  - destruct (lookup_lt_is_Some_2 (picks dv P n) r) as [i Hi]; [done |].
    rewrite (packed_lookup_picks dv P n _ _ r i)
      by (rewrite ?length_unpacked; done).
    pose proof (picks_lookup_inv _ _ _ _ _ Hi) as Hri.
    apply list_elem_of_lookup_2, elem_of_picks in Hi as [Hi HPi].
    rewrite unpacked_lookup, decide_True by done. by rewrite Hri.
  - apply packed_lookup_ge; rewrite ?length_unpacked; lia.
Qed.

(** X4. The two extreme predicates, on the host.  When every sample below [n] is
    selected, [pack] returns [n] and copies the first [n] cells of each
    sparse buffer; when none is, [pack] returns [0] and neither [pack] nor
    [unpack] writes any cell.  The latter covers [n = 0]. *)
Theorem pack_all_or_none P n X Y dv :
  isDeviceExecution dev = false ->
  length X = length Y ->
  n <= length P ->
  Forall (fun x => n <= length x) X ->
  Forall (fun y => rank dv P n <= length y) Y ->
  ((forall i, i < n -> P !! i = Some dv) ->
     DataHandler.pack dev P n X dv Y =
       (Ok n, zip_with (fun x y => take n x ++ drop n y) X Y)) /\
  ((forall i, i < n -> P !! i <> Some dv) ->
     DataHandler.pack dev P n X dv Y = (Ok 0, Y) /\
     DataHandler.unpack dev P n Y dv X = (Ok tt, X)).
Proof.
  intros Hhost HXY HP HX HY. split.
  - intros Hall. rewrite pack_host by done. f_equal.
    + unfold rank. by rewrite picks_all, length_seq.
    + apply zip_with_ext_lookup. intros j x y Hx _.
      pose proof (Forall_lookup_1 _ _ _ _ HX Hx). by apply packed_all.
  - intros Hnone. split.
    + rewrite pack_host by done. f_equal.
      * unfold rank. by rewrite picks_none.
      * apply zip_with_id_r; [done |]. intros j x y _ _. by apply packed_none.
    + rewrite unpack_host by done. f_equal.
      apply zip_with_id_r; [done |]. intros j y x _ _. by apply unpacked_none.
Qed.

(** X5. On the host, the [unpack] driven by an index table writes
    [sparse[j][sparse_indices[i]] = dense[j][i]] for [i < nPacked] in
    ascending order of [i]: a cell that the table names holds the dense cell
    of the last position that names it, and a cell that the table does not
    name is left as it was. *)
Theorem unpack_indices_writes (sidx : list Z) nPacked D X dv :
  isDeviceExecution dev = false ->
  length X = length D ->
  (Z.of_nat (length X) <= Int.INT_MAX)%Z ->
  nPacked <= length sidx ->
  Forall (fun d => nPacked <= length d) D ->
  Forall (fun k => (0 <= k)%Z /\ Forall (fun x => Z.to_nat k < length x) X)
    (take nPacked sidx) ->
  exists X',
    DataHandler.unpack_indices dev sidx nPacked D dv X = (Ok tt, X') /\
    length X' = length X /\
    forall j d x x',
      D !! j = Some d -> X !! j = Some x -> X' !! j = Some x' ->
      length x' = length x /\
      (forall i k, i < nPacked -> sidx !! i = Some k ->
         (forall i', i < i' -> i' < nPacked -> sidx !! i' <> Some k) ->
         x' !! Z.to_nat k = d !! i) /\
      (forall q, Z.of_nat q ∉ take nPacked sidx -> x' !! q = x !! q).
Proof.
  intros Hhost HXD Hdims Hn HD Hk.
  eexists. split; [by apply unpack_indices_host |].
  split; [rewrite length_zip_with; lia |].
  intros j d x x' Hd Hx Hx'.
  apply lookup_zip_with_Some in Hx' as (d0 & x0 & -> & Hd0 & Hx0).
  simplify_eq.
  pose proof (Forall_lookup_1 _ _ _ _ HD Hd) as Hnd. cbn in Hnd.
  split; [apply length_scatter_from |]. split.
  - intros i k Hi Hki Hlast.
    assert (Hin : take nPacked sidx !! i = Some k)
      by by rewrite lookup_take_lt.
    destruct (Forall_lookup_1 _ _ _ _ Hk Hin) as [Hk0 Hkx].
    pose proof (Forall_lookup_1 _ _ _ _ Hkx Hx) as Hkl. cbn in Hkl.
    rewrite (scatter_from_lookup_last d 0 _ x i); [done | | done | |].
    + rewrite length_fmap, length_take. lia.
    + by rewrite list_lookup_fmap, Hin.
    + intros i' Hi' Hk'. rewrite list_lookup_fmap in Hk'.
      destruct (take nPacked sidx !! i') as [k'|] eqn:Hk''; [| done].
      cbn in Hk'. simplify_eq.
      pose proof (lookup_lt_Some _ _ _ Hk'') as Hlt.
      rewrite length_take in Hlt.
      destruct (Forall_lookup_1 _ _ _ _ Hk Hk'') as [Hk0' _].
      rewrite lookup_take_lt in Hk'' by lia.
      apply (Hlast i'); [lia | lia |]. rewrite Hk''. f_equal. lia.
  - intros q Hq. apply scatter_from_lookup_notin.
    intros (k & -> & Hkin)%list_elem_of_fmap.
    pose proof (proj1 (Forall_forall _ _) Hk k Hkin) as [Hk0 _].
    apply Hq. by rewrite Z2Nat.id.
Qed.
End PackingProperties.

(** ** Packing in chunks *)

Lemma put_cell_view {T} (l s d : list T) a b n :
  put_cell a b (drop n s) d = put_cell (n + a) b s d /\
  put_cell a (length l + b) s (l ++ d) = l ++ put_cell a b s d.
Proof.
  unfold put_cell. rewrite lookup_drop. split; [done |].
  destruct (s !! a); [| done].
  by rewrite insert_app_r.
Qed.

(** Packing [n1 + n2] cells is packing the first [n1] and then the next
    [n2] through the views [&s[n1]] and [&d[rank n1]]. *)
Lemma packed_chunks {T} dv (P : list bool) n1 n2 (s d : list T) :
  n1 + n2 <= length s ->
  rank dv P (n1 + n2) <= length d ->
  packed dv P (n1 + n2) s d =
    take (rank dv P n1) (packed dv P n1 s d)
      ++ packed dv (drop n1 P) n2 (drop n1 s)
           (drop (rank dv P n1) (packed dv P n1 s d)).
Proof.
  intros Hs. induction n2 as [|n2 IH]; intros Hd.
  - rewrite Nat.add_0_r. unfold packed at 3.
    change (rank dv (drop n1 P) 0) with 0. cbn. rewrite drop_0.
    by rewrite take_drop.
  - pose proof (rank_mono dv P (n1 + n2) (n1 + S n2) ltac:(lia)) as Hm.
    pose proof (rank_mono dv P n1 (n1 + n2) ltac:(lia)) as Hm1.
    assert (Hl1 : length (packed dv P n1 s d) = length d)
      by (apply length_packed; lia).
    destruct (decide (P !! (n1 + n2) = Some dv)) as [Hsel|Hsel].
    + assert (Hlt : rank dv P (n1 + n2) < rank dv P (n1 + S n2)).
      { apply rank_lt; [lia | done]. }
      rewrite Nat.add_succ_r, <- packed_step by (done || lia).
      rewrite IH by lia.
      rewrite <- packed_step;
        [| by rewrite lookup_drop
         | rewrite length_drop; lia
         | rewrite length_drop, Hl1;
           pose proof (rank_drop dv P n1 n2); lia].
      destruct (put_cell_view [] s
                  (packed dv (drop n1 P) n2 (drop n1 s)
                     (drop (rank dv P n1) (packed dv P n1 s d)))
                  n2 (rank dv (drop n1 P) n2) n1) as [Hview _].
      rewrite Hview.
      destruct (put_cell_view (take (rank dv P n1) (packed dv P n1 s d)) s
                  (packed dv (drop n1 P) n2 (drop n1 s)
                     (drop (rank dv P n1) (packed dv P n1 s d)))
                  (n1 + n2) (rank dv (drop n1 P) n2) 0) as [_ Happ].
      rewrite length_take, Nat.min_l in Happ by lia.
      by rewrite <- Happ, rank_drop.
    + rewrite Nat.add_succ_r, packed_skip by done.
      rewrite (packed_skip dv (drop n1 P)) by by rewrite lookup_drop.
      apply IH; lia.
Qed.

Section PackingInChunks.
Context {V : Type}.
Variable dev : Device V.

(** X6. On the host, packing [n1 + n2] samples at once gives the same count and
    the same dense buffers as packing the first [n1] and then the next [n2]
    through the pointers [&predicate[n1]], [&sparse[j][n1]] and
    [&dense[j][k1]], where [k1] is the count of the first call: the counts
    add up and the second call appends to the dense cells of the first. *)
Theorem pack_in_chunks (P : list bool) n1 n2 (X Y : list (list V)) dv :
  isDeviceExecution dev = false ->
  length X = length Y ->
  n1 + n2 <= length P ->
  Forall (fun x => n1 + n2 <= length x) X ->
  Forall (fun y => rank dv P (n1 + n2) <= length y) Y ->
  exists k1 k2 Y1 Y2,
    DataHandler.pack dev P n1 X dv Y = (Ok k1, Y1) /\
    DataHandler.pack dev (drop n1 P) n2 (drop n1 <$> X) dv (drop k1 <$> Y1)
      = (Ok k2, Y2) /\
    DataHandler.pack dev P (n1 + n2) X dv Y =
      (Ok (k1 + k2), zip_with (fun y1 y2 => take k1 y1 ++ y2) Y1 Y2).
Proof.
  intros Hhost HXY HP HX HY.
  pose proof (rank_mono dv P n1 (n1 + n2) ltac:(lia)) as Hm.
  pose proof (rank_drop dv P n1 n2) as Hrd.
  assert (HY1 : Forall (fun y => rank dv P n1 <= length y) Y).
  { eapply Forall_impl; [exact HY |]. intros y Hy. cbn in *. lia. }
  assert (HX1 : Forall (fun x => n1 <= length x) X).
  { eapply Forall_impl; [exact HX |]. intros x Hx. cbn in *. lia. }
  eexists _, _, _, _. split; [apply pack_host; (done || lia) |].
  split.
  { apply pack_host; try done.
    - by rewrite !length_fmap, length_zip_with, HXY, Nat.min_id.
    - rewrite length_drop. lia.
    - apply Forall_fmap. eapply Forall_impl; [exact HX |].
      intros x Hx. cbn in *. rewrite length_drop. lia.
    - apply Forall_fmap. apply Forall_zip_with_r. intros j x y Hx Hy.
      pose proof (Forall_lookup_1 _ _ _ _ HX Hx) as Hlx.
      pose proof (Forall_lookup_1 _ _ _ _ HY Hy) as Hly.
      cbn beta in Hlx, Hly. unfold compose. cbn beta.
      rewrite length_drop, length_packed by lia. lia. }
  rewrite pack_host by done. rewrite <- Hrd. f_equal.
  apply list_eq. intros j. rewrite !lookup_zip_with.
  rewrite !list_lookup_fmap, !lookup_zip_with.
  destruct (X !! j) as [x|] eqn:Hx; [| done].
  destruct (Y !! j) as [y|] eqn:Hy; [| done]. cbn. f_equal.
  pose proof (Forall_lookup_1 _ _ _ _ HX Hx) as Hlx.
  pose proof (Forall_lookup_1 _ _ _ _ HY Hy) as Hly.
  cbn beta in Hlx, Hly. by apply packed_chunks.
Qed.
End PackingInChunks.

(** ** Further properties of [computePartitionSize] *)

Section PartitionSizingEdges.
Local Open Scope Z_scope.

(** With non-negative feature counts whose byte size fits [int] and a
    non-negative budget, the first steps of [computePartitionSize] compute
    [sizeof(TypeValue) * (numIFeatures + numOFeatures)] exactly. *)
Lemma computePartitionSize_unfold (sizeof_V pSize n_in n_out : Z)
    (includeReIndex : bool) :
  0 <= n_in + n_out <= Int.INT_MAX ->
  0 <= sizeof_V * (n_in + n_out) <= Int.INT_MAX ->
  DataHandler.computePartitionSize sizeof_V n_in n_out includeReIndex pSize =
    if includeReIndex then
      match Int.udiv (Int.to_size_t pSize)
              (Int.to_size_t (sizeof_V * (n_in + n_out) + Int.sizeof_int))
      with
      | Ok q => Ok (Int.to_int q)
      | Throw e => Throw e
      | Fault f => Fault f
      | OutOfFuel => OutOfFuel
      end
    else Int.div pSize (sizeof_V * (n_in + n_out)).
Proof.
  unfold Int.INT_MAX. intros Hsum Hprod.
  unfold DataHandler.computePartitionSize, Int.add, Int.in_int,
    Int.INT_MIN, Int.INT_MAX.
  rewrite (proj2 (andb_true_iff _ _)) by (split; lia).
  rewrite (to_size_t_id (n_in + n_out)) by lia.
  rewrite (to_size_t_id (sizeof_V * _)) by lia.
  rewrite to_int_id by (unfold Int.INT_MIN, Int.INT_MAX; lia).
  by rewrite (to_size_t_id (sizeof_V * _)) by lia.
Qed.

(** X7. The partition that [computePartitionSize] returns fits the budget and
    is the largest that does: with [bytes] the size of one sample (the
    features, plus an [int] when [includeReIndex] is set), positive and
    within [int], and a budget that is a non-negative [int], the result [r]
    satisfies [r * bytes <= pSize < (r + 1) * bytes]. *)
Theorem computePartitionSize_fits_budget
    (sizeof_V pSize n_in n_out : Z) (includeReIndex : bool) :
  let bytes :=
    sizeof_V * (n_in + n_out) + (if includeReIndex then Int.sizeof_int else 0) in
  0 < sizeof_V ->
  0 <= n_in -> 0 <= n_out ->
  0 <= pSize <= Int.INT_MAX ->
  0 < bytes <= Int.INT_MAX ->
  exists r,
    DataHandler.computePartitionSize sizeof_V n_in n_out includeReIndex pSize
      = Ok r /\
    0 <= r /\ r * bytes <= pSize < (r + 1) * bytes.
Proof.
  intros bytes Hsz Hin Hout Hbudget Hbytes. subst bytes.
  unfold Int.INT_MAX, Int.sizeof_int in *.
  assert (Hsum : n_in + n_out <= sizeof_V * (n_in + n_out)) by nia.
  assert (Hprod : 0 <= sizeof_V * (n_in + n_out) <= 2 ^ 31 - 1)
    by (destruct includeReIndex; nia).
  rewrite computePartitionSize_unfold by (unfold Int.INT_MAX; lia).
  set (b := sizeof_V * (n_in + n_out)) in *.
  destruct includeReIndex.
  - unfold Int.udiv, Int.sizeof_int.
    rewrite (to_size_t_id (_ + 4)) by lia.
    rewrite (to_size_t_id pSize) by lia.
    rewrite (proj2 (Z.eqb_neq _ _)) by lia.
    assert (0 <= pSize / (b + 4) <= pSize).
    { split; [apply Z.div_pos; lia | apply Z.div_le_upper_bound; nia]. }
    exists (pSize / (b + 4)). split.
    { f_equal. apply to_int_id. unfold Int.INT_MIN, Int.INT_MAX. lia. }
    split; [lia |].
    pose proof (Z.mul_div_le pSize (b + 4) ltac:(lia)).
    pose proof (Z.mul_succ_div_gt pSize (b + 4) ltac:(lia)). lia.
  - unfold Int.div, Int.in_int, Int.INT_MIN, Int.INT_MAX.
    rewrite Z.add_0_r in *.
    rewrite (proj2 (Z.eqb_neq _ _)) by lia.
    rewrite Z.quot_div_nonneg by lia.
    assert (0 <= pSize / b <= pSize).
    { split; [apply Z.div_pos; lia | apply Z.div_le_upper_bound; nia]. }
    rewrite (proj2 (andb_true_iff _ _)) by (split; lia).
    exists (pSize / b). split; [done |]. split; [lia |].
    pose proof (Z.mul_div_le pSize b ltac:(lia)).
    pose proof (Z.mul_succ_div_gt pSize b ltac:(lia)). lia.
Qed.

(** X8. With no feature at all, [computePartitionSize] divides by zero when
    [includeReIndex] is unset, whatever the budget; when it is set, the
    sample is the [int] of the re-index vector and the result is a fourth of
    the budget. *)
Theorem computePartitionSize_no_feature (sizeof_V pSize n_in n_out : Z) :
  n_in + n_out = 0 ->
  DataHandler.computePartitionSize sizeof_V n_in n_out false pSize =
    Fault DivisionByZero /\
  (0 <= pSize <= Int.INT_MAX ->
   DataHandler.computePartitionSize sizeof_V n_in n_out true pSize =
     Ok (pSize / 4)).
Proof.
  intros Hz.
  rewrite !computePartitionSize_unfold
    by (rewrite Hz; unfold Int.INT_MAX; lia).
  rewrite Hz, Z.mul_0_r. split; [done |].
  unfold Int.INT_MAX. intros Hbudget.
  unfold Int.udiv, Int.sizeof_int.
  rewrite (to_size_t_id (0 + 4)), (to_size_t_id pSize) by lia.
  cbn [Z.add Z.eqb]. cbv iota. f_equal. apply to_int_id.
  unfold Int.INT_MIN, Int.INT_MAX.
  assert (0 <= pSize / 4 <= pSize).
  { split; [apply Z.div_pos; lia | apply Z.div_le_upper_bound; lia]. }
  lia.
Qed.

(** X9. For a [TypeValue] whose size is a multiple of 8, as [double] is, the
    call with [includeReIndex] set (the default) never divides by zero and
    returns an [int], whatever the feature counts and the budget, as long as
    the sum of the feature counts does not overflow. *)
Theorem computePartitionSize_reindex_returns (sizeof_V pSize n_in n_out : Z) :
  sizeof_V mod 8 = 0 ->
  Int.INT_MIN <= n_in + n_out <= Int.INT_MAX ->
  exists r,
    DataHandler.computePartitionSize sizeof_V n_in n_out true pSize = Ok r /\
    Int.INT_MIN <= r <= Int.INT_MAX.
Proof.
  intros H8 Hsum.
  unfold DataHandler.computePartitionSize, Int.add, Int.in_int.
  rewrite (proj2 (andb_true_iff _ _)) by (split; lia).
  unfold Int.udiv.
  set (seb := Int.to_int (Int.to_size_t (sizeof_V * Int.to_size_t (n_in + n_out)))).
  assert (Hne : Int.to_size_t (Int.to_size_t seb + Int.sizeof_int) <> 0).
  { subst seb. unfold Int.to_int, Int.to_size_t, Int.SIZE_MOD, Int.sizeof_int.
    set (F := (n_in + n_out) mod 2 ^ 64).
    apply Z.mod_divide in H8 as [c ->]; [| lia].
    replace (c * 8 * F) with (8 * (c * F)) by lia.
    set (t := c * F). clearbody t. clear.
    intros Hz.
    change (2 ^ 64) with 18446744073709551616 in *.
    change (2 ^ 32) with 4294967296 in *.
    change (2 ^ 31) with 2147483648 in *.
    Z.div_mod_to_equations. lia. }
  rewrite (proj2 (Z.eqb_neq _ _)) by done.
  eexists. split; [reflexivity |]. apply to_int_range.
Qed.
End PartitionSizingEdges.

(** ** Casting and linearizing *)

(** [std::transform] over [n] cells writes the images of the first [n]
    source cells and nothing else. *)
Lemma transform_spec {A B} (n : nat) (src : list A) (f : A -> B)
    (dest : list B) :
  n <= length src -> n <= length dest ->
  transform n src f dest = (Ok tt, (f <$> take n src) ++ drop n dest).
Proof.
  intros Hs Hd. unfold transform.
  edestruct (for_loop_inv
    (fun i cur => cur = (f <$> take i src) ++ drop i dest))
    as (cur & -> & Hcur).
  - done.
  - intros i cur Hi ->.
    destruct (lookup_lt_is_Some_2 src i) as [x Hx]; [lia |].
    destruct (lookup_lt_is_Some_2 dest i) as [y Hy]; [lia |].
    assert (Hl : length (f <$> take i src) = i)
      by (rewrite length_fmap, length_take; lia).
    eexists. split.
    + unfold bind, lift, load, store. rewrite Hx.
      rewrite decide_True; [reflexivity |].
      rewrite length_app, Hl, length_drop. lia.
    + rewrite insert_app_r_alt, Hl, Nat.sub_diag by lia.
      rewrite (drop_S _ _ _ Hy), (take_S_r _ _ _ Hx), fmap_app.
      cbn. by rewrite <- app_assoc.
  - cbn in Hcur. by rewrite Hcur.
Qed.

(** A source shorter than [n] makes [std::transform] read past its end. *)
Lemma transform_short {A B} (n : nat) (src : list A) (f : A -> B)
    (dest : list B) :
  length src < n -> length src <= length dest ->
  exists dest', transform n src f dest = (Fault OutOfBounds, dest').
Proof.
  intros Hs Hd. unfold transform.
  assert (Hgen : forall cnt i cur,
    i <= length src -> length src < i + cnt -> length cur = length dest ->
    exists dest',
      for_loop cnt i (fun i => bind (lift (load src i))
                                 (fun x => store i (f x))) cur =
        (Fault OutOfBounds, dest')).
  { induction cnt as [|cnt IH]; intros i cur Hi Hc Hl; [lia |].
    cbn [for_loop]. unfold bind at 1.
    destruct (decide (i = length src)) as [->|Hne].
    - unfold bind, lift, load. rewrite lookup_ge_None_2 by lia. eauto.
    - destruct (lookup_lt_is_Some_2 src i) as [x Hx]; [lia |].
      unfold bind at 1, lift, load, store. rewrite Hx.
      rewrite decide_True by lia.
      apply IH; [lia | lia | by rewrite length_insert]. }
  apply Hgen; lia.
Qed.

Lemma run_on_ok {St} (m : M St unit) (s s' : St) :
  m s = (Ok tt, s') -> run_on m s = Ok s'.
Proof. intros H. unfold run_on. by rewrite H. Qed.

Lemma length_allocate_typed {T} (content : nat -> T) n :
  length (allocate_typed content n) = n.
Proof. apply length_allocated. Qed.

Section Casting.
Context {T TypeValue : Type}.
Variable content : nat -> TypeValue.
Variable cast : T -> TypeValue.
Variable back : TypeValue -> T.

(** X10. [cast_to_typevalue] on [n] cells that exist returns a buffer of [n]
    cells, the casts of the source cells in order, whatever the content of
    the fresh buffer; [cast_from_typevalue] then writes their casts back
    over the first [n] cells of the destination and leaves its other cells
    as they were.  When casting back undoes the cast on the source values,
    the destination starts with the [n] source cells. *)
Theorem cast_round_trip (n : nat) (data dest : list T) :
  n <= length data -> n <= length dest ->
  exists fdata dest',
    cast_to_typevalue content cast n data = Ok fdata /\
    fdata = cast <$> take n data /\
    cast_from_typevalue back n fdata dest = (Ok tt, dest') /\
    length dest' = length dest /\
    (forall i, n <= i -> dest' !! i = dest !! i) /\
    (forall i x, i < n -> data !! i = Some x ->
       dest' !! i = Some (back (cast x))) /\
    (Forall (fun x => back (cast x) = x) (take n data) ->
     dest' = take n data ++ drop n dest).
Proof.
  intros Hdata Hdest.
  assert (Hto : cast_to_typevalue content cast n data =
                Ok (cast <$> take n data)).
  { unfold cast_to_typevalue.
    rewrite (run_on_ok _ _ ((cast <$> take n data)
               ++ drop n (allocate_typed content n))).
    - by rewrite drop_ge, app_nil_r by by rewrite length_allocate_typed.
    - apply transform_spec; [done | by rewrite length_allocate_typed]. }
  assert (Hlen : length (cast <$> take n data) = n)
    by (rewrite length_fmap, length_take; lia).
  eexists _, _. split; [exact Hto |]. split; [done |].
  unfold cast_from_typevalue.
  split; [apply transform_spec; [lia | done] |].
  rewrite firstn_all2 by lia.
  assert (Hl2 : length (back <$> (cast <$> take n data)) = n)
    by by rewrite length_fmap.
  split_and!.
  - rewrite length_app, Hl2, length_drop. lia.
  - intros i Hi. rewrite lookup_app_r by lia.
    rewrite Hl2, lookup_drop. f_equal. lia.
  - intros i x Hi Hx. rewrite lookup_app_l by lia.
    by rewrite !list_lookup_fmap, lookup_take_lt, Hx by done.
  - intros Hback. f_equal. rewrite <- list_fmap_compose.
    rewrite <- (list_fmap_id (take n data)) at 2.
    by apply Forall_fmap_ext.
Qed.

(** X11. A source of fewer than [n] cells makes [cast_to_typevalue] read past
    its end. *)
Theorem cast_to_typevalue_short (n : nat) (data : list T) :
  length data < n ->
  cast_to_typevalue content cast n data = Fault OutOfBounds.
Proof.
  intros Hn. unfold cast_to_typevalue.
  destruct (transform_short n data cast (allocate_typed content n))
    as (dest' & Hrun); [done | rewrite length_allocate_typed; lia |].
  unfold run_on. by rewrite Hrun.
Qed.
End Casting.

(** X12. When the data type is [TypeValue] itself, [cast_to_typevalue] hands the
    pointer back without reading a cell, whatever [n], and
    [cast_from_typevalue] copies the first [n] cells to the destination and
    leaves its other cells as they were. *)
Theorem cast_same_type {TypeValue} (n : nat) (data dest : list TypeValue) :
  n <= length data -> n <= length dest ->
  cast_from_typevalue_same n (cast_to_typevalue_same n data) dest =
    (Ok tt, take n data ++ drop n dest).
Proof.
  intros Hdata Hdest. unfold cast_from_typevalue_same, cast_to_typevalue_same.
  rewrite transform_spec by done. by rewrite list_fmap_id.
Qed.

Section Linearize.
Context {T TypeValue : Type}.
Variable content : nat -> TypeValue.
Variable cast : T -> TypeValue.
Variable is_on_device : list T -> bool.
Variable Device_linearize :
  list TypeValue -> list (list T) -> nat -> nat -> list TypeValue.

(** The cell of sample [i] and feature [d] in a linearized buffer. *)
Lemma linear_index_lt ndata nf i d :
  i < ndata -> d < nf -> i * nf + d < ndata * nf.
Proof.
  intros Hi Hd.
  assert ((i + 1) * nf <= ndata * nf) by (apply Nat.mul_le_mono_r; lia). lia.
Qed.

Lemma linear_index_inj nf i d i' d' :
  d < nf -> d' < nf -> i * nf + d = i' * nf + d' -> i = i' /\ d = d'.
Proof.
  intros Hd Hd' Heq.
  destruct (Nat.lt_trichotomy i i') as [Hlt|[->|Hgt]]; [| lia |].
  - assert ((i + 1) * nf <= i' * nf) by (apply Nat.mul_le_mono_r; lia). lia.
  - assert ((i' + 1) * nf <= i * nf) by (apply Nat.mul_le_mono_r; lia). lia.
Qed.

(** The host loops of [linearize_features]. *)
Lemma linearize_host_loop (ndata : nat) (features : list (list T))
    (data : list TypeValue) :
  Forall (fun f => ndata <= length f) features ->
  length data = ndata * length features ->
  exists data',
    for_loop (length features) 0 (fun d =>
      for_loop ndata 0 (fun i =>
        bind (lift (load2 features d i))
          (fun x => store (i * length features + d) (cast x)))) data =
      (Ok tt, data') /\
    length data' = ndata * length features /\
    forall i d f x, i < ndata -> features !! d = Some f -> f !! i = Some x ->
      data' !! (i * length features + d) = Some (cast x).
Proof.
  intros Hf Hlen. set (nf := length features).
  pose (I := fun (d0 i0 : nat) (cur : list TypeValue) =>
    length cur = ndata * nf /\
    forall i d f x, i < ndata -> features !! d = Some f -> f !! i = Some x ->
      d < d0 \/ (d = d0 /\ i < i0) ->
      cur !! (i * nf + d) = Some (cast x)).
  edestruct (for_loop_inv (fun d cur => I d 0 cur)) as (cur & -> & Hl & Hc).
  - split; [exact Hlen |]. intros i d f x _ _ _ Hd. lia.
  - intros d cur Hd HI.
    destruct (lookup_lt_is_Some_2 features d) as [fd Hfd]; [fold nf; lia |].
    pose proof (Forall_lookup_1 _ _ _ _ Hf Hfd) as Hfdl. cbn in Hfdl.
    edestruct (for_loop_inv (fun i cur => I d i cur)) as (cur' & -> & HI').
    + exact HI.
    + intros i cur0 Hi [Hl0 Hc0].
      destruct (lookup_lt_is_Some_2 fd i) as [x Hx]; [lia |].
      pose proof (linear_index_lt ndata nf i d ltac:(lia) ltac:(lia)).
      eexists. split.
      * unfold bind, lift, load2, load, store. rewrite Hfd, Hx.
        rewrite decide_True by lia. reflexivity.
      * split; [by rewrite length_insert |].
        intros i' d' f' x' Hi' Hf' Hx' Hcase.
        pose proof (lookup_lt_Some _ _ _ Hf') as Hd'. fold nf in Hd'.
        destruct (decide (i' = i /\ d' = d)) as [[-> ->]|Hne].
        -- simplify_eq. by rewrite list_lookup_insert_eq by lia.
        -- rewrite list_lookup_insert_ne.
           ++ apply (Hc0 i' d' f' x'); [done | done | done | lia].
           ++ intros Heq. apply linear_index_inj in Heq; [| lia | lia]. lia.
    + eexists. split; [reflexivity |]. destruct HI' as [Hl' Hc'].
      split; [done |]. intros i d' f x Hi Hf' Hx Hcase.
      apply (Hc' i d' f x); [done | done | done |]. lia.
  - eexists. split; [reflexivity |]. split; [done |].
    intros i d f x Hi Hfd Hx.
    pose proof (lookup_lt_Some _ _ _ Hfd).
    apply (Hc i d f x); [done | done | done |]. left. cbn. fold nf. lia.
Qed.

(** X13. For features that live on the host, each with at least [ndata] cells,
    [linearize_features] returns a buffer of [ndata * nfeatures] cells in
    which the cell [i * nfeatures + d] holds the cast of [features[d][i]]:
    the features of one sample are adjacent.  Every cell of the buffer is
    written, so the result does not depend on what the fresh buffer held.
    With an empty vector of features the call reads [features[0]] all the
    same, past the end of the vector. *)
Theorem linearize_features_layout (ndata : nat) (features : list (list T))
    (features_0 : list T) :
  features !! 0 = Some features_0 ->
  is_on_device features_0 = false ->
  Forall (fun f => ndata <= length f) features ->
  (exists data,
     linearize_features content cast is_on_device Device_linearize ndata
       features = Ok data /\
     length data = ndata * length features /\
     (forall i d f x,
        i < ndata -> features !! d = Some f -> f !! i = Some x ->
        data !! (i * length features + d) = Some (cast x)) /\
     (forall k, k < ndata * length features ->
        data !! k =
          cast <$> (features !! (k mod length features)
                      ≫= (.!! (k / length features))))) /\
  linearize_features content cast is_on_device Device_linearize ndata []
    = Fault OutOfBounds.
Proof.
  intros H0 Hhost Hf. split; [| done].
  unfold linearize_features, load. rewrite H0, Hhost. cbn [negb].
  destruct (linearize_host_loop ndata features
              (allocate_typed content (ndata * length features)) Hf)
    as (data & Hrun & Hlen & Hcells); [apply length_allocate_typed |].
  exists data. split; [by apply run_on_ok |]. split; [done |].
  split; [exact Hcells |].
  intros k Hk. set (nf := length features) in *.
  assert (Hnf : 0 < nf) by (destruct nf; lia).
  pose proof (Nat.mod_upper_bound k nf ltac:(lia)) as Hd.
  pose proof (Nat.div_mod_eq k nf) as Hdm.
  assert (Hi : k / nf < ndata).
  { apply Nat.Div0.div_lt_upper_bound. lia. }
  destruct (lookup_lt_is_Some_2 features (k mod nf)) as [f Hfd]; [done |].
  pose proof (Forall_lookup_1 _ _ _ _ Hf Hfd) as Hfl. cbn in Hfl.
  destruct (lookup_lt_is_Some_2 f (k / nf)) as [x Hx]; [lia |].
  rewrite Hfd. cbn. rewrite Hx. cbn.
  rewrite <- (Hcells (k / nf) (k mod nf) f x Hi Hfd Hx). f_equal. lia.
Qed.
End Linearize.

(** ** The partition loop in closed form *)

Lemma output_cell_ext {V} (dev : Device V) alloc num_data pDensity pEnergy P
    step pId s e j (o1 o2 : list V) q :
  o1 !! q = o2 !! q ->
  output_cell dev alloc num_data pDensity pEnergy P step pId s e j o1 q =
  output_cell dev alloc num_data pDensity pEnergy P step pId s e j o2 q.
Proof. intros Ho. unfold output_cell. by rewrite Ho. Qed.

Lemma output_cell_outside {V} (dev : Device V) alloc num_data pDensity
    pEnergy P step pId s e j (o : list V) q :
  ~ (Z.to_nat pId <= q <
       Z.to_nat pId + Z.to_nat (elements_of num_data step pId)) ->
  output_cell dev alloc num_data pDensity pEnergy P step pId s e j o q =
    o !! q.
Proof. intros Hq. unfold output_cell. by rewrite decide_False. Qed.

Lemma partition_start_first step pId q :
  (0 < step)%Z -> (pId <= q < pId + step)%Z -> partition_start step pId q = pId.
Proof.
  intros Hs Hq. unfold partition_start.
  rewrite Z.div_small by lia. lia.
Qed.

Lemma partition_start_next step pId q :
  (0 < step)%Z ->
  partition_start step (pId + step) q = partition_start step pId q.
Proof.
  intros Hs. unfold partition_start.
  replace (q - pId)%Z with ((q - (pId + step)) + 1 * step)%Z by lia.
  rewrite Z.div_add by lia. lia.
Qed.

Lemma partitions_of_app l1 l2 :
  partitions_of (l1 ++ l2) = partitions_of l1 ++ partitions_of l2.
Proof. apply omap_app. Qed.

Lemma eos_samples_app l1 l2 :
  eos_samples (l1 ++ l2) = eos_samples l1 + eos_samples l2.
Proof.
  induction l1 as [|[] l1 IH]; cbn; [done | | | |]; unfold eos_samples in *;
    cbn; lia.
Qed.

Lemma surrogate_samples_app l1 l2 :
  surrogate_samples (l1 ++ l2) =
    (surrogate_samples l1 + surrogate_samples l2)%Z.
Proof.
  induction l1 as [|[] l1 IH]; cbn; [done | | | |];
    unfold surrogate_samples in *; cbn; lia.
Qed.

Lemma count_events_app p l1 l2 :
  count_events p (l1 ++ l2) = count_events p l1 + count_events p l2.
Proof. unfold count_events. by rewrite List.filter_app, length_app. Qed.

Section LoopEvents.
Context {V : Type}.
Variable num_data : Z.
Variable P : list bool.
Variable step : Z.
Variable s : option (SurrogateModel V).

Abbreviation events := (loop_events num_data P step s).

Lemma loop_events_done cnt pId : (num_data <= pId)%Z -> events cnt pId = [].
Proof.
  intros Hp. destruct cnt; [done |]. cbn.
  by rewrite (proj2 (Z.ltb_ge _ _)).
Qed.

Lemma loop_events_step cnt pId :
  (pId < num_data)%Z ->
  events (S cnt) pId =
    partition_events num_data P step pId s ++ events cnt (pId + step).
Proof. intros Hp. cbn. by rewrite (proj2 (Z.ltb_lt _ _)). Qed.

Lemma partitions_of_partition_events pId :
  partitions_of (partition_events num_data P step pId s) =
    [(pId, elements_of num_data step pId)].
Proof. unfold partition_events. by destruct s. Qed.

(** The partitions tile the range that is left. *)
Lemma loop_events_tiles cnt : forall pId,
  (1 <= step)%Z -> (pId <= num_data)%Z ->
  Z.to_nat (num_data - pId) <= cnt ->
  tiles step pId num_data (partitions_of (events cnt pId)).
Proof.
  induction cnt as [|cnt IH]; intros pId Hs Hp Hc.
  - cbn. lia.
  - destruct (decide (pId < num_data)%Z) as [Hlt|Hge].
    + rewrite loop_events_step, partitions_of_app,
        partitions_of_partition_events by done.
      cbn. unfold elements_of. split_and!; [done | lia | done |].
      destruct (decide (pId + step <= num_data)%Z).
      * rewrite Z.min_l by lia. apply IH; lia.
      * rewrite Z.min_r, loop_events_done by lia. cbn. lia.
    + rewrite loop_events_done by lia. cbn. lia.
Qed.

(** As many partitions as [step] goes into the range, rounded up. *)
Lemma loop_events_partitions cnt : forall pId,
  (1 <= step)%Z -> (pId <= num_data)%Z ->
  Z.to_nat (num_data - pId) <= cnt ->
  Z.of_nat (length (partitions_of (events cnt pId))) =
    ((num_data - pId + step - 1) / step)%Z.
Proof.
  induction cnt as [|cnt IH]; intros pId Hs Hp Hc.
  - cbn. replace (num_data - pId)%Z with 0%Z by lia.
    rewrite Z.div_small; lia.
  - destruct (decide (pId < num_data)%Z) as [Hlt|Hge].
    + rewrite loop_events_step, partitions_of_app,
        partitions_of_partition_events by done.
      cbn [app length].
      destruct (decide (pId + step <= num_data)%Z).
      * rewrite Nat2Z.inj_succ, IH by lia.
        replace (num_data - pId + step - 1)%Z
          with ((num_data - (pId + step) + step - 1) + 1 * step)%Z by lia.
        rewrite Z.div_add by lia. lia.
      * rewrite loop_events_done by lia. cbn.
        apply Z.div_unique with (r := (num_data - pId - 1)%Z); lia.
    + rewrite loop_events_done by lia. cbn.
      replace (num_data - pId)%Z with 0%Z by lia.
      rewrite Z.div_small; lia.
Qed.

(** Every partition has as many samples as [std::min] leaves it. *)
Lemma loop_events_elements cnt : forall pId,
  Forall (fun p => p.2 = elements_of num_data step p.1)
    (partitions_of (events cnt pId)).
Proof.
  induction cnt as [|cnt IH]; intros pId; [constructor |].
  cbn [loop_events]. destruct (pId <? num_data)%Z; [| constructor].
  rewrite partitions_of_app, partitions_of_partition_events.
  constructor; [done | apply IH].
Qed.

(** The log of the loop is the log of its partitions, one after the
    other. *)
Lemma loop_events_blocks cnt : forall pId,
  events cnt pId =
    concat (map (fun p => partition_events num_data P step p.1 s)
              (partitions_of (events cnt pId))).
Proof.
  induction cnt as [|cnt IH]; intros pId; [done |].
  cbn [loop_events]. destruct (pId <? num_data)%Z; [| done].
  rewrite partitions_of_app, partitions_of_partition_events.
  cbn [app map concat fst]. f_equal. apply IH.
Qed.

(** One call of the physics evaluator per partition, one of the surrogate
    when there is one, and none of the UQ cache. *)
Lemma loop_events_calls cnt : forall pId,
  eos_calls (events cnt pId) = length (partitions_of (events cnt pId)) /\
  count_events is_surrogate_call (events cnt pId) =
    match s with
    | Some _ => length (partitions_of (events cnt pId))
    | None => 0
    end /\
  count_events is_hdcache_call (events cnt pId) = 0.
Proof.
  induction cnt as [|cnt IH]; intros pId; [by destruct s |].
  cbn [loop_events]. destruct (pId <? num_data)%Z; [| by destruct s].
  destruct (IH (pId + step)%Z) as (IH1 & IH2 & IH3).
  rewrite eos_calls_app, !count_events_app, partitions_of_app, length_app,
    IH1, IH2, IH3, partitions_of_partition_events.
  unfold partition_events. by destruct s.
Qed.

(** The physics evaluator receives, over the partitions, the rejected
    samples of the range; the surrogate, when there is one, receives every
    sample of the range. *)
Lemma loop_events_samples cnt : forall pId,
  (1 <= step)%Z -> (0 <= pId <= num_data)%Z ->
  Z.to_nat (num_data - pId) <= cnt ->
  rank false P (Z.to_nat pId) + eos_samples (events cnt pId) =
    rank false P (Z.to_nat num_data) /\
  surrogate_samples (events cnt pId) =
    match s with Some _ => (num_data - pId)%Z | None => 0%Z end.
Proof.
  induction cnt as [|cnt IH]; intros pId Hs Hp Hc.
  - cbn. replace pId with num_data by lia. split; [lia | destruct s; lia].
  - destruct (decide (pId < num_data)%Z) as [Hlt|Hge].
    + rewrite loop_events_step, eos_samples_app, surrogate_samples_app by done.
      assert (He : eos_samples (partition_events num_data P step pId s) =
                   packed_count num_data P step pId)
        by (unfold partition_events; destruct s; cbn; lia).
      assert (Hsu : surrogate_samples (partition_events num_data P step pId s)
                    = match s with
                      | Some _ => elements_of num_data step pId
                      | None => 0%Z
                      end)
        by (unfold partition_events; destruct s; cbn; lia).
      rewrite He, Hsu. unfold packed_count, predicate_of, elements_of.
      rewrite Nat.add_assoc, rank_drop.
      destruct (decide (pId + step <= num_data)%Z).
      * rewrite Z.min_l by lia.
        destruct (IH (pId + step)%Z) as [IH1 IH2]; [lia | lia | lia |].
        rewrite IH2, <- IH1. split; [| destruct s; lia].
        f_equal. f_equal. lia.
      * rewrite Z.min_r, loop_events_done by lia. cbn.
        split; [| destruct s; lia]. rewrite Nat.add_0_r. f_equal. lia.
    + rewrite loop_events_done by lia. cbn.
      replace pId with num_data by lia. split; [lia | destruct s; lia].
Qed.
End LoopEvents.

Section LoopClosedForm.
Context {V : Type}.
Variable dev : Device V.
Variable partitionSize : Z.
Variable alloc : Allocator V.
Variable app : MiniApp.t V.
Variable mat_idx num_data : Z.
Variables pDensity pEnergy : list V.

Hypothesis Hhost : isDeviceExecution dev = false.
Hypothesis Hnum : (num_data <= Int.INT_MAX)%Z.
Hypothesis HD : Z.to_nat num_data <= length pDensity.
Hypothesis HE : Z.to_nat num_data <= length pEnergy.
Hypothesis Hmat : (0 <= mat_idx)%Z.

(** With a positive step and enough fuel the loop returns; its events are
    those of its partitions in order, and every cell of the range that is
    left is as the partition that holds it leaves it. *)
Lemma partition_loop_spec P step s e fuel : forall pId m,
  Z.to_nat num_data <= length P ->
  (1 <= step <= Int.INT_MAX)%Z ->
  (num_data + step <= Int.INT_MAX + 1)%Z ->
  MiniApp.surrogates app !! Z.to_nat mat_idx = Some s ->
  MiniApp.eoses app !! Z.to_nat mat_idx = Some (Some e) ->
  outputs_ok num_data m ->
  (0 <= pId)%Z ->
  Z.to_nat (num_data - pId) <= fuel ->
  exists m',
    MiniApp.partition_loop dev alloc app mat_idx num_data pDensity pEnergy
      fuel P step pId m = (Ok tt, m') /\
    MiniApp.trace m' =
      MiniApp.trace m ++ loop_events num_data P step s fuel pId /\
    length (MiniApp.outputs m') = 4 /\
    forall j o, MiniApp.outputs m !! j = Some o ->
      exists o', MiniApp.outputs m' !! j = Some o' /\
        length o' = length o /\
        forall q, o' !! q =
          if decide (Z.to_nat pId <= q < Z.to_nat num_data) then
            output_cell dev alloc num_data pDensity pEnergy P step
              (partition_start step pId (Z.of_nat q)) s e j o q
          else o !! q.
Proof using Hhost Hnum HD HE Hmat.
  induction fuel as [|fuel IH]; intros pId m HP Hstep Hover Hs He Hok Hpid Hfuel.
  - exists m. cbn [MiniApp.partition_loop].
    rewrite (proj2 (Z.ltb_ge _ _)) by lia.
    split; [done |]. split; [by rewrite app_nil_r |].
    split; [apply Hok |]. intros j o Ho. exists o.
    split; [done |]. split; [done |]. intros q.
    by rewrite decide_False by lia.
  - cbn [MiniApp.partition_loop].
    destruct (Z.ltb_spec pId num_data) as [Hlt|Hge].
    2:{ exists m. rewrite loop_events_done by done.
        split; [done |]. split; [by rewrite app_nil_r |].
        split; [apply Hok |]. intros j o Ho. exists o.
        split; [done |]. split; [done |]. intros q.
        by rewrite decide_False by lia. }
    destruct (partition_spec dev alloc app mat_idx num_data pDensity pEnergy
                P Hhost Hnum HD HE HP Hmat step pId m s e)
      as (m1 & Hrun & Htr1 & Hlen1 & Hcells1);
      [lia | lia | done | done | done |].
    assert (Hok1 : outputs_ok num_data m1).
    { eapply (partition_outputs_ok dev alloc app mat_idx num_data pDensity
                pEnergy Hhost Hnum HD HE Hmat P step pId m m1 s e);
        [exact HP | lia | lia | exact Hs | exact He | exact Hok | exact Hrun]. }
    rewrite (bind_ok _ _ _ _ _ Hrun).
    unfold bind at 1, lift, Int.add, Int.in_int, Int.INT_MIN.
    rewrite (proj2 (andb_true_iff _ _))
      by (unfold Int.INT_MAX in *; split; lia).
    destruct (IH (pId + step)%Z m1) as (m' & Hloop & Htr' & Hlen' & Hcells');
      [done | done | done | done | done | done | lia | lia |].
    exists m'. split; [exact Hloop |].
    split.
    { rewrite Htr', Htr1, <- app_assoc. f_equal.
      by rewrite loop_events_step by done. }
    split; [done |].
    intros j o Ho.
    destruct (Hcells1 j o Ho) as (o1 & Ho1 & Hl1 & Hq1).
    destruct (Hcells' j o1 Ho1) as (o' & Ho' & Hl' & Hq').
    exists o'. split; [done |]. split; [lia |].
    intros q. rewrite Hq'.
    assert (Hel : Z.to_nat (elements_of num_data step pId) <= Z.to_nat step)
      by (unfold elements_of; lia).
    destruct (decide (Z.to_nat (pId + step) <= q < Z.to_nat num_data))
      as [Hin|Hout].
    + rewrite decide_True by lia.
      rewrite partition_start_next by lia.
      apply output_cell_ext. rewrite Hq1.
      apply output_cell_outside. lia.
    + rewrite Hq1.
      destruct (decide (Z.to_nat pId <= q < Z.to_nat num_data)) as [Hin|Hout'].
      * by rewrite partition_start_first by lia.
      * apply output_cell_outside. unfold elements_of. lia.
Qed.

(** Steps 0 and 1 of [evaluate_inner]: the predicate buffer and the event
    they leave. *)
Lemma predicate_buffer_exact h m :
  (0 <= num_data)%Z ->
  MiniApp.hdcaches app !! Z.to_nat mat_idx = Some h ->
  MiniApp.predicate_buffer alloc app mat_idx num_data pDensity pEnergy m =
    (Ok (predicate_after_uq alloc h num_data pDensity pEnergy),
     {| MiniApp.outputs := MiniApp.outputs m;
        MiniApp.trace := MiniApp.trace m ++ uq_events h num_data |}).
Proof using Hnum Hmat.
  clear Hhost HD HE. intros Hpos Hh. unfold MiniApp.predicate_buffer.
  unfold bind at 1, lift.
  rewrite allocate_ok by lia.
  unfold bind at 1, vector_at.
  rewrite (proj2 (Z.ltb_ge _ _)) by lia.
  unfold load. rewrite Hh. destruct h as [hd|].
  - unfold bind at 1, MiniApp.emit. unfold bind at 1, MiniApp.on_scratch.
    unfold write_n. rewrite decide_True by by rewrite length_allocated.
    cbn [snd]. unfold ret.
    by rewrite drop_ge, app_nil_r by by rewrite length_allocated.
  - unfold ret. cbn. rewrite app_nil_r. by destruct m.
Qed.

Lemma length_predicate_after_uq h :
  length (predicate_after_uq alloc h num_data pDensity pEnergy) =
    Z.to_nat num_data.
Proof. destruct h; apply length_allocated. Qed.

(** [evaluate_inner] as its partition loop. *)
Lemma evaluate_inner_unfold h m fuel :
  (0 <= num_data)%Z ->
  MiniApp.hdcaches app !! Z.to_nat mat_idx = Some h ->
  MiniApp.evaluate_inner dev partitionSize alloc app mat_idx num_data
    pDensity pEnergy fuel m =
  MiniApp.partition_loop dev alloc app mat_idx num_data pDensity pEnergy fuel
    (predicate_after_uq alloc h num_data pDensity pEnergy)
    (Int.to_int (Int.to_size_t partitionSize / 52)) 0
    {| MiniApp.outputs := MiniApp.outputs m;
       MiniApp.trace := MiniApp.trace m ++ uq_events h num_data |}.
Proof using Hnum Hmat.
  clear Hhost HD HE. intros Hpos Hh. unfold MiniApp.evaluate_inner.
  rewrite (bind_ok _ _ _ _ _ (predicate_buffer_exact h m Hpos Hh)).
  unfold bind at 1, lift. by rewrite computePartitionSize_2_4.
Qed.

(** The step of [evaluate_inner] for a budget that is a non-negative
    [int]. *)
Lemma evaluate_inner_step :
  (0 <= partitionSize <= Int.INT_MAX)%Z ->
  Int.to_int (Int.to_size_t partitionSize / 52) = (partitionSize / 52)%Z /\
  (0 <= partitionSize / 52 <= Int.INT_MAX)%Z.
Proof.
  clear. unfold Int.INT_MAX. intros Hb.
  assert (0 <= partitionSize / 52 <= partitionSize)%Z.
  { split; [apply Z.div_pos; lia | apply Z.div_le_upper_bound; lia]. }
  split; [| lia]. rewrite to_size_t_id by lia.
  apply to_int_id. unfold Int.INT_MIN, Int.INT_MAX. lia.
Qed.

(** A well-formed call of [evaluate_inner] on the host with a budget of at
    least one sample returns, given enough fuel; its events and the cells
    of its outputs in closed form. *)
Lemma evaluate_inner_spec h s e m fuel :
  (0 <= num_data)%Z ->
  (52 <= partitionSize <= Int.INT_MAX)%Z ->
  (num_data + partitionSize / 52 <= Int.INT_MAX + 1)%Z ->
  MiniApp.hdcaches app !! Z.to_nat mat_idx = Some h ->
  MiniApp.surrogates app !! Z.to_nat mat_idx = Some s ->
  MiniApp.eoses app !! Z.to_nat mat_idx = Some (Some e) ->
  outputs_ok num_data m ->
  Z.to_nat num_data <= fuel ->
  let P := predicate_after_uq alloc h num_data pDensity pEnergy in
  let step := (partitionSize / 52)%Z in
  exists m',
    MiniApp.evaluate_inner dev partitionSize alloc app mat_idx num_data
      pDensity pEnergy fuel m = (Ok tt, m') /\
    MiniApp.trace m' =
      MiniApp.trace m ++ uq_events h num_data
        ++ loop_events num_data P step s fuel 0 /\
    length (MiniApp.outputs m') = 4 /\
    forall j o, MiniApp.outputs m !! j = Some o ->
      exists o', MiniApp.outputs m' !! j = Some o' /\
        length o' = length o /\
        forall q, o' !! q =
          if decide (q < Z.to_nat num_data) then
            output_cell dev alloc num_data pDensity pEnergy P step
              (step * (Z.of_nat q / step)) s e j o q
          else o !! q.
Proof using Hhost Hnum HD HE Hmat.
  intros Hpos Hb Hover Hh Hs He Hok Hfuel P step.
  destruct evaluate_inner_step as [Hstep Hrange]; [lia |].
  assert (1 <= step)%Z by (apply Z.div_le_lower_bound; lia).
  rewrite (evaluate_inner_unfold h m fuel Hpos Hh), Hstep. fold P step.
  destruct (partition_loop_spec P step s e fuel 0
              {| MiniApp.outputs := MiniApp.outputs m;
                 MiniApp.trace := MiniApp.trace m ++ uq_events h num_data |})
    as (m' & Hrun & Htr & Hlen & Hcells); try done; try lia.
  { unfold P. rewrite length_predicate_after_uq. lia. }
  exists m'. split; [exact Hrun |].
  split; [rewrite Htr; cbn [MiniApp.trace]; by rewrite <- app_assoc |].
  split; [done |].
  intros j o Ho. destruct (Hcells j o Ho) as (o' & Ho' & Hl & Hq).
  exists o'. split; [done |]. split; [done |]. intros q. rewrite Hq.
  unfold partition_start. rewrite Z.sub_0_r, Z.add_0_l.
  apply decide_ext. cbn. lia.
Qed.
End LoopClosedForm.

(** ** The whole of [evaluate_inner] *)

Section WholeCall.
Context {V : Type}.
Variable dev : Device V.
Variable partitionSize : Z.
Variable alloc : Allocator V.
Variable app : MiniApp.t V.
Variable mat_idx num_data : Z.
Variables pDensity pEnergy : list V.

Hypothesis Hhost : isDeviceExecution dev = false.
Hypothesis Hnum : (num_data <= Int.INT_MAX)%Z.
Hypothesis HD : Z.to_nat num_data <= length pDensity.
Hypothesis HE : Z.to_nat num_data <= length pEnergy.
Hypothesis Hmat : (0 <= mat_idx)%Z.

(** The partition that holds a sample, and the sample's place in it. *)
Lemma sample_partition step q :
  (1 <= step)%Z -> q < Z.to_nat num_data ->
  let pId := (step * (Z.of_nat q / step))%Z in
  (0 <= pId < num_data)%Z /\
  Z.to_nat pId <= q <
    Z.to_nat pId + Z.to_nat (elements_of num_data step pId).
Proof.
  clear. intros Hs Hq pId.
  pose proof (Z.mul_div_le (Z.of_nat q) step ltac:(lia)).
  pose proof (Z.mul_succ_div_gt (Z.of_nat q) step ltac:(lia)).
  assert (0 <= Z.of_nat q / step)%Z by (apply Z.div_pos; lia).
  unfold elements_of. subst pId. split; [nia |]. nia.
Qed.

(** With a pointwise physics evaluator, the cell of a rejected sample of a
    partition depends on the inputs of that sample only. *)
Lemma output_cell_rejected P step pId s e f j (o : list V) q x y :
  Z.to_nat num_data <= length P ->
  (0 <= pId < num_data)%Z -> (0 <= step)%Z ->
  Z.to_nat pId <= q <
    Z.to_nat pId + Z.to_nat (elements_of num_data step pId) ->
  pointwise_eos e f ->
  P !! q = Some false ->
  pDensity !! q = Some x -> pEnergy !! q = Some y ->
  output_cell dev alloc num_data pDensity pEnergy P step pId s e j o q =
    Some (f y x j).
Proof using Hhost HD HE.
  intros HP Hpid Hstep Hq Hf Hp Hx Hy.
  set (off := Z.to_nat pId) in *.
  set (n := Z.to_nat (elements_of num_data step pId)) in *.
  assert (Hn : off + n <= Z.to_nat num_data)
    by (unfold off, n, elements_of; lia).
  assert (Hqo : off + (q - off) = q) by lia.
  unfold output_cell. fold off n.
  rewrite !decide_True by (done || lia). f_equal.
  unfold physics_output.
  rewrite (packed_inputs_of_eq dev alloc num_data pDensity pEnergy P Hhost
             HD HE HP step pId) by lia.
  cbn [lookup list_lookup default from_option id]. fold off n.
  assert (HPq : predicate_of P pId !! (q - off) = Some false)
    by (unfold predicate_of; fold off; by rewrite lookup_drop, Hqo).
  apply Hf.
  - unfold packed_count. fold n. apply rank_lt; [lia | done].
  - rewrite packed_lookup_rank; [by rewrite lookup_drop, Hqo | | lia | done].
    rewrite length_drop. lia.
  - rewrite packed_lookup_rank; [by rewrite lookup_drop, Hqo | | lia | done].
    rewrite length_drop. lia.
Qed.

(** With pointwise evaluators a cell of a partition depends on the inputs
    of its sample only. *)
Lemma output_cell_pointwise P step pId s e g f j (o : list V) q :
  Z.to_nat num_data <= length P ->
  (0 <= pId < num_data)%Z -> (0 <= step)%Z ->
  Z.to_nat pId <= q <
    Z.to_nat pId + Z.to_nat (elements_of num_data step pId) ->
  pointwise_surrogate_opt s g ->
  pointwise_eos e f ->
  output_cell dev alloc num_data pDensity pEnergy P step pId s e j o q =
    pipeline_cell P pDensity pEnergy g f j o q.
Proof using Hhost HD HE.
  intros HP Hpid Hstep Hq Hg Hf.
  assert (Hn : Z.to_nat pId + Z.to_nat (elements_of num_data step pId)
               <= Z.to_nat num_data) by (unfold elements_of; lia).
  destruct (lookup_lt_is_Some_2 P q) as [p Hp]; [lia |].
  destruct (lookup_lt_is_Some_2 pDensity q) as [x Hx]; [lia |].
  destruct (lookup_lt_is_Some_2 pEnergy q) as [y Hy]; [lia |].
  unfold pipeline_cell. rewrite Hp, Hx, Hy.
  destruct p; [| by apply output_cell_rejected].
  unfold output_cell.
  rewrite decide_True by lia. rewrite decide_False by congruence.
  destruct s as [s0|], g as [g0|]; try done. f_equal.
  unfold surrogate_output, sparse_inputs_of.
  apply Hg; [lia | |]; rewrite lookup_drop; by
    replace (Z.to_nat pId + (q - Z.to_nat pId)) with q by lia.
Qed.

(** X14. The partitions do not interfere.  After a well-formed call of
    [evaluate_inner] on the host, with a budget of at least one sample, the
    outputs of a sample [q] are those that the one partition that holds [q],
    which starts at [step * (q / step)], leaves when it is run alone on the
    outputs as they were before the call; cells past [num_data] are not
    written. *)
Theorem partitions_do_not_interfere h s e m fuel :
  (0 <= num_data)%Z ->
  (52 <= partitionSize <= Int.INT_MAX)%Z ->
  (num_data + partitionSize / 52 <= Int.INT_MAX + 1)%Z ->
  MiniApp.hdcaches app !! Z.to_nat mat_idx = Some h ->
  MiniApp.surrogates app !! Z.to_nat mat_idx = Some s ->
  MiniApp.eoses app !! Z.to_nat mat_idx = Some (Some e) ->
  outputs_ok num_data m ->
  Z.to_nat num_data <= fuel ->
  let P := predicate_after_uq alloc h num_data pDensity pEnergy in
  let step := (partitionSize / 52)%Z in
  exists m',
    MiniApp.evaluate_inner dev partitionSize alloc app mat_idx num_data
      pDensity pEnergy fuel m = (Ok tt, m') /\
    length (MiniApp.outputs m') = 4 /\
    forall j o, MiniApp.outputs m !! j = Some o ->
      exists o', MiniApp.outputs m' !! j = Some o' /\
        length o' = length o /\
        (forall q, Z.to_nat num_data <= q -> o' !! q = o !! q) /\
        forall q, q < Z.to_nat num_data ->
          exists m1 o1,
            MiniApp.partition dev alloc app mat_idx num_data pDensity pEnergy
              P step (step * (Z.of_nat q / step)) m = (Ok tt, m1) /\
            MiniApp.outputs m1 !! j = Some o1 /\
            o' !! q = o1 !! q.
Proof using Hhost Hnum HD HE Hmat.
  intros Hpos Hb Hover Hh Hs He Hok Hfuel P step.
  destruct (evaluate_inner_spec dev partitionSize alloc app mat_idx num_data
              pDensity pEnergy Hhost Hnum HD HE Hmat h s e m fuel)
    as (m' & Hrun & _ & Hlen & Hcells); try done.
  assert (Hstep : (1 <= step <= Int.INT_MAX)%Z).
  { destruct (evaluate_inner_step partitionSize) as [_ ?]; [lia |].
    split; [apply Z.div_le_lower_bound; lia | lia]. }
  assert (HP : Z.to_nat num_data <= length P)
    by (unfold P; rewrite length_predicate_after_uq; lia).
  exists m'. split; [exact Hrun |]. split; [done |].
  intros j o Ho. destruct (Hcells j o Ho) as (o' & Ho' & Hl & Hq).
  exists o'. split; [done |]. split; [done |]. split.
  - intros q Hge. rewrite Hq. by rewrite decide_False by lia.
  - intros q Hlt.
    destruct (sample_partition step q ltac:(lia) Hlt) as [Hpid Hin].
    destruct (partition_spec dev alloc app mat_idx num_data pDensity pEnergy
                P Hhost Hnum HD HE HP Hmat step
                (step * (Z.of_nat q / step)) m s e)
      as (m1 & Hrun1 & _ & _ & Hcells1); [done | lia | done | done | done |].
    destruct (Hcells1 j o Ho) as (o1 & Ho1 & _ & Hq1).
    exists m1, o1. split; [exact Hrun1 |]. split; [done |].
    rewrite Hq, Hq1. by rewrite decide_True by done.
Qed.

(** X15. With evaluators that treat every sample by itself, the result of
    [evaluate_inner] does not depend on the partitioning: whatever the
    budget, the fuel and the content of the scratch buffers, the outputs of
    a sample that the predicate accepts are the surrogate's for the inputs
    of that sample (or, without a surrogate, what the buffer held before the
    call), those of a sample it rejects are the physics evaluator's, and the
    cells past [num_data] are as before. *)
Theorem evaluate_inner_pointwise h s e g f m fuel :
  (0 <= num_data)%Z ->
  (52 <= partitionSize <= Int.INT_MAX)%Z ->
  (num_data + partitionSize / 52 <= Int.INT_MAX + 1)%Z ->
  MiniApp.hdcaches app !! Z.to_nat mat_idx = Some h ->
  MiniApp.surrogates app !! Z.to_nat mat_idx = Some s ->
  MiniApp.eoses app !! Z.to_nat mat_idx = Some (Some e) ->
  outputs_ok num_data m ->
  Z.to_nat num_data <= fuel ->
  pointwise_surrogate_opt s g ->
  pointwise_eos e f ->
  exists m',
    MiniApp.evaluate_inner dev partitionSize alloc app mat_idx num_data
      pDensity pEnergy fuel m = (Ok tt, m') /\
    length (MiniApp.outputs m') = 4 /\
    forall j o, MiniApp.outputs m !! j = Some o ->
      exists o', MiniApp.outputs m' !! j = Some o' /\
        length o' = length o /\
        forall q, o' !! q =
          pipeline_cell (predicate_after_uq alloc h num_data pDensity pEnergy)
            pDensity pEnergy g f j o q.
Proof using Hhost Hnum HD HE Hmat.
  intros Hpos Hb Hover Hh Hs He Hok Hfuel Hg Hf.
  set (P := predicate_after_uq alloc h num_data pDensity pEnergy).
  set (step := (partitionSize / 52)%Z).
  destruct (evaluate_inner_spec dev partitionSize alloc app mat_idx num_data
              pDensity pEnergy Hhost Hnum HD HE Hmat h s e m fuel)
    as (m' & Hrun & _ & Hlen & Hcells); try done.
  assert (Hstep : (1 <= step)%Z) by (apply Z.div_le_lower_bound; lia).
  assert (HP : length P = Z.to_nat num_data)
    by (unfold P; apply length_predicate_after_uq).
  exists m'. split; [exact Hrun |]. split; [done |].
  intros j o Ho. destruct (Hcells j o Ho) as (o' & Ho' & Hl & Hq).
  exists o'. split; [done |]. split; [done |]. intros q. rewrite Hq.
  destruct (decide (q < Z.to_nat num_data)) as [Hlt|Hge].
  - destruct (sample_partition step q Hstep Hlt) as [Hpid Hin].
    apply output_cell_pointwise; try done; lia.
  - unfold pipeline_cell. fold P. by rewrite (lookup_ge_None_2 P) by lia.
Qed.

(** X16. Without a surrogate, the outputs of the samples that the predicate
    accepts are never written: after the call they hold what they held
    before it. *)
Theorem accepted_samples_without_surrogate h e m fuel :
  (0 <= num_data)%Z ->
  (52 <= partitionSize <= Int.INT_MAX)%Z ->
  (num_data + partitionSize / 52 <= Int.INT_MAX + 1)%Z ->
  MiniApp.hdcaches app !! Z.to_nat mat_idx = Some h ->
  MiniApp.surrogates app !! Z.to_nat mat_idx = Some None ->
  MiniApp.eoses app !! Z.to_nat mat_idx = Some (Some e) ->
  outputs_ok num_data m ->
  Z.to_nat num_data <= fuel ->
  exists m',
    MiniApp.evaluate_inner dev partitionSize alloc app mat_idx num_data
      pDensity pEnergy fuel m = (Ok tt, m') /\
    forall j o, MiniApp.outputs m !! j = Some o ->
      exists o', MiniApp.outputs m' !! j = Some o' /\
        forall q,
          predicate_after_uq alloc h num_data pDensity pEnergy !! q
            = Some true ->
          o' !! q = o !! q.
Proof using Hhost Hnum HD HE Hmat.
  intros Hpos Hb Hover Hh Hs He Hok Hfuel.
  destruct (evaluate_inner_spec dev partitionSize alloc app mat_idx num_data
              pDensity pEnergy Hhost Hnum HD HE Hmat h None e m fuel)
    as (m' & Hrun & _ & Hlen & Hcells); try done.
  exists m'. split; [exact Hrun |].
  intros j o Ho. destruct (Hcells j o Ho) as (o' & Ho' & Hl & Hq).
  exists o'. split; [done |]. intros q HPq. rewrite Hq.
  destruct (decide _); [| done].
  unfold output_cell. destruct (decide _); [| done].
  rewrite decide_False; [done | congruence].
Qed.

(** X17. The calls of a well-formed [evaluate_inner] on the host.  The UQ cache,
    when there is one, is called once, before anything else, on all the
    samples.  The partitions then tile [0, num_data): each starts where the
    one before ended and has [step] samples, the last one what is left, so
    there are [ceil (num_data / step)] of them.  The log is made of one block
    per partition, in which the surrogate, when there is one, is called once
    and the physics evaluator is then called once, on the packed samples. *)
Theorem evaluate_inner_calls h s e m fuel :
  (0 <= num_data)%Z ->
  (52 <= partitionSize <= Int.INT_MAX)%Z ->
  (num_data + partitionSize / 52 <= Int.INT_MAX + 1)%Z ->
  MiniApp.hdcaches app !! Z.to_nat mat_idx = Some h ->
  MiniApp.surrogates app !! Z.to_nat mat_idx = Some s ->
  MiniApp.eoses app !! Z.to_nat mat_idx = Some (Some e) ->
  outputs_ok num_data m ->
  Z.to_nat num_data <= fuel ->
  let step := (partitionSize / 52)%Z in
  exists m' events,
    MiniApp.evaluate_inner dev partitionSize alloc app mat_idx num_data
      pDensity pEnergy fuel m = (Ok tt, m') /\
    MiniApp.trace m' =
      MiniApp.trace m
        ++ match h with
           | Some _ => [HDCache_evaluate_call num_data]
           | None => []
           end
        ++ events /\
    count_events is_hdcache_call events = 0 /\
    events =
      concat (map (fun p =>
                     Partition p.1 p.2
                       :: match s with
                          | Some _ => [Surrogate_Eval_call p.2]
                          | None => []
                          end
                       ++ [EOS_Eval_call
                             (packed_count num_data
                                (predicate_after_uq alloc h num_data pDensity
                                   pEnergy) step p.1)])
                (partitions_of events)) /\
    tiles step 0 num_data (partitions_of events) /\
    Z.of_nat (length (partitions_of events)) =
      ((num_data + step - 1) / step)%Z /\
    eos_calls events = length (partitions_of events) /\
    count_events is_surrogate_call events =
      match s with
      | Some _ => length (partitions_of events)
      | None => 0
      end.
Proof using Hhost Hnum HD HE Hmat.
  intros Hpos Hb Hover Hh Hs He Hok Hfuel step.
  destruct (evaluate_inner_spec dev partitionSize alloc app mat_idx num_data
              pDensity pEnergy Hhost Hnum HD HE Hmat h s e m fuel)
    as (m' & Hrun & Htr & _); try done.
  assert (Hstep : (1 <= step)%Z) by (apply Z.div_le_lower_bound; lia).
  set (P := predicate_after_uq alloc h num_data pDensity pEnergy) in *.
  exists m', (loop_events num_data P step s fuel 0).
  split; [exact Hrun |]. split; [exact Htr |].
  destruct (loop_events_calls num_data P step s fuel 0) as (H1 & H2 & H3).
  split; [exact H3 |].
  split.
  { rewrite (loop_events_blocks num_data P step s fuel 0) at 1.
    f_equal. apply Forall_fmap_ext, Forall_forall.
    intros [p n] Hp. unfold partition_events. cbn [fst snd].
    pose proof (proj1 (Forall_forall _ _)
                  (loop_events_elements num_data P step s fuel 0) _ Hp) as Hn.
    cbn [fst snd] in Hn. by rewrite <- Hn. }
  split; [apply loop_events_tiles; lia |].
  split.
  { rewrite loop_events_partitions by lia. by rewrite Z.sub_0_r. }
  split; [exact H1 | exact H2].
Qed.

(** X18. The work of a well-formed [evaluate_inner] on the host.  Over all the
    partitions the physics evaluator receives as many samples as the
    predicate rejects, and the surrogate, when there is one, receives every
    sample, the rejected ones included. *)
Theorem evaluate_inner_work h s e m fuel :
  (0 <= num_data)%Z ->
  (52 <= partitionSize <= Int.INT_MAX)%Z ->
  (num_data + partitionSize / 52 <= Int.INT_MAX + 1)%Z ->
  MiniApp.hdcaches app !! Z.to_nat mat_idx = Some h ->
  MiniApp.surrogates app !! Z.to_nat mat_idx = Some s ->
  MiniApp.eoses app !! Z.to_nat mat_idx = Some (Some e) ->
  outputs_ok num_data m ->
  Z.to_nat num_data <= fuel ->
  exists m',
    MiniApp.evaluate_inner dev partitionSize alloc app mat_idx num_data
      pDensity pEnergy fuel m = (Ok tt, m') /\
    eos_samples (MiniApp.trace m') =
      eos_samples (MiniApp.trace m) +
      length (filter (fun b => b = false)
                (predicate_after_uq alloc h num_data pDensity pEnergy)) /\
    surrogate_samples (MiniApp.trace m') =
      (surrogate_samples (MiniApp.trace m) +
       match s with Some _ => num_data | None => 0 end)%Z.
Proof using Hhost Hnum HD HE Hmat.
  intros Hpos Hb Hover Hh Hs He Hok Hfuel.
  destruct (evaluate_inner_spec dev partitionSize alloc app mat_idx num_data
              pDensity pEnergy Hhost Hnum HD HE Hmat h s e m fuel)
    as (m' & Hrun & Htr & _); try done.
  set (step := (partitionSize / 52)%Z) in *.
  assert (Hstep : (1 <= step)%Z) by (apply Z.div_le_lower_bound; lia).
  set (P := predicate_after_uq alloc h num_data pDensity pEnergy) in *.
  assert (HP : length P = Z.to_nat num_data)
    by (unfold P; apply length_predicate_after_uq).
  destruct (loop_events_samples num_data P step s fuel 0) as [He1 He2];
    [lia | lia | lia |].
  exists m'. split; [exact Hrun |].
  rewrite Htr, !eos_samples_app, !surrogate_samples_app, He2.
  change (rank false P (Z.to_nat 0)) with 0 in He1. cbn [Nat.add] in He1.
  rewrite He1, (rank_count false P) by lia.
  rewrite firstn_all2 by lia.
  split; [destruct h; cbn; lia | destruct h, s; cbn; lia].
Qed.
End WholeCall.

Section WholeCallEdges.
Context {V : Type}.
Variable dev : Device V.
Variable partitionSize : Z.
Variable alloc : Allocator V.
Variable app : MiniApp.t V.
Variable mat_idx : Z.
Variables pDensity pEnergy : list V.

(** X19. A call with no sample returns at once, in either execution mode and
    whatever the budget, the fuel and the buffers: the UQ cache, when there
    is one, is called on zero samples, no partition is entered, neither the
    surrogate nor the physics evaluator is looked up, so that a material
    without a physics evaluator is accepted, and no output is written. *)
Theorem evaluate_inner_no_sample h m fuel :
  (0 <= mat_idx)%Z ->
  MiniApp.hdcaches app !! Z.to_nat mat_idx = Some h ->
  MiniApp.evaluate_inner dev partitionSize alloc app mat_idx 0 pDensity
    pEnergy fuel m =
    (Ok tt,
     {| MiniApp.outputs := MiniApp.outputs m;
        MiniApp.trace :=
          MiniApp.trace m
            ++ match h with
               | Some _ => [HDCache_evaluate_call 0]
               | None => []
               end |}).
Proof.
  intros Hmat Hh.
  rewrite (evaluate_inner_unfold dev partitionSize alloc app mat_idx 0
             pDensity pEnergy ltac:(unfold Int.INT_MAX; lia) Hmat h m fuel
             ltac:(lia) Hh).
  by destruct fuel.
Qed.

(** X20. A material index outside the vector of UQ caches makes the call read
    past the vector in step 1, before any evaluator is called and before
    any output is written. *)
Theorem evaluate_inner_bad_material num_data m fuel :
  (0 <= num_data <= Int.INT_MAX)%Z ->
  (mat_idx < 0)%Z \/ length (MiniApp.hdcaches app) <= Z.to_nat mat_idx ->
  MiniApp.evaluate_inner dev partitionSize alloc app mat_idx num_data
    pDensity pEnergy fuel m = (Fault OutOfBounds, m).
Proof.
  intros Hnum Hmat.
  unfold MiniApp.evaluate_inner, MiniApp.predicate_buffer.
  unfold bind at 1. unfold bind at 1, lift.
  rewrite allocate_ok by lia.
  unfold bind at 1, vector_at.
  destruct (Z.ltb_spec mat_idx 0) as [Hneg|Hpos]; [done |].
  destruct Hmat as [Hmat|Hmat]; [lia |].
  unfold load. by rewrite lookup_ge_None_2 by done.
Qed.
End WholeCallEdges.

(** ** The packed branch of [evaluate_orig] *)

Lemma bind_lift_ok {St A B} (a : A) (k : A -> M St B) s :
  bind (lift (Ok a)) k s = k a s.
Proof. done. Qed.

Lemma bind_bind {St A B C} (m : M St A) (k1 : A -> M St B)
    (k2 : B -> M St C) s :
  bind (bind m k1) k2 s = bind m (fun x => bind (k1 x) k2) s.
Proof. unfold bind. by destruct (m s) as [[]]. Qed.

Lemma bind_ret {St A B} (a : A) (k : A -> M St B) s :
  bind (ret a) k s = k a s.
Proof. done. Qed.

Lemma bind_emit {V B} (ev : event) (k : unit -> M (MiniApp.mem V) B) s :
  bind (MiniApp.emit ev) k s =
    k tt {| MiniApp.outputs := MiniApp.outputs s;
            MiniApp.trace := MiniApp.trace s ++ [ev] |}.
Proof. done. Qed.

Lemma bind_on_scratch_ok {St T A B} (t0 t' : T) (m : M T A) (a : A)
    (k : A * T -> M St B) s :
  m t0 = (Ok a, t') ->
  bind (MiniApp.on_scratch t0 m) k s = k (a, t') s.
Proof. intros H. unfold bind, MiniApp.on_scratch. by rewrite H. Qed.

Lemma on_sparse_outputs_ok {V} off (m : M (list (list V)) unit) v' s :
  m (map (drop off) (MiniApp.outputs s)) = (Ok tt, v') ->
  MiniApp.on_sparse_outputs off m s =
    (Ok tt,
     {| MiniApp.outputs :=
          zip_with (fun o w => take off o ++ w) (MiniApp.outputs s) v';
        MiniApp.trace := MiniApp.trace s |}).
Proof. intros H. unfold MiniApp.on_sparse_outputs, zoom. by rewrite H. Qed.

(** The index table that [pack] records drives [unpack] to the cells that
    the predicate selects. *)
Lemma scatter_recorded_indices {T} dv (P : list bool) n (idx : list Z)
    (d s : list T) :
  (Z.of_nat n <= Int.INT_MAX + 1)%Z ->
  scatter_from d 0
    (Z.to_nat <$> take (rank dv P n) (packed dv P n (source_indices n) idx)) s
  = unpacked dv P n d s.
Proof.
  intros Hn. rewrite take_packed_source_indices by done.
  rewrite <- list_fmap_compose.
  rewrite (list_fmap_ext _ id) by (intros; cbn; apply Nat2Z.id).
  by rewrite list_fmap_id.
Qed.

Lemma count_replicate (b : bool) n :
  length (filter (fun c => c = b) (replicate n b)) = n.
Proof.
  induction n as [|n IH]; [done |].
  cbn [replicate]. rewrite filter_cons, decide_True by done.
  cbn [length]. by rewrite IH.
Qed.

Section OrigPartition.
Context {V : Type}.
Variable dev : Device V.
Variable alloc : Allocator V.
Variable fresh_index : Z -> nat -> Z.
Variable app : MiniApp.t V.
Variable mat_idx num_data : Z.
Variables pDensity pEnergy : list V.
Variable P : list bool.

Hypothesis Hhost : isDeviceExecution dev = false.
Hypothesis Hnum : (num_data <= Int.INT_MAX)%Z.
Hypothesis HD : Z.to_nat num_data <= length pDensity.
Hypothesis HE : Z.to_nat num_data <= length pEnergy.
Hypothesis HP : Z.to_nat num_data <= length P.
Hypothesis Hmat : (0 <= mat_idx)%Z.

(** A partition of [evaluate_orig], which packs and unpacks through the
    recorded indices, leaves the dense outputs and the log as the partition
    of [evaluate_inner] does. *)
Lemma partition_orig_eq step pId m s e :
  (0 <= pId < num_data)%Z ->
  (0 <= step <= Int.INT_MAX)%Z ->
  MiniApp.surrogates app !! Z.to_nat mat_idx = Some s ->
  MiniApp.eoses app !! Z.to_nat mat_idx = Some (Some e) ->
  outputs_ok num_data m ->
  EvaluateOrig.partition dev alloc fresh_index app mat_idx num_data pDensity
    pEnergy P step pId m =
  MiniApp.partition dev alloc app mat_idx num_data pDensity pEnergy P step
    pId m.
Proof using Hnum Hmat Hhost HP HE HD.
  intros Hpid Hstep Hs He [Hout4 Hout].
  unfold EvaluateOrig.partition, MiniApp.partition.
  set (elements := Z.min step (num_data - pId)).
  assert (Hel : (0 <= elements <= Int.INT_MAX)%Z)
    by (unfold Int.INT_MAX in *; lia).
  assert (Heln : Z.to_nat pId + Z.to_nat elements <= Z.to_nat num_data) by lia.
  unfold Int.sub, Int.in_int, Int.INT_MIN.
  rewrite (proj2 (andb_true_iff _ _))
    by (unfold Int.INT_MAX in *; split; lia).
  rewrite !bind_lift_ok. cbv beta zeta. fold elements.
  rewrite !bind_emit. cbv beta.
  rewrite !allocate_ok by (done || (unfold Int.sizeof_double, Int.sizeof_int; lia)).
  repeat (rewrite !bind_lift_ok; cbv beta).
  rewrite (proj2 (Z.ltb_ge _ _)) by lia.
  rewrite to_size_t_id by (unfold Int.INT_MAX in *; lia).
  unfold vector_at. rewrite (proj2 (Z.ltb_ge _ _)) by lia.
  unfold load. rewrite Hs, He.
  repeat (rewrite !bind_lift_ok; cbv beta).
  set (off := Z.to_nat pId). set (n := Z.to_nat elements).
  set (m1 := {| MiniApp.outputs := MiniApp.outputs m;
                MiniApp.trace := MiniApp.trace m ++ [Partition pId elements] |}).
  assert (Houtn : Forall (fun o => off + n <= length o) (MiniApp.outputs m)).
  { eapply Forall_impl; [exact Hout |]. intros o Ho. cbn in *. lia. }
  assert (exists outs1 t1,
    (match s with
     | Some s0 =>
         bind (MiniApp.emit (Surrogate_Eval_call elements))
           (fun _ => MiniApp.on_sparse_outputs off
              (write_columns n
                 (Surrogate_Eval s0 n [drop off pDensity; drop off pEnergy])))
     | None => ret tt
     end) m1 =
    (Ok tt, {| MiniApp.outputs := outs1; MiniApp.trace := t1 |}) /\
    length outs1 = 4 /\
    Forall (fun o => off + n <= length o) outs1)
    as (outs1 & t1 & Hsur & Hlen1 & Houts1).
  { destruct s as [s0|].
    - rewrite bind_emit.
      destruct (surrogate_step off n
        (Surrogate_Eval s0 n [drop off pDensity; drop off pEnergy])
        (MiniApp.outputs m)
        ((MiniApp.trace m ++ [Partition pId elements]) ++
           [Surrogate_Eval_call elements]) Houtn)
        as (outs1 & Hrun & Hl & Hc).
      eexists outs1, _. split; [exact Hrun |]. split; [lia |].
      apply Forall_lookup. intros j o1 Ho1.
      destruct (lookup_lt_is_Some_2 (MiniApp.outputs m) j) as [o Ho].
      { apply lookup_lt_Some in Ho1. lia. }
      destruct (Hc j o Ho) as (o1' & Ho1' & Hlo & _). simplify_eq.
      pose proof (Forall_lookup_1 _ _ _ _ Houtn Ho) as Hlen. cbn beta in Hlen.
      lia.
    - eexists _, _. split; [reflexivity |]. split; [exact Hout4 | exact Houtn]. }
  rewrite !(bind_ok _ _ _ _ _ Hsur).
  assert (Hrank : rank false (drop off P) n <= n) by apply rank_le.
  rewrite (bind_on_scratch_ok _ _ _ _ _ _
             (pack_indices_host dev Hhost (drop off P) n
                [drop off pDensity; drop off pEnergy]
                [map (fresh alloc pId 0) (seq 0 n);
                 map (fresh alloc pId 1) (seq 0 n)]
                (map (fresh_index pId) (seq 0 n)) false
                eq_refl
                ltac:(unfold Int.INT_MAX; cbn; lia)
                ltac:(rewrite length_drop; lia)
                ltac:(repeat constructor; rewrite length_drop; lia)
                ltac:(repeat constructor; by rewrite length_allocated)
                ltac:(by rewrite length_allocated))).
  rewrite (bind_on_scratch_ok _ _ _ _ _ _
             (pack_host dev Hhost (drop off P) n
                [drop off pDensity; drop off pEnergy]
                [map (fresh alloc pId 0) (seq 0 n);
                 map (fresh alloc pId 1) (seq 0 n)] false
                eq_refl
                ltac:(rewrite length_drop; lia)
                ltac:(repeat constructor; rewrite length_drop; lia)
                ltac:(repeat constructor; by rewrite length_allocated))).
  cbv beta. cbn [fst snd].
  rewrite !bind_lift_ok. cbv beta iota.
  rewrite !bind_emit. cbv beta.
  set (k := rank false (drop off P) n).
  set (scr := [map (fresh alloc pId 2) (seq 0 n);
               map (fresh alloc pId 3) (seq 0 n);
               map (fresh alloc pId 4) (seq 0 n);
               map (fresh alloc pId 5) (seq 0 n)]).
  assert (Hscr : Forall (fun p => k <= length p) scr)
    by (repeat constructor; by rewrite length_allocated).
  rewrite !(bind_on_scratch_ok _ _ _ _ _ _ (write_columns_ok k _ scr Hscr)).
  cbv beta. cbn [fst snd].
  cbn [MiniApp.outputs MiniApp.trace].
  set (physics := imap _ scr).
  assert (Hphys : Forall (fun ph => n <= length ph) physics).
  { apply Forall_lookup. intros j ph Hph. unfold physics in Hph.
    rewrite list_lookup_imap in Hph.
    destruct (scr !! j) as [p|] eqn:Hp; [| done]. cbn in Hph. simplify_eq.
    assert (Hall : Forall (fun p => length p = n) scr)
      by (repeat constructor; apply length_allocated).
    pose proof (Forall_lookup_1 _ _ _ _ Hall Hp) as Hlp. cbn beta in Hlp.
    rewrite length_written; lia. }
  assert (Hlen_phys : length physics = 4) by (unfold physics; by rewrite length_imap).
  assert (Hviews : Forall (fun w => n <= length w) (map (drop off) outs1)).
  { apply Forall_fmap. eapply Forall_impl; [exact Houts1 |].
    intros o1 Ho1. cbn in *. rewrite length_drop. lia. }
  set (idx' := packed false (drop off P) n (source_indices n)
                 (map (fresh_index pId) (seq 0 n))).
  assert (Hlv : length (map (drop off) outs1) = length physics)
    by by rewrite length_map, Hlen1, Hlen_phys.
  assert (Hdims : (Z.of_nat (length (map (drop off) outs1)) <= Int.INT_MAX)%Z)
    by (rewrite length_map, Hlen1; unfold Int.INT_MAX; lia).
  assert (Hidx' : k <= length idx').
  { unfold idx'.
    rewrite length_packed; rewrite ?length_source_indices, ?length_allocated;
      lia. }
  assert (Hphys_k : Forall (fun ph => k <= length ph) physics).
  { eapply Forall_impl; [exact Hphys |]. intros ph Hph. cbn beta in *.
    unfold k. lia. }
  assert (Htab : Forall (fun i => (0 <= i)%Z /\
                    Forall (fun w => Z.to_nat i < length w)
                      (map (drop off) outs1)) (take k idx')).
  { unfold idx', k.
    rewrite take_packed_source_indices by (unfold Int.INT_MAX in *; lia).
    apply Forall_fmap, Forall_forall. intros i Hi%elem_of_picks. cbn.
    split; [lia |]. rewrite Nat2Z.id.
    eapply Forall_impl; [exact Hviews |]. intros w Hw. cbn beta in *. lia. }
  set (m2 := {| MiniApp.outputs := outs1;
                MiniApp.trace := t1 ++ [EOS_Eval_call k] |}).
  rewrite (on_sparse_outputs_ok off _ _ m2
             (unpack_indices_host dev Hhost idx' k physics
                (map (drop off) outs1) false Hlv Hdims Hidx' Hphys_k Htab)).
  rewrite (on_sparse_outputs_ok off _ _ m2
             (unpack_host dev Hhost (drop off P) n physics
                (map (drop off) outs1) false Hlv
                ltac:(rewrite length_drop; lia) Hviews Hphys_k)).
  do 3 f_equal.
  apply zip_with_ext_lookup. intros j d w _ _.
  apply scatter_recorded_indices. unfold Int.INT_MAX in *. lia.
Qed.
End OrigPartition.

Section OrigLoop.
Context {V : Type}.
Variable dev : Device V.
Variable partitionSize : Z.
Variable alloc : Allocator V.
Variable fresh_index : Z -> nat -> Z.
Variable app : MiniApp.t V.
Variable mat_idx num_data : Z.
Variables pDensity pEnergy : list V.

Hypothesis Hhost : isDeviceExecution dev = false.
Hypothesis Hnum : (num_data <= Int.INT_MAX)%Z.
Hypothesis HD : Z.to_nat num_data <= length pDensity.
Hypothesis HE : Z.to_nat num_data <= length pEnergy.
Hypothesis Hmat : (0 <= mat_idx)%Z.

(** The two partition loops agree, whether or not they return. *)
Lemma partition_loop_orig_eq P step s e fuel : forall pId m,
  Z.to_nat num_data <= length P ->
  (0 <= step <= Int.INT_MAX)%Z ->
  MiniApp.surrogates app !! Z.to_nat mat_idx = Some s ->
  MiniApp.eoses app !! Z.to_nat mat_idx = Some (Some e) ->
  outputs_ok num_data m ->
  (0 <= pId)%Z ->
  EvaluateOrig.partition_loop dev alloc fresh_index app mat_idx num_data
    pDensity pEnergy fuel P step pId m =
  MiniApp.partition_loop dev alloc app mat_idx num_data pDensity pEnergy
    fuel P step pId m.
Proof using Hhost Hnum HD HE Hmat.
  induction fuel as [|fuel IH]; intros pId m HP Hstep Hs He Hok Hpid.
  - cbn. by destruct (pId <? num_data)%Z.
  - cbn [EvaluateOrig.partition_loop MiniApp.partition_loop].
    destruct (Z.ltb_spec pId num_data) as [Hlt|Hge]; [| done].
    unfold bind at 1 3.
    rewrite (partition_orig_eq dev alloc fresh_index app mat_idx num_data
               pDensity pEnergy P Hhost Hnum HD HE HP Hmat step pId m s e)
      by (done || lia).
    destruct (MiniApp.partition dev alloc app mat_idx num_data pDensity
                pEnergy P step pId m) as [[[]| | |] m1] eqn:Hrun; try done.
    unfold bind, lift.
    destruct (Int.add pId step) as [pId'| | |] eqn:Hadd; try done.
    apply IH; try done.
    + eapply (partition_outputs_ok dev alloc app mat_idx num_data pDensity
                pEnergy Hhost Hnum HD HE Hmat P step pId m m1 s e);
        [exact HP | lia | lia | exact Hs | exact He | exact Hok | exact Hrun].
    + unfold Int.add in Hadd. destruct (Int.in_int _); simplify_eq. lia.
Qed.

(** X21. With a UQ cache, the packed branch of [evaluate_orig] and
    [evaluate_inner] are the same computation on the dense buffers: the
    same outcome, the same outputs and the same calls, whatever the fuel. *)
Theorem evaluate_orig_as_evaluate_inner hd s e pMl_acceptable m fuel :
  (0 <= num_data)%Z ->
  (0 <= partitionSize <= Int.INT_MAX)%Z ->
  length pMl_acceptable = Z.to_nat num_data ->
  MiniApp.hdcaches app !! Z.to_nat mat_idx = Some (Some hd) ->
  MiniApp.surrogates app !! Z.to_nat mat_idx = Some s ->
  MiniApp.eoses app !! Z.to_nat mat_idx = Some (Some e) ->
  outputs_ok num_data m ->
  EvaluateOrig.evaluate_orig_packed dev partitionSize alloc fresh_index app
    mat_idx num_data pDensity pEnergy pMl_acceptable fuel m =
  MiniApp.evaluate_inner dev partitionSize alloc app mat_idx num_data
    pDensity pEnergy fuel m.
Proof using Hhost Hnum HD HE Hmat.
  intros Hpos Hb Hlen Hh Hs He Hok.
  rewrite (evaluate_inner_unfold dev partitionSize alloc app mat_idx num_data
             pDensity pEnergy Hnum Hmat (Some hd) m fuel Hpos Hh).
  destruct (evaluate_inner_step partitionSize Hb) as [Hstep Hrange].
  rewrite Hstep.
  unfold EvaluateOrig.evaluate_orig_packed, EvaluateOrig.predicate_buffer.
  unfold vector_at. rewrite (proj2 (Z.ltb_ge _ _)) by lia.
  unfold load. rewrite Hh.
  rewrite bind_bind, bind_lift_ok. cbv beta iota.
  rewrite !bind_bind, bind_emit. cbv beta. rewrite bind_bind.
  rewrite (bind_on_scratch_ok pMl_acceptable
             (map (HDCache_evaluate hd (Z.to_nat num_data) [pDensity; pEnergy])
                (seq 0 (Z.to_nat num_data))) _ tt).
  2:{ unfold write_n. rewrite decide_True by lia.
      by rewrite drop_ge, app_nil_r by lia. }
  rewrite bind_ret. cbn [snd].
  rewrite computePartitionSize_2_4, bind_lift_ok, Hstep.
  apply (partition_loop_orig_eq _ (partitionSize / 52) s e);
    try done; try lia.
  unfold predicate_after_uq. rewrite length_allocated. lia.
Qed.

(** X22. Without a UQ cache, the packed branch of [evaluate_orig] runs on the
    predicate buffer as the code initialises it, [false] everywhere: every
    sample is rejected.  With a physics evaluator that treats every sample
    by itself, the outputs of every sample are the physics evaluator's,
    whatever the surrogate wrote before, and over the partitions the physics
    evaluator receives all the [num_data] samples. *)
Theorem evaluate_orig_without_uq s e f m fuel :
  (0 <= num_data)%Z ->
  (52 <= partitionSize <= Int.INT_MAX)%Z ->
  (num_data + partitionSize / 52 <= Int.INT_MAX + 1)%Z ->
  MiniApp.hdcaches app !! Z.to_nat mat_idx = Some None ->
  MiniApp.surrogates app !! Z.to_nat mat_idx = Some s ->
  MiniApp.eoses app !! Z.to_nat mat_idx = Some (Some e) ->
  outputs_ok num_data m ->
  Z.to_nat num_data <= fuel ->
  pointwise_eos e f ->
  exists m',
    EvaluateOrig.evaluate_orig_packed dev partitionSize alloc fresh_index app
      mat_idx num_data pDensity pEnergy
      (replicate (Z.to_nat num_data) false) fuel m = (Ok tt, m') /\
    eos_samples (MiniApp.trace m') =
      eos_samples (MiniApp.trace m) + Z.to_nat num_data /\
    forall j o, MiniApp.outputs m !! j = Some o ->
      exists o', MiniApp.outputs m' !! j = Some o' /\
        length o' = length o /\
        (forall q x y, q < Z.to_nat num_data ->
           pDensity !! q = Some x -> pEnergy !! q = Some y ->
           o' !! q = Some (f y x j)) /\
        (forall q, Z.to_nat num_data <= q -> o' !! q = o !! q).
Proof using Hhost Hnum HD HE Hmat.
  intros Hpos Hb Hover Hh Hs He Hok Hfuel Hf.
  set (P := replicate (Z.to_nat num_data) false).
  set (step := (partitionSize / 52)%Z).
  assert (HP : length P = Z.to_nat num_data) by apply length_replicate.
  destruct (evaluate_inner_step partitionSize ltac:(lia)) as [Hstep Hrange].
  assert (Hstep1 : (1 <= step)%Z) by (apply Z.div_le_lower_bound; lia).
  unfold EvaluateOrig.evaluate_orig_packed, EvaluateOrig.predicate_buffer.
  unfold vector_at. rewrite (proj2 (Z.ltb_ge _ _)) by lia.
  unfold load. rewrite Hh.
  rewrite bind_bind, bind_lift_ok. cbv beta iota. rewrite bind_ret.
  rewrite computePartitionSize_2_4, bind_lift_ok, Hstep. fold P step.
  rewrite partition_loop_orig_eq with (s := s) (e := e);
    try done; try lia.
  destruct (partition_loop_spec dev alloc app mat_idx num_data pDensity
              pEnergy Hhost Hnum HD HE Hmat P step s e fuel 0 m)
    as (m' & Hrun & Htr & _ & Hcells); try done; try lia.
  exists m'. split; [exact Hrun |]. split.
  { rewrite Htr, eos_samples_app. f_equal.
    destruct (loop_events_samples num_data P step s fuel 0) as [He1 _];
      [lia | lia | lia |].
    change (rank false P (Z.to_nat 0)) with 0 in He1. cbn [Nat.add] in He1.
    rewrite He1, (rank_count false P) by lia.
    rewrite firstn_all2 by lia. apply count_replicate. }
  intros j o Ho. destruct (Hcells j o Ho) as (o' & Ho' & Hl & Hq).
  exists o'. split; [done |]. split; [done |]. split.
  - intros q x y Hlt Hx Hy. rewrite Hq, decide_True by lia.
    unfold partition_start. rewrite Z.sub_0_r, Z.add_0_l.
    destruct (sample_partition num_data step q Hstep1 Hlt) as [Hpid Hin].
    apply (output_cell_rejected dev alloc num_data pDensity pEnergy Hhost HD
             HE); try done; try lia.
    unfold P. by rewrite lookup_replicate_2.
  - intros q Hge. rewrite Hq. by rewrite decide_False by lia.
Qed.
End OrigLoop.

(** ** Instances *)

Lemma pack_counts_complementary_witness :
  exists k0 k1 Y0' Y1',
    DataHandler.pack host_device Demo.P 4 [Demo.density; Demo.energy] false
      [[0; 0; 0; 0]; [0; 0; 0; 0]]%Z = (Ok k0, Y0') /\
    DataHandler.pack host_device Demo.P 4 [Demo.density; Demo.energy] true
      [[0; 0; 0; 0]; [0; 0; 0; 0]]%Z = (Ok k1, Y1') /\
    k0 + k1 = 4.
Proof.
  apply (pack_counts_complementary host_device Demo.P 4
           [Demo.density; Demo.energy] [[0; 0; 0; 0]; [0; 0; 0; 0]]%Z
           [[0; 0; 0; 0]; [0; 0; 0; 0]]%Z);
    [reflexivity | reflexivity | reflexivity | cbn; lia
    | repeat constructor | repeat constructor | repeat constructor].
Defined.


Lemma unpack_pack_round_trip_witness :
  exists X' Y',
    DataHandler.unpack host_device Demo.P 4 [[11; 12]; [21; 22]]%Z false
      [Demo.density; Demo.energy] = (Ok tt, X') /\
    DataHandler.pack host_device Demo.P 4 X' false [[0; 0; 5]; [0; 0; 6]]%Z
      = (Ok 2, Y') /\
    Y' = [[11; 12; 5]; [21; 22; 6]]%Z.
Proof.
  destruct (unpack_pack_round_trip host_device Demo.P 4
              [[11; 12]; [21; 22]]%Z [Demo.density; Demo.energy]
              [[0; 0; 5]; [0; 0; 6]]%Z false)
    as (X' & Y' & Hun & Hpack & _);
    [reflexivity | reflexivity | reflexivity | cbn; lia
    | repeat constructor | repeat constructor
    | repeat constructor; vm_compute; lia |].
  exists X', Y'. split; [exact Hun |]. split; [exact Hpack |].
  vm_compute in Hun. simplify_eq. vm_compute in Hpack. by simplify_eq.
Defined.

Lemma pack_all_or_none_witness :
  DataHandler.pack host_device [false; false; false] 3
    [[1; 2; 3; 4]]%Z false [[0; 0; 0; 9]]%Z = (Ok 3, [[1; 2; 3; 9]]%Z) /\
  DataHandler.pack host_device [true; true; true] 3
    [[1; 2; 3; 4]]%Z false [[7; 8]]%Z = (Ok 0, [[7; 8]]%Z) /\
  DataHandler.unpack host_device [true; true; true] 3
    [[7; 8]]%Z false [[1; 2; 3; 4]]%Z = (Ok tt, [[1; 2; 3; 4]]%Z).
Proof.
  split.
  - apply (proj1 (pack_all_or_none host_device [false; false; false] 3
                    [[1; 2; 3; 4]]%Z [[0; 0; 0; 9]]%Z false eq_refl eq_refl
                    ltac:(cbn; lia) ltac:(repeat constructor; cbn; lia)
                    ltac:(repeat constructor; vm_compute; lia))).
    intros [|[|[|i]]] Hi; (reflexivity || lia).
  - apply (proj2 (pack_all_or_none host_device [true; true; true] 3
                    [[1; 2; 3; 4]]%Z [[7; 8]]%Z false eq_refl eq_refl
                    ltac:(cbn; lia) ltac:(repeat constructor; cbn; lia)
                    ltac:(repeat constructor; vm_compute; lia))).
    intros [|[|[|i]]] Hi; (discriminate || lia).
Defined.

Lemma unpack_indices_writes_witness :
  exists X',
    DataHandler.unpack_indices host_device [2; 0; 2]%Z 3
      [[11; 12; 13]]%Z false [[1; 2; 3; 4]]%Z = (Ok tt, X') /\
    X' = [[12; 2; 13; 4]]%Z.
Proof.
  destruct (unpack_indices_writes host_device [2; 0; 2]%Z 3
              [[11; 12; 13]]%Z [[1; 2; 3; 4]]%Z false)
    as (X' & Hrun & _);
    [reflexivity | reflexivity | unfold Int.INT_MAX; cbn; lia | cbn; lia
    | repeat constructor
    | repeat constructor; cbn; lia |].
  exists X'. split; [exact Hrun |]. vm_compute in Hrun. by simplify_eq.
Defined.

Lemma pack_in_chunks_witness :
  exists k1 k2 Y1 Y2,
    DataHandler.pack host_device Demo.P 1 [Demo.density] false [[0; 0]]%Z
      = (Ok k1, Y1) /\
    DataHandler.pack host_device (drop 1 Demo.P) 3 (drop 1 <$> [Demo.density])
      false (drop k1 <$> Y1) = (Ok k2, Y2) /\
    DataHandler.pack host_device Demo.P (1 + 3) [Demo.density] false
      [[0; 0]]%Z =
      (Ok (k1 + k2), zip_with (fun y1 y2 => take k1 y1 ++ y2) Y1 Y2).
Proof.
  apply (pack_in_chunks host_device Demo.P 1 3 [Demo.density] [[0; 0]]%Z
           false);
    [reflexivity | reflexivity | cbn; lia | repeat constructor
    | repeat constructor; vm_compute; lia].
Defined.

Lemma computePartitionSize_fits_budget_witness :
  exists r,
    DataHandler.computePartitionSize 8 2 4 true (2 ^ 24) = Ok r /\
    (0 <= r)%Z /\ (r * 52 <= 2 ^ 24 < (r + 1) * 52)%Z.
Proof.
  apply (computePartitionSize_fits_budget 8 (2 ^ 24) 2 4 true);
    unfold Int.INT_MAX, Int.sizeof_int; lia.
Defined.

Lemma computePartitionSize_no_feature_witness :
  DataHandler.computePartitionSize 8 0 0 false (2 ^ 24) =
    Fault DivisionByZero /\
  DataHandler.computePartitionSize 8 0 0 true (2 ^ 24) = Ok (2 ^ 24 / 4)%Z.
Proof.
  destruct (computePartitionSize_no_feature 8 (2 ^ 24) 0 0) as [Hf Ht];
    [reflexivity |].
  split; [exact Hf |]. apply Ht. unfold Int.INT_MAX. lia.
Defined.

Lemma computePartitionSize_reindex_returns_witness :
  exists r,
    DataHandler.computePartitionSize 8 (-3) 2 true (-1) = Ok r /\
    (Int.INT_MIN <= r <= Int.INT_MAX)%Z.
Proof.
  apply (computePartitionSize_reindex_returns 8 (-1) (-3) 2);
    [reflexivity | unfold Int.INT_MIN, Int.INT_MAX; lia].
Defined.

Lemma cast_round_trip_witness :
  exists fdata dest',
    cast_to_typevalue (fun _ => 0%Z) Z.of_nat 3 [1; 2; 3; 4] = Ok fdata /\
    fdata = [1; 2; 3]%Z /\
    cast_from_typevalue Z.to_nat 3 fdata [9; 9; 9; 9; 9] = (Ok tt, dest') /\
    dest' = [1; 2; 3; 9; 9].
Proof.
  destruct (cast_round_trip (fun _ => 0%Z) Z.of_nat Z.to_nat 3 [1; 2; 3; 4]
              [9; 9; 9; 9; 9])
    as (fdata & dest' & Hto & Hf & Hfrom & _ & _ & _ & Hback);
    [cbn; lia | cbn; lia |].
  exists fdata, dest'. split; [exact Hto |]. split; [exact Hf |].
  split; [exact Hfrom |]. apply Hback. repeat constructor.
Defined.

Lemma cast_to_typevalue_short_witness :
  cast_to_typevalue (fun _ => 0%Z) Z.of_nat 3 [1; 2] = Fault OutOfBounds.
Proof.
  apply (cast_to_typevalue_short (fun _ => 0%Z) Z.of_nat 3 [1; 2]).
  cbn. lia.
Defined.

Lemma cast_same_type_witness :
  cast_from_typevalue_same 2 (cast_to_typevalue_same 2 [1; 2; 3]) [7; 8; 9] =
    (Ok tt, [1; 2; 9]).
Proof. apply (cast_same_type 2 [1; 2; 3] [7; 8; 9]); cbn; lia. Defined.

Lemma linearize_features_layout_witness :
  exists data,
    linearize_features (fun _ => 0%Z) Z.of_nat (fun _ => false)
      (fun data _ _ _ => data) 3 [[1; 2; 3]; [10; 20; 30]] = Ok data /\
    data = [1; 10; 2; 20; 3; 30]%Z.
Proof.
  destruct (linearize_features_layout (fun _ => 0%Z) Z.of_nat (fun _ => false)
              (fun data _ _ _ => data) 3 [[1; 2; 3]; [10; 20; 30]] [1; 2; 3])
    as [(data & Hrun & _) _];
    [reflexivity | reflexivity | repeat constructor |].
  exists data. split; [exact Hrun |]. vm_compute in Hrun. by simplify_eq.
Defined.

(** The evaluators of the small instance treat every sample by itself. *)
Lemma pointwise_demo_surrogate :
  pointwise_surrogate_opt (Some Demo.surrogate) (Some (fun _ _ _ => 7%Z)).
Proof. by intros n density energy j i x y _ _ _. Qed.

Lemma pointwise_demo_eos :
  pointwise_eos Demo.eos (fun x y _ => (1000 * x + y)%Z).
Proof.
  intros n energy density j r x y _ Hx Hy.
  unfold Demo.eos. cbn. by rewrite Hx, Hy.
Qed.

Lemma partitions_do_not_interfere_witness :
  exists m',
    MiniApp.evaluate_inner host_device 104 Demo.allocator Demo.app 0 4
      Demo.density Demo.energy 4 Demo.mem0 = (Ok tt, m') /\
    MiniApp.outputs m' !! 0 = Some [7; 20002; 7; 40004]%Z.
Proof.
  destruct (partitions_do_not_interfere host_device 104 Demo.allocator
              Demo.app 0 4 Demo.density Demo.energy eq_refl
              ltac:(unfold Int.INT_MAX; lia) ltac:(cbn; lia) ltac:(cbn; lia)
              ltac:(lia) (Some Demo.uq_even) (Some Demo.surrogate) Demo.eos
              Demo.mem0 4)
    as (m' & Hrun & _);
    [lia | unfold Int.INT_MAX; lia | unfold Int.INT_MAX; vm_compute; discriminate
    | reflexivity | reflexivity | reflexivity | apply outputs_ok_demo
    | cbn; lia |].
  exists m'. split; [exact Hrun |]. vm_compute in Hrun. by simplify_eq.
Defined.

Lemma evaluate_inner_pointwise_witness :
  exists m',
    MiniApp.evaluate_inner host_device 104 Demo.allocator Demo.app 0 4
      Demo.density Demo.energy 4 Demo.mem0 = (Ok tt, m') /\
    MiniApp.outputs m' !! 0 = Some [7; 20002; 7; 40004]%Z.
Proof.
  destruct (evaluate_inner_pointwise host_device 104 Demo.allocator
              Demo.app 0 4 Demo.density Demo.energy eq_refl
              ltac:(unfold Int.INT_MAX; lia) ltac:(cbn; lia) ltac:(cbn; lia)
              ltac:(lia) (Some Demo.uq_even) (Some Demo.surrogate) Demo.eos
              (Some (fun _ _ _ => 7%Z)) (fun x y _ => (1000 * x + y)%Z)
              Demo.mem0 4)
    as (m' & Hrun & _);
    [lia | unfold Int.INT_MAX; lia | unfold Int.INT_MAX; vm_compute; discriminate
    | reflexivity | reflexivity | reflexivity | apply outputs_ok_demo
    | cbn; lia | apply pointwise_demo_surrogate | apply pointwise_demo_eos |].
  exists m'. split; [exact Hrun |]. vm_compute in Hrun. by simplify_eq.
Defined.

Lemma accepted_samples_without_surrogate_witness :
  exists m',
    MiniApp.evaluate_inner host_device 104 Demo.allocator
      {| MiniApp.eoses := [Some Demo.eos];
         MiniApp.hdcaches := [Some Demo.uq_even];
         MiniApp.surrogates := [None] |}
      0 4 Demo.density Demo.energy 4 Demo.mem0 = (Ok tt, m') /\
    MiniApp.outputs m' !! 0 = Some [0; 20002; 0; 40004]%Z.
Proof.
  destruct (accepted_samples_without_surrogate host_device 104
              Demo.allocator
              {| MiniApp.eoses := [Some Demo.eos];
                 MiniApp.hdcaches := [Some Demo.uq_even];
                 MiniApp.surrogates := [None] |}
              0 4 Demo.density Demo.energy eq_refl
              ltac:(unfold Int.INT_MAX; lia) ltac:(cbn; lia) ltac:(cbn; lia)
              ltac:(lia) (Some Demo.uq_even) Demo.eos Demo.mem0 4)
    as (m' & Hrun & _);
    [lia | unfold Int.INT_MAX; lia | unfold Int.INT_MAX; vm_compute; discriminate
    | reflexivity | reflexivity | reflexivity | apply outputs_ok_demo
    | cbn; lia |].
  exists m'. split; [exact Hrun |]. vm_compute in Hrun. by simplify_eq.
Defined.

Lemma evaluate_inner_calls_witness :
  exists m',
    MiniApp.evaluate_inner host_device 104 Demo.allocator Demo.app 0 4
      Demo.density Demo.energy 4 Demo.mem0 = (Ok tt, m') /\
    MiniApp.trace m' =
      [HDCache_evaluate_call 4;
       Partition 0 2; Surrogate_Eval_call 2; EOS_Eval_call 1;
       Partition 2 2; Surrogate_Eval_call 2; EOS_Eval_call 1].
Proof.
  destruct (evaluate_inner_calls host_device 104 Demo.allocator
              Demo.app 0 4 Demo.density Demo.energy eq_refl
              ltac:(unfold Int.INT_MAX; lia) ltac:(cbn; lia) ltac:(cbn; lia)
              ltac:(lia) (Some Demo.uq_even) (Some Demo.surrogate) Demo.eos
              Demo.mem0 4)
    as (m' & events & Hrun & _);
    [lia | unfold Int.INT_MAX; lia | unfold Int.INT_MAX; vm_compute; discriminate
    | reflexivity | reflexivity | reflexivity | apply outputs_ok_demo
    | cbn; lia |].
  exists m'. split; [exact Hrun |]. vm_compute in Hrun. by simplify_eq.
Defined.

Lemma evaluate_inner_work_witness :
  exists m',
    MiniApp.evaluate_inner host_device 104 Demo.allocator Demo.app 0 4
      Demo.density Demo.energy 4 Demo.mem0 = (Ok tt, m') /\
    eos_samples (MiniApp.trace m') = 2 /\
    surrogate_samples (MiniApp.trace m') = 4%Z.
Proof.
  destruct (evaluate_inner_work host_device 104 Demo.allocator
              Demo.app 0 4 Demo.density Demo.energy eq_refl
              ltac:(unfold Int.INT_MAX; lia) ltac:(cbn; lia) ltac:(cbn; lia)
              ltac:(lia) (Some Demo.uq_even) (Some Demo.surrogate) Demo.eos
              Demo.mem0 4)
    as (m' & Hrun & He & Hs);
    [lia | unfold Int.INT_MAX; lia | unfold Int.INT_MAX; vm_compute; discriminate
    | reflexivity | reflexivity | reflexivity | apply outputs_ok_demo
    | cbn; lia |].
  exists m'. split; [exact Hrun |]. split; [exact He | exact Hs].
Defined.

Lemma evaluate_inner_no_sample_witness :
  MiniApp.evaluate_inner host_device 104 Demo.allocator Demo.app_no_eos 0 0
    Demo.density Demo.energy 0 Demo.mem0 =
    (Ok tt,
     {| MiniApp.outputs := MiniApp.outputs Demo.mem0;
        MiniApp.trace := [HDCache_evaluate_call 0] |}).
Proof.
  apply (evaluate_inner_no_sample host_device 104 Demo.allocator
           Demo.app_no_eos 0 Demo.density Demo.energy (Some Demo.uq_all)
           Demo.mem0 0); [lia | reflexivity].
Defined.

Lemma evaluate_inner_bad_material_witness :
  MiniApp.evaluate_inner host_device 104 Demo.allocator Demo.app 1 4
    Demo.density Demo.energy 4 Demo.mem0 = (Fault OutOfBounds, Demo.mem0).
Proof.
  apply (evaluate_inner_bad_material host_device 104 Demo.allocator
           Demo.app 1 Demo.density Demo.energy 4 Demo.mem0 4);
    [unfold Int.INT_MAX; lia | right; cbn; lia].
Defined.

Lemma evaluate_orig_as_evaluate_inner_witness :
  EvaluateOrig.evaluate_orig_packed host_device 104 Demo.allocator
    (fun _ _ => 0%Z) Demo.app 0 4 Demo.density Demo.energy
    [false; false; false; false] 4 Demo.mem0 =
  MiniApp.evaluate_inner host_device 104 Demo.allocator Demo.app 0 4
    Demo.density Demo.energy 4 Demo.mem0.
Proof.
  apply (evaluate_orig_as_evaluate_inner host_device 104 Demo.allocator
           (fun _ _ => 0%Z) Demo.app 0 4 Demo.density Demo.energy eq_refl
           ltac:(unfold Int.INT_MAX; lia) ltac:(cbn; lia) ltac:(cbn; lia)
           ltac:(lia) Demo.uq_even (Some Demo.surrogate) Demo.eos);
    [lia | unfold Int.INT_MAX; lia | reflexivity | reflexivity | reflexivity
    | reflexivity | apply outputs_ok_demo].
Defined.

Lemma evaluate_orig_without_uq_witness :
  exists m',
    EvaluateOrig.evaluate_orig_packed host_device 104 Demo.allocator
      (fun _ _ => 0%Z) Demo.app_no_uq 0 4 Demo.density Demo.energy
      (replicate 4 false) 4 Demo.mem0 = (Ok tt, m') /\
    MiniApp.outputs m' !! 0 = Some [10001; 20002; 30003; 40004]%Z.
Proof.
  destruct (evaluate_orig_without_uq host_device 104 Demo.allocator
              (fun _ _ => 0%Z) Demo.app_no_uq 0 4 Demo.density Demo.energy
              eq_refl ltac:(unfold Int.INT_MAX; lia) ltac:(cbn; lia)
              ltac:(cbn; lia) ltac:(lia) (Some Demo.surrogate) Demo.eos
              (fun x y _ => (1000 * x + y)%Z) Demo.mem0 4)
    as (m' & Hrun & _);
    [lia | unfold Int.INT_MAX; lia
    | unfold Int.INT_MAX; vm_compute; discriminate
    | reflexivity | reflexivity | reflexivity | apply outputs_ok_demo
    | cbn; lia | apply pointwise_demo_eos |].
  exists m'. split; [exact Hrun |]. vm_compute in Hrun. by simplify_eq.
Defined.

(** ** Outside the range of [int] *)

(** A recorded index that is negative makes the index-driven [unpack] write
    before the sparse buffer, whatever the buffers hold. *)
Lemma unpack_indices_negative {V} (dev : Device V) (sidx : list Z) nPacked
    (d : list V) (x : V) (D X : list (list V)) dv k :
  isDeviceExecution dev = false ->
  length X = S (length D) ->
  (Z.of_nat (length X) <= Int.INT_MAX)%Z ->
  d !! 0 = Some x ->
  sidx !! 0 = Some k ->
  (k < 0)%Z ->
  DataHandler.unpack_indices dev sidx (S nPacked) (d :: D) dv X =
    (Fault OutOfBounds, X).
Proof.
  intros Hhost Hlen Hdims Hd Hk Hneg. unfold DataHandler.unpack_indices.
  unfold bind at 1, get. cbn [length].
  rewrite (proj2 (Nat.eqb_eq _ _) Hlen), Hhost, dims_id by done.
  cbn [negb]. rewrite Hlen. cbn [for_loop].
  unfold bind at 1. unfold bind at 1. unfold bind at 1.
  unfold lift, load2, load. cbn [lookup list_lookup]. rewrite Hd.
  unfold bind at 1. rewrite Hk.
  by rewrite (proj2 (Z.ltb_lt _ _) Hneg).
Qed.

(** With [2^31 + 1] samples of which only the last is selected, the [pack]
    that records indices stores the index [2^31] in an [int]. *)
Lemma index_variant_beyond_int (N : nat) :
  Z.of_nat N = (2 ^ 31)%Z ->
  exists x'',
    DataHandler.pack host_device (replicate N true ++ [false]) (S N)
      [replicate (S N) 7%Z] false [[0%Z]] = (Ok 1, [[7%Z]]) /\
    DataHandler.pack_indices host_device (replicate N true ++ [false]) (S N)
      [replicate (S N) 7%Z] false ([0%Z], [[0%Z]]) =
      (Ok 1, ([(- 2 ^ 31)%Z], [[7%Z]])) /\
    DataHandler.unpack host_device (replicate N true ++ [false]) (S N)
      [[7%Z]] false [replicate (S N) 0%Z] = (Ok tt, [x'']) /\
    x'' !! N = Some 7%Z /\
    DataHandler.unpack_indices host_device [(- 2 ^ 31)%Z] 1 [[7%Z]] false
      [replicate (S N) 0%Z] = (Fault OutOfBounds, [replicate (S N) 0%Z]).
Proof.
  intros HN. set (P := replicate N true ++ [false]).
  assert (HPN : P !! N = Some false).
  { unfold P. rewrite lookup_app_r by by rewrite length_replicate.
    by rewrite length_replicate, Nat.sub_diag. }
  assert (Hnone : forall i, i < N -> P !! i <> Some false).
  { intros i Hi. unfold P.
    rewrite lookup_app_l by by rewrite length_replicate.
    by rewrite lookup_replicate_2. }
  assert (Hpicks : picks false P (S N) = [N]).
  { by rewrite picks_S, picks_none, decide_True by done. }
  assert (Hrank0 : rank false P N = 0)
    by (unfold rank; by rewrite picks_none).
  assert (Hrank : rank false P (S N) = 1) by (unfold rank; by rewrite Hpicks).
  assert (HlP : S N <= length P).
  { unfold P. rewrite length_app, length_replicate. cbn. lia. }
  assert (Hsrc : gather (replicate (S N) 7%Z) [N] = [7%Z]).
  { unfold gather. cbn [omap list_omap].
    by rewrite lookup_replicate_2 by lia. }
  assert (Hpacked : packed false P (S N) (replicate (S N) 7%Z) [0%Z] = [7%Z]).
  { unfold packed. by rewrite Hpicks, Hrank, Hsrc. }
  assert (Hidx : packed false P (S N) (source_indices (S N)) [0%Z] =
                 [(- 2 ^ 31)%Z]).
  { unfold packed. rewrite Hpicks, Hrank. unfold gather. cbn [omap list_omap].
    rewrite source_indices_lookup by lia. rewrite HN. reflexivity. }
  assert (HX : forall v : Z,
            Forall (fun s => S N <= length s) [replicate (S N) v]).
  { intros v. constructor; [by rewrite length_replicate | constructor]. }
  assert (HY : Forall (fun y : list Z => rank false P (S N) <= length y)
                 [[0%Z]]).
  { constructor; [rewrite Hrank; cbn; lia | constructor]. }
  assert (HD : Forall (fun y : list Z => rank false P (S N) <= length y)
                 [[7%Z]]).
  { constructor; [rewrite Hrank; cbn; lia | constructor]. }
  eexists. split_and!.
  - rewrite (pack_host host_device eq_refl P (S N) [replicate (S N) 7%Z]
               [[0%Z]] false eq_refl HlP
               (HX 7%Z) HY).
    cbn [zip_with]. by rewrite Hrank, Hpacked.
  - rewrite (pack_indices_host host_device eq_refl P (S N)
               [replicate (S N) 7%Z] [[0%Z]] [0%Z] false
               eq_refl ltac:(unfold Int.INT_MAX; cbn; lia) HlP (HX 7%Z) HY
               ltac:(rewrite Hrank; cbn; lia)).
    cbn [zip_with]. by rewrite Hrank, Hpacked, Hidx.
  - rewrite (unpack_host host_device eq_refl P (S N) [[7%Z]]
               [replicate (S N) 0%Z] false eq_refl HlP
               (HX 0%Z) HD).
    cbn [zip_with]. reflexivity.
  - rewrite unpacked_lookup, decide_True;
      [by rewrite Hrank0 | split; [lia | done]
      | by rewrite length_replicate | rewrite Hrank; cbn; lia].
  - apply (unpack_indices_negative host_device _ 0 [7%Z] 7%Z [] _ false
             (- 2 ^ 31)%Z); [done | done | unfold Int.INT_MAX; cbn; lia
                            | done | done | lia].
Qed.

(** C5 as stated fails for a length beyond the range of [int]: with
    [2^31 + 1] samples of which only the last is rejected, both packs return
    the count 1 and the same dense cell, but the index recorded for sample
    [2^31] is [-2^31]; the [unpack] driven by the predicate writes cell
    [2^31] of the sparse destination, whereas the [unpack] driven by the
    recorded index points before the buffer and writes nothing. *)
Lemma index_variant_overflow :
  exists x'',
    DataHandler.pack host_device
      (replicate (Z.to_nat (2 ^ 31)) true ++ [false])
      (S (Z.to_nat (2 ^ 31)))
      [replicate (S (Z.to_nat (2 ^ 31))) 7%Z] false [[0%Z]] =
      (Ok 1, [[7%Z]]) /\
    DataHandler.pack_indices host_device
      (replicate (Z.to_nat (2 ^ 31)) true ++ [false])
      (S (Z.to_nat (2 ^ 31)))
      [replicate (S (Z.to_nat (2 ^ 31))) 7%Z] false ([0%Z], [[0%Z]]) =
      (Ok 1, ([(- 2 ^ 31)%Z], [[7%Z]])) /\
    DataHandler.unpack host_device
      (replicate (Z.to_nat (2 ^ 31)) true ++ [false])
      (S (Z.to_nat (2 ^ 31)))
      [[7%Z]] false [replicate (S (Z.to_nat (2 ^ 31))) 0%Z] =
      (Ok tt, [x'']) /\
    x'' !! Z.to_nat (2 ^ 31) = Some 7%Z /\
    DataHandler.unpack_indices host_device [(- 2 ^ 31)%Z] 1 [[7%Z]] false
      [replicate (S (Z.to_nat (2 ^ 31))) 0%Z] =
      (Fault OutOfBounds, [replicate (S (Z.to_nat (2 ^ 31))) 0%Z]).
Proof.
  apply (index_variant_beyond_int (Z.to_nat (2 ^ 31))).
  apply Z2Nat.id. lia.
Qed.

(** C8 as stated fails outside the range of [int].  With [2^29] features of
    8 bytes the byte size of a sample, [2^32], is stored in an [int] as [0]:
    the call with [includeReIndex] divides the budget by the 4 bytes of the
    index alone and returns [2^24 / 4], where [floor (BUDGET /
    bytes_per_sample)] is [0].  With no feature and [includeReIndex] unset
    the call divides by zero and returns nothing. *)
Lemma computePartitionSize_wraps :
  DataHandler.computePartitionSize 8 (2 ^ 29) 0 true (2 ^ 24) =
    Ok (2 ^ 24 / 4)%Z /\
  (2 ^ 24 / (8 * (2 ^ 29 + 0) + Int.sizeof_int) = 0)%Z /\
  (2 ^ 24 / 4 <> 0)%Z /\
  DataHandler.computePartitionSize 8 0 0 false (2 ^ 24) =
    Fault DivisionByZero.
Proof. vm_compute. split_and!; (reflexivity || discriminate). Qed.
